(** * VAII: document field extraction, validation, aggregation and scoring

    A shallow embedding of [main.py] (the functions between
    [extrair_texto_pdf] and [processar_documentos], and the second scoring
    of the report in [upload_form_post]), the properties of its
    specification and further properties of the code.

    Conventions of the embedding.
    - A Python [str] is the list of its code points ([list N]); literals are
      written [py "..."] and decoded from the UTF-8 bytes of the literal.
    - What Python takes from the Unicode character database for code points
      outside ASCII (decimal digits, white space, case mappings) is a
      parameter, the class [UnicodeDB]; on ASCII every function computes.
    - A Python [float] is a binary64 value of [SpecFloat]; [float(str)] and
      [round(x, 2)] are the correctly rounded conversions.
    - A [dict] with a fixed set of keys is a record of options ([None] is
      an absent key or the value [None]); the contribution mapping is a
      [gmap].
    - An exception is the [Raise] result of [res]; the disk the pipeline
      writes to is an explicit state of a file system, the class
      [FileSystem], whose writes and renames return or raise. *)

From Stdlib Require Import ZArith NArith QArith Ascii String List Lia DecimalString.
From Stdlib Require Import SpecFloat.
From stdpp Require Import base option gmap list sorting.

Set Default Proof Using "Type".

(** ** Text *)

Abbreviation str := (list N).

(** Decoding of the UTF-8 bytes of a literal into code points. *)
Fixpoint utf8_decode (bs : list N) : str :=
  match bs with
  | [] => []
  | b :: t =>
    if (b <? 128)%N then b :: utf8_decode t
    else if (b <? 224)%N then
      match t with
      | c1 :: t' => ((b - 192) * 64 + (c1 - 128))%N :: utf8_decode t'
      | [] => []
      end
    else if (b <? 240)%N then
      match t with
      | c1 :: c2 :: t' =>
        ((b - 224) * 4096 + (c1 - 128) * 64 + (c2 - 128))%N :: utf8_decode t'
      | _ => []
      end
    else
      match t with
      | c1 :: c2 :: c3 :: t' =>
        ((b - 240) * 262144 + (c1 - 128) * 4096 + (c2 - 128) * 64 + (c3 - 128))%N
          :: utf8_decode t'
      | _ => []
      end
  end.

Definition py (s : string) : str :=
  utf8_decode (map N_of_ascii (list_ascii_of_string s)).

(** Exceptions the modelled code can raise, and results. *)
Inductive exn :=
  | ValueError
  | KeyError (key : str)
  | NameError (name : str)
  | FileNotFoundError (path : str)
  | NotADirectoryError (path : str)
  | IsADirectoryError (path : str)
  | PermissionError (path : str).

Inductive res (A : Type) :=
  | Ok (a : A)
  | Raise (e : exn).
Arguments Ok {A} a.
Arguments Raise {A} e.

Definition res_bind {A B} (r : res A) (k : A -> res B) : res B :=
  match r with
  | Ok a => k a
  | Raise e => Raise e
  end.

(** The value of a result, when there is one. *)
Definition resultado {A} (r : res A) : option A :=
  match r with
  | Ok a => Some a
  | Raise _ => None
  end.

(** Whether a computation returned. *)
Definition retornou {A} (r : res A) : bool :=
  match r with
  | Ok _ => true
  | Raise _ => false
  end.

(** What CPython reads in the Unicode character database for the code
    points from 128 on. *)
Class UnicodeDB := {
  (** [Py_UNICODE_TODECIMAL]: the value of a decimal digit (category Nd) *)
  uni_decimal : N -> option N;
  (** [Py_UNICODE_ISSPACE] *)
  uni_isspace : N -> bool;
  (** [Py_UNICODE_TOLOWER], the simple lower-case mapping *)
  uni_tolower : N -> N;
  (** the extra case-insensitive equivalents [sre] adds to a character set *)
  uni_casefix : N -> bool;
  (** [str.lower] and [str.title] of a string that is not pure ASCII *)
  uni_lower : str -> str;
  uni_title : str -> str
}.

Definition is_ascii (c : N) : bool := (c <? 128)%N.

Definition ascii_isupper (c : N) : bool := (65 <=? c)%N && (c <=? 90)%N.
Definition ascii_islower (c : N) : bool := (97 <=? c)%N && (c <=? 122)%N.
Definition ascii_isalpha (c : N) : bool := ascii_isupper c || ascii_islower c.
Definition ascii_isdigit (c : N) : bool := (48 <=? c)%N && (c <=? 57)%N.
Definition ascii_tolower (c : N) : N := if ascii_isupper c then (c + 32)%N else c.
Definition ascii_toupper (c : N) : N := if ascii_islower c then (c - 32)%N else c.

(** ASCII white space of [str.isspace] and of [\s]: TAB..CR, FS..US, space. *)
Definition ascii_isspace (c : N) : bool :=
  ((9 <=? c)%N && (c <=? 13)%N) || ((28 <=? c)%N && (c <=? 32)%N).

(** [str.title] on ASCII: a letter that follows a letter is lowered, a
    letter that does not is raised. *)
Fixpoint ascii_title (prev_cased : bool) (s : str) : str :=
  match s with
  | [] => []
  | c :: t =>
    if ascii_isalpha c
    then (if prev_cased then ascii_tolower c else ascii_toupper c) :: ascii_title true t
    else c :: ascii_title false t
  end.

Section Model.
Context `{UnicodeDB}.

(** The value of a decimal digit: what [\d] matches and [int] reads. *)
Definition decimal (c : N) : option N :=
  if is_ascii c then (if ascii_isdigit c then Some (c - 48)%N else None)
  else uni_decimal c.

Definition isdigit (c : N) : bool := bool_decide (is_Some (decimal c)).

Definition isspace (c : N) : bool :=
  if is_ascii c then ascii_isspace c else uni_isspace c.

Definition tolower (c : N) : N :=
  if is_ascii c then ascii_tolower c else uni_tolower c.

(** [s.lower()] *)
Definition lower (s : str) : str :=
  if forallb is_ascii s then map ascii_tolower s else uni_lower s.

(** [s.upper()], used by the source on ASCII literals only. *)
Definition upper (s : str) : str := map ascii_toupper s.

(** [s.title()] *)
Definition title (s : str) : str :=
  if forallb is_ascii s then ascii_title false s else uni_title s.

(** [s.strip()] *)
Fixpoint lstrip (s : str) : str :=
  match s with
  | c :: t => if isspace c then lstrip t else s
  | [] => []
  end.

Definition rstrip (s : str) : str := rev (lstrip (rev s)).

Definition strip (s : str) : str := rstrip (lstrip s).

(** [str(n)] of an integer. *)
Definition str_of_Z (n : Z) : str :=
  py (NilZero.string_of_int (Z.to_int n)).

(** [int(c)] of a one-character string. *)
Definition int_of_char (c : N) : res Z :=
  match decimal c with
  | Some d => Ok (Z.of_N d)
  | None => Raise ValueError
  end.

(** ** Regular expressions

    Every pattern of the source is a sequence of character classes, each
    with a greedy quantifier; [match_seq] is the backtracking matcher of
    such a sequence and returns what each class matched. *)

Record atom := Atom {
  a_class : N -> bool;
  a_min : nat;
  a_max : option nat
}.

Definition exactly (n : nat) (p : N -> bool) : atom := Atom p n (Some n).
Definition lit (c : N) : atom := exactly 1 (N.eqb c).
Definition lits (s : str) : list atom := map lit s.
Definition star (p : N -> bool) : atom := Atom p 0 None.
Definition plus (p : N -> bool) : atom := Atom p 1 None.

(** A literal under [re.IGNORECASE]: [sre] compares the lowered character
    with the lowered literal. *)
Definition lit_ic (c : N) : atom := exactly 1 (fun ch => N.eqb (tolower ch) (tolower c)).

(** Greedy repetition of one class, the longest repetition first, with the
    continuation [k] deciding whether the rest of the pattern matches. *)
Fixpoint greedy {R} (p : N -> bool) (lo : nat) (hi : option nat) (s : str)
    (k : str -> str -> option R) : option R :=
  let stop := match lo with O => k [] s | S _ => None end in
  match s with
  | c :: t =>
    if p c && negb (bool_decide (hi = Some O)) then
      match greedy p (Nat.pred lo) (Nat.pred <$> hi) t (fun m r => k (c :: m) r) with
      | Some r => Some r
      | None => stop
      end
    else stop
  | [] => stop
  end.

(** [re.match]: the pattern at the start of [s]; the result is the text
    each atom matched and the text left. *)
Fixpoint match_seq (pat : list atom) (s : str) : option (list str * str) :=
  match pat with
  | [] => Some ([], s)
  | a :: pat' =>
    greedy (a_class a) (a_min a) (a_max a) s (fun m r =>
      match match_seq pat' r with
      | Some (ms, r') => Some (m :: ms, r')
      | None => None
      end)
  end.

(** [re.search]: the match at the leftmost position that has one. *)
Fixpoint re_search (pat : list atom) (s : str) : option (list str) :=
  match match_seq pat s with
  | Some (ms, _) => Some ms
  | None =>
    match s with
    | [] => None
    | _ :: t => re_search pat t
    end
  end.

(** [re.findall] for a pattern that matches no empty text: the matches
    from left to right, each search resuming where the previous match
    ended ([skip] counts the characters of the last match still to pass). *)
Fixpoint re_findall_from (pat : list atom) (skip : nat) (s : str) : list (list str) :=
  match s with
  | [] => []
  | _ :: t =>
    match skip with
    | S k => re_findall_from pat k t
    | O =>
      match match_seq pat s with
      | Some (ms, _) => ms :: re_findall_from pat (Nat.pred (length (concat ms))) t
      | None => re_findall_from pat O t
      end
    end
  end.

Definition re_findall (pat : list atom) (s : str) : list (list str) :=
  re_findall_from pat O s.

(** The text matched by the atoms [i], ..., [i + n - 1]: a group. *)
Definition group (i n : nat) (ms : list str) : str := concat (take n (drop i ms)).

(** ** Field extractors *)

Definition nao_encontrado : str := py "Não encontrado".

(** [r'(\d{3}\.\d{3}\.\d{3}-\d{2})'] *)
Definition padrao_cpf : list atom :=
  [exactly 3 isdigit; lit 46; exactly 3 isdigit; lit 46; exactly 3 isdigit; lit 45;
   exactly 2 isdigit].

(** [r'(\d{11})'] *)
Definition padrao2_cpf : list atom := [exactly 11 isdigit].

Definition extrair_cpf (texto : str) : str :=
  match re_search padrao_cpf texto with
  | Some resultado => concat resultado
  | None =>
    match re_search padrao2_cpf texto with
    | Some resultado2 =>
      let g := concat resultado2 in
      take 3 g ++ py "." ++ take 3 (drop 3 g) ++ py "." ++ take 3 (drop 6 g)
        ++ py "-" ++ drop 9 g
    | None => nao_encontrado
    end
  end.

(** The class [[A-Za-zÀ-ÿ\s]] under [re.IGNORECASE]: [sre] lowers the
    ranges when it compiles the set (a-z, the multiplication sign and
    ß..ÿ, plus the extra equivalents of the database) and tests the
    lowered character. *)
Definition classe_nome (c : N) : bool :=
  let l := tolower c in
  ascii_islower l || N.eqb l 215 || ((223 <=? l)%N && (l <=? 255)%N)
  || (negb (is_ascii l) && uni_casefix l) || isspace l.

(** [r'Nome:\s*([A-Za-zÀ-ÿ\s]+)'] with [re.IGNORECASE] *)
Definition padrao_nome : list atom :=
  [lit_ic 78; lit_ic 111; lit_ic 109; lit_ic 101; lit 58; star isspace; plus classe_nome].

Definition extrair_nome (texto : str) : str :=
  match re_search padrao_nome texto with
  | Some resultado => title (strip (group 6 1 resultado))
  | None => nao_encontrado
  end.

(** [r'(PIS\/PASEP[:\s]*\d{3}\.\d{5}\.\d{2}-\d{1})'] *)
Definition padrao_pis : list atom :=
  lits (py "PIS/PASEP")
  ++ [star (fun c => N.eqb c 58 || isspace c);
      exactly 3 isdigit; lit 46; exactly 5 isdigit; lit 46; exactly 2 isdigit; lit 45;
      exactly 1 isdigit].

Definition extrair_pis (texto : str) : str :=
  match re_search padrao_pis texto with
  | Some resultado => concat resultado
  | None => nao_encontrado
  end.

(** ** Floats

    [float] is IEEE binary64: [SpecFloat] with precision 53 and [emax]
    1024. *)

Definition prec : Z := 53.
Definition emax : Z := 1024.

Definition float_zero : spec_float := S754_zero false.

(** The binary64 value nearest to [num / den] (ties to even). *)
Definition float_of_ratio (s : bool) (num den : positive) : spec_float :=
  SFdiv prec emax (S754_finite s num 0) (S754_finite false den 0).

(** [float(n)] of a non-negative integer. *)
Definition float_of_N (n : N) : spec_float :=
  match n with
  | N0 => float_zero
  | Npos p => float_of_ratio false p 1
  end.

(** The number a run of decimal digits denotes, most significant first. *)
Fixpoint digits_value (acc : N) (ds : str) : option N :=
  match ds with
  | [] => Some acc
  | c :: t =>
    match decimal c with
    | Some d => digits_value (10 * acc + d)%N t
    | None => None
    end
  end.

(** Splits at the first point: the text before it and, when there is a
    point, the text after it. *)
Fixpoint split_point (s : str) : str * option str :=
  match s with
  | [] => ([], None)
  | c :: t =>
    if N.eqb c 46 then ([], Some t)
    else let '(a, b) := split_point t in (c :: a, b)
  end.

(** [float(s)] for a numeral without sign or exponent, which is all the
    source passes to it (digits and points): digits, at most one point, at
    least one digit; anything else is a [ValueError]. *)
Definition py_float (s : str) : res spec_float :=
  let '(int_part, frac) := split_point s in
  let frac_part := default [] frac in
  if bool_decide (int_part ++ frac_part = []) then Raise ValueError
  else
    match digits_value 0 (int_part ++ frac_part) with
    | Some n =>
      match n with
      | N0 => Ok float_zero
      | Npos p => Ok (float_of_ratio false p (Z.to_pos (10 ^ Z.of_nat (length frac_part))))
      end
    | None => Raise ValueError
    end.

(** [round(x, 2)]: the multiple of 0.01 nearest to the exact value of [x]
    (ties to the even multiple), as the binary64 value nearest to it;
    infinities and NaN round to themselves. *)
Definition round_half_even (n d : Z) : Z :=
  let '(q, r) := Z.div_eucl n d in
  match (2 * r ?= d)%Z with
  | Lt => q
  | Gt => (q + 1)%Z
  | Eq => if Z.even q then q else (q + 1)%Z
  end.

Definition py_round2 (x : spec_float) : spec_float :=
  match x with
  | S754_finite s m e =>
    let centavos :=
      match e with
      | Zneg k => round_half_even (100 * Zpos m) (2 ^ Zpos k)
      | _ => (100 * Zpos m * 2 ^ e)%Z
      end in
    match centavos with
    | Zpos c => float_of_ratio s c 100
    | _ => S754_zero s
    end
  | _ => x
  end.

(** [x >= 0] *)
Definition float_nonneg (x : spec_float) : bool := SFleb float_zero x.

(** ** Contribution extractor ([extrair_contribuicoes]) *)

(** [r'(\d{4}-\d{2}):\s*([\d.,]+)'] *)
Definition padrao_contrib : list atom :=
  [exactly 4 isdigit; lit 45; exactly 2 isdigit; lit 58; star isspace;
   plus (fun c => isdigit c || N.eqb c 46 || N.eqb c 44)].

(** [valor_str.replace('.', '').replace(',', '.')] *)
Definition normalizar_valor (valor_str : str) : str :=
  map (fun c => if N.eqb c 44 then 46%N else c)
      (List.filter (fun c => negb (N.eqb c 46)) valor_str).

(** The body of the [try]: the rounded amount, or the exception. *)
Definition converter_valor (valor_str : str) : res spec_float :=
  res_bind (py_float (normalizar_valor valor_str)) (fun valor => Ok (py_round2 valor)).

(** The pairs [(data_str, valor_str)] of [re.findall]. *)
Definition ocorrencias (texto : str) : list (str * str) :=
  map (fun ms => (group 0 3 ms, group 5 1 ms)) (re_findall padrao_contrib texto).

Definition guardar_contrib (contribs : gmap str spec_float) (m : str * str)
    : gmap str spec_float :=
  match converter_valor m.2 with
  | Ok valor => <[m.1 := valor]> contribs
  | Raise _ => contribs
  end.

Definition extrair_contribuicoes (texto : str) : gmap str spec_float :=
  foldl guardar_contrib ∅ (ocorrencias texto).

(** ** Tax-ID validation ([validar_cpf]) *)

(** The inner function of [validar_cpf]; [total] and [peso_inicial] are
    the two variables of its loop. *)
Fixpoint calcular_digito_loop (cpf_parcial : str) (total peso_inicial : Z) : res Z :=
  match cpf_parcial with
  | [] => Ok total
  | digito :: t =>
    res_bind (int_of_char digito) (fun d =>
      calcular_digito_loop t (total + d * peso_inicial)%Z (peso_inicial - 1)%Z)
  end.

Definition calcular_digito (cpf_parcial : str) (peso_inicial : Z) : res str :=
  res_bind (calcular_digito_loop cpf_parcial 0%Z peso_inicial) (fun total =>
    let resto := (total mod 11)%Z in
    Ok (if (resto <? 2)%Z then py "0" else str_of_Z (11 - resto))).

(** [re.sub(r'\D', '', cpf)] *)
Definition so_digitos (cpf : str) : str := List.filter isdigit cpf.

Definition validar_cpf (cpf : str) : res bool :=
  let cpf := so_digitos cpf in
  if negb (length cpf =? 11)%nat
     || bool_decide (cpf = replicate 11 (hd 0%N cpf))
  then Ok false
  else
    res_bind (calcular_digito (take 9 cpf) 10) (fun digito1 =>
    res_bind (calcular_digito (take 9 cpf ++ digito1) 11) (fun digito2 =>
      Ok (bool_decide (drop (length cpf - 2) cpf = digito1 ++ digito2)))).

(** ** Benefit estimate ([calcular_beneficio]) *)

(** Order of [str]: lexicographic on the code points. *)
Fixpoint str_leb (a b : str) : bool :=
  match a, b with
  | [], _ => true
  | _ :: _, [] => false
  | x :: a', y :: b' =>
    if (x <? y)%N then true else if (y <? x)%N then false else str_leb a' b'
  end.

(** [sorted(l, reverse=True)] *)
Definition sorted_reverse (l : list str) : list str :=
  merge_sort (fun a b => Is_true (str_leb b a)) l.

(** The default of the parameter [salario_min]: [1412.00]. *)
Definition salario_min_padrao : spec_float := float_of_N 1412.

(** The name [contribs] in the body of [calcular_beneficio] is neither a
    parameter nor a local of the function, so it is looked up in the
    globals of the module; [main.py] binds it nowhere at module level (it
    is a local of [extrair_contribuicoes], [verificar_elegibilidade] and
    [processar_documentos]), and the lookup raises. *)
Definition global_contribs : res (gmap str spec_float) :=
  Raise (NameError (py "contribs")).

(** [[contribuicoes[data] for data in datas if data in contribs]], where
    [contribs] is what the lookup of that name gives, each time the
    condition is evaluated. *)
Fixpoint valores_de (contribs : res (gmap str spec_float))
    (contribuicoes : gmap str spec_float) (datas : list str) : res (list spec_float) :=
  match datas with
  | [] => Ok []
  | data :: t =>
    res_bind contribs (fun g =>
      if bool_decide (is_Some (g !! data)) then
        match contribuicoes !! data with
        | Some v => res_bind (valores_de contribs contribuicoes t) (fun vs => Ok (v :: vs))
        | None => Raise (KeyError data)
        end
      else valores_de contribs contribuicoes t)
  end.

(** [max(a, b)] of two floats: [b] when [b > a], else [a]. *)
Definition float_max (a b : spec_float) : spec_float :=
  if SFltb a b then b else a.

(** [sum(valores)], added from left to right (from Python 3.12 on [sum]
    compensates the rounding errors; the two agree whenever the partial
    sums are exact, as for the amounts of the examples). *)
Definition float_sum (valores : list spec_float) : spec_float :=
  foldl (SFadd prec emax) float_zero valores.

(** The body of [calcular_beneficio], given what the name [contribs]
    refers to. *)
Definition calcular_beneficio_em (contribs : res (gmap str spec_float))
    (contribuicoes : gmap str spec_float) (salario_min : spec_float)
    : res (option spec_float) :=
  if bool_decide (contribuicoes = ∅) then Ok None
  else
    let datas := take 12 (sorted_reverse (map fst (map_to_list contribuicoes))) in
    res_bind (valores_de contribs contribuicoes datas) (fun valores =>
      match valores with
      | [] => Ok None
      | _ =>
        let media :=
          SFdiv prec emax (float_sum valores) (float_of_N (N.of_nat (length valores))) in
        Ok (Some (py_round2 (float_max media salario_min)))
      end).

Definition calcular_beneficio (contribuicoes : gmap str spec_float)
    (salario_min : spec_float) : res (option spec_float) :=
  calcular_beneficio_em global_contribs contribuicoes salario_min.

(** ** Records *)

(** The dictionary [elegibilidade]. *)
Record elegibilidade_t := {
  pagou_12_meses : bool;
  qualidade_segurada : bool;
  dentro_prazo : bool;
  mensagem : str
}.

(** [info_doc], the summary of one processed document. *)
Record info_doc := {
  i_tipo : str;
  i_arquivo_original : str;
  i_qualidade : str;
  i_nome : option str;
  i_cpf : option str;
  i_cpf_valido : option bool;
  i_contribuicoes : option (gmap str spec_float);
  i_pis : option str;
  i_mei : option str;
  i_arquivo_renomeado : option str
}.

(** [dados], the aggregated record: the keys the source reads or writes. *)
Record dados := {
  d_rg : option str;
  d_certidao : option str;
  d_cnis : option str;
  d_pis : option str;
  d_mei : option str;
  d_nome : option str;
  d_cpf : option str;
  d_cpf_valido : option bool;
  d_contribuicoes : option (gmap str spec_float);
  d_beneficio : option spec_float;
  d_documentos : list info_doc;
  d_inconsistencia_nomes : option str;
  d_ocupacao : option str;
  d_elegibilidade : option elegibilidade_t
}.

(** [dados_aggregados = {}] *)
Definition dados_vazio : dados := {|
  d_rg := None; d_certidao := None; d_cnis := None; d_pis := None; d_mei := None;
  d_nome := None; d_cpf := None; d_cpf_valido := None; d_contribuicoes := None;
  d_beneficio := None; d_documentos := []; d_inconsistencia_nomes := None;
  d_ocupacao := None; d_elegibilidade := None
|}.

(** The report [relatorio]. *)
Record relatorio := {
  r_rg : option str;
  r_certidao : option str;
  r_cnis : option str;
  r_pis : option str;
  r_mei : option str;
  r_nome : option str;
  r_cpf : option str;
  r_cpf_valido : option bool;
  r_beneficio_estimado : option spec_float;
  r_elegibilidade : elegibilidade_t;
  r_documentos_processados : list info_doc;
  r_informacoes_incompletas : list str;
  r_ocupacao : option str;
  r_aprovacao : str
}.

(** Truth value of an optional string: absent, [None] and [""] are false. *)
Definition truthy (o : option str) : bool :=
  match o with
  | Some (_ :: _) => true
  | _ => false
  end.

(** ** Eligibility and required documents *)

Definition verificar_elegibilidade (d : dados) : elegibilidade_t :=
  let contribs := default ∅ (d_contribuicoes d) in
  let pagou_12 := (12 <=? size contribs)%nat in
  {| pagou_12_meses := pagou_12;
     qualidade_segurada := true;
     dentro_prazo := true;
     mensagem :=
       if negb pagou_12
       then py "A cliente não está apta a prosseguir. É necessário ter contribuído por 12 meses."
       else py "A cliente está apta a prosseguir." |}.

(** [dados.get(doc)] for the five document keys. *)
Definition dados_get_doc (d : dados) (doc : str) : option str :=
  if bool_decide (doc = py "rg") then d_rg d
  else if bool_decide (doc = py "certidao") then d_certidao d
  else if bool_decide (doc = py "cnis") then d_cnis d
  else if bool_decide (doc = py "pis") then d_pis d
  else if bool_decide (doc = py "mei") then d_mei d
  else None.

Definition verificar_documentos_obrigatorios (d : dados) : list str :=
  let obrigatorios := [py "rg"; py "certidao"; py "cnis"; py "pis"] in
  let obrigatorios :=
    if bool_decide (d_ocupacao d = Some (py "MEI"))
    then obrigatorios ++ [py "mei"] else obrigatorios in
  map upper (List.filter (fun doc => negb (truthy (dados_get_doc d doc))) obrigatorios).

(** ** Approval score ([calcular_aprovacao]) *)

Definition Qltb (a b : Q) : bool := negb (Qle_bool b a).

(** The value of [score] when the thresholds are tested. *)
Definition score_de (d : dados) (ocupacao : option str) : Q :=
  let score := 0%Q in
  let score :=
    if match d_elegibilidade d with Some e => pagou_12_meses e | None => false end
    then (score + 2)%Q else score in
  let score := if default false (d_cpf_valido d) then (score + 1)%Q else score in
  let score :=
    if bool_decide (verificar_documentos_obrigatorios d = []) then (score + 1)%Q else score in
  if bool_decide (ocupacao = Some (py "CLT")) then (score + 1)%Q
  else if bool_decide (ocupacao ∈ [Some (py "MEI"); Some (py "Autônoma"); Some (py "Desempregada")])
  then (score + (1 # 2))%Q
  else score.

Definition calcular_aprovacao (d : dados) (ocupacao : option str) : str :=
  let score := score_de d ocupacao in
  if Qltb score 2 then py "Benefício Improvável"
  else if Qltb score 3 then py "Pouco provável"
  else if Qltb score 4 then py "Provável"
  else py "Muito provável".

(** ** The report ([gerar_relatorio]) *)

Definition gerar_relatorio (d : dados) : relatorio := {|
  r_rg := d_rg d;
  r_certidao := d_certidao d;
  r_cnis := d_cnis d;
  r_pis := d_pis d;
  r_mei := d_mei d;
  r_nome := d_nome d;
  r_cpf := d_cpf d;
  r_cpf_valido := d_cpf_valido d;
  r_beneficio_estimado := d_beneficio d;
  r_elegibilidade := verificar_elegibilidade d;
  r_documentos_processados := d_documentos d;
  r_informacoes_incompletas := verificar_documentos_obrigatorios d;
  r_ocupacao := d_ocupacao d;
  r_aprovacao := calcular_aprovacao d (d_ocupacao d)
|}.

(** ** Paths ([os.path] on POSIX) *)

(** Splits at the last occurrence of [c]. *)
Fixpoint rsplit (c : N) (s : str) : option (str * str) :=
  match s with
  | [] => None
  | x :: t =>
    match rsplit c t with
    | Some (a, b) => Some (x :: a, b)
    | None => if N.eqb x c then Some ([], t) else None
    end
  end.

(** [os.path.join(a, b)] *)
Definition path_join (a b : str) : str :=
  if bool_decide (head b = Some 47%N) then b
  else if bool_decide (a = []) || bool_decide (last a = Some 47%N) then a ++ b
  else a ++ py "/" ++ b.

(** [p.split(os.sep)[-1]] *)
Definition ultimo_componente (p : str) : str :=
  match rsplit 47 p with
  | Some (_, b) => b
  | None => p
  end.

(** [s.rstrip('/')] *)
Fixpoint lstrip_sep (s : str) : str :=
  match s with
  | c :: t => if N.eqb c 47 then lstrip_sep t else s
  | [] => []
  end.

Definition rstrip_sep (s : str) : str := rev (lstrip_sep (rev s)).

(** [os.path.dirname(p)] *)
Definition dirname (p : str) : str :=
  match rsplit 47 p with
  | Some (a, _) =>
    let head := a ++ py "/" in
    if forallb (N.eqb 47) head then head else rstrip_sep head
  | None => []
  end.

(** [os.path.splitext(p)[1]]: from the last dot of the last component,
    unless only dots come before it there. *)
Definition extensao_de (p : str) : str :=
  match rsplit 46 (ultimo_componente p) with
  | Some (a, b) => if existsb (fun c => negb (N.eqb c 46)) a then py "." ++ b else []
  | None => []
  end.

(** ** Files *)

(** What the code observes of a file: its size, and what [pdfplumber]
    makes of it: [None] when it cannot be opened as a PDF, else its pages,
    a page being the text [extract_text] returns or [None] when it raises. *)
Record arquivo := {
  tamanho : N;
  paginas : option (list (option str))
}.

(** An uploaded file ([FileStorage]) of a request just received: its file
    name as the client sent it, and its stream, which the pipeline reads
    once, from the start. *)
Record file_storage := {
  filename : str;
  stream : arquivo
}.

(** The file system, as far as the code uses it. A state [disk] of the
    disk is looked up by path: [disk !! p] is what the code observes of the
    file the path names, if it names one. Writing an upload
    ([FileStorage.save], which opens the path for writing) and [os.rename]
    return or raise as the file system decides: a path in a directory that
    does not exist, a path that names a directory, a name the file system
    refuses. What is known of them is that a file that was written, or
    moved, is then read back under the path it was written or moved to, and
    that a rename that fails changes nothing (a disk of directories and
    regular files, used by one request at a time). Several paths may name
    one file, and nothing is assumed of the paths an operation does not
    mention. *)
Class FileSystem := {
  (** the states of the disk *)
  disco : Type;
  (** what [os.path.getsize] and [pdfplumber.open] find at a path *)
  fs_lookup :: Lookup str arquivo disco;
  (** [open(dst, "wb")] and the write of a content *)
  fs_save : str -> arquivo -> disco -> res unit * disco;
  (** [os.rename(src, dst)] *)
  fs_rename : str -> str -> disco -> res unit * disco;
  fs_save_lookup : forall dst a disk disk',
    fs_save dst a disk = (Ok tt, disk') -> disk' !! dst = Some a;
  fs_rename_lookup : forall src dst disk disk',
    fs_rename src dst disk = (Ok tt, disk') -> disk' !! dst = disk !! src;
  fs_rename_raise : forall src dst disk e disk',
    fs_rename src dst disk = (Raise e, disk') -> disk' = disk
}.

Context {FS : FileSystem}.

(** The state: the disk. A computation returns a result or an exception,
    and the disk it leaves. The log ([app.logger]) is written and never
    read, and is left out. *)
Definition io (A : Type) : Type := disco -> res A * disco.

Definition io_ret {A} (a : A) : io A := fun disk => (Ok a, disk).

Definition io_bind {A B} (m : io A) (k : A -> io B) : io B :=
  fun disk =>
    match m disk with
    | (Ok a, disk') => k a disk'
    | (Raise e, disk') => (Raise e, disk')
    end.

(** A computation that only reads the disk. *)
Definition io_read {A} (f : disco -> res A) : io A :=
  fun disk => (f disk, disk).

Definition io_lift {A} (r : res A) : io A := fun disk => (r, disk).

Notation "'do' x <- m ; k" := (io_bind m (fun x => k))
  (at level 10, x name, m at level 100, k at level 200).

Fixpoint io_foldM {A B} (f : B -> A -> io A) (l : list B) (a : A) : io A :=
  match l with
  | [] => io_ret a
  | b :: t => do a' <- f b a; io_foldM f t a'
  end.

(** [file.save(dst)]: the content of the upload is written to [dst], or
    the exception of the file system is raised. *)
Definition save (file : file_storage) (dst : str) : io unit :=
  fs_save dst (stream file).

(** [os.rename(src, dst)] *)
Definition os_rename (src dst : str) : io unit := fs_rename src dst.

(** The loop of [extrair_texto_pdf] over the pages; an exception ends it
    with the text read so far. *)
Fixpoint texto_paginas (pags : list (option str)) (texto : str) : str :=
  match pags with
  | [] => texto
  | None :: _ => texto
  | Some conteudo :: t =>
    texto_paginas t
      (if bool_decide (conteudo = []) then texto else texto ++ conteudo ++ [10%N])
  end.

(** The functions that read a file take as disk anything that is looked up
    by path: a state of the file system, or a map from paths to files. *)
Definition extrair_texto_pdf {D} `{Lookup str arquivo D} (disk : D) (caminho_arquivo : str)
    (max_paginas : nat) : str :=
  match disk !! caminho_arquivo with
  | Some a =>
    match paginas a with
    | Some pags => texto_paginas (take max_paginas pags) []
    | None => []
    end
  | None => []
  end.

Definition extrair_texto {D} `{Lookup str arquivo D} (disk : D) (caminho_arquivo : str)
    : str :=
  let ext := lower (extensao_de caminho_arquivo) in
  if bool_decide (ext = py ".pdf") then extrair_texto_pdf disk caminho_arquivo 5
  else py "Formato não suportado. Envie um PDF.".

(** [app.config['MAX_CONTENT_LENGTH']] *)
Definition MAX_CONTENT_LENGTH : N := 5 * 1024 * 1024.

Definition validar_arquivo {D} `{Lookup str arquivo D} (disk : D) (caminho_arquivo : str)
    : res (bool * str) :=
  match disk !! caminho_arquivo with
  | None => Raise (FileNotFoundError caminho_arquivo)
  | Some a =>
    if (MAX_CONTENT_LENGTH <? tamanho a)%N
    then Ok (false, py "Arquivo muito grande. Máximo 5MB.")
    else
      let ext := lower (extensao_de caminho_arquivo) in
      if negb (bool_decide (ext = py ".pdf"))
      then Ok (false, py "Formato não suportado. Envie apenas PDFs.")
      else
        let texto := extrair_texto disk caminho_arquivo in
        if (length (strip texto) <? 50)%nat
        then Ok (false, py "Qualidade do arquivo baixa. Texto insuficiente para análise.")
        else Ok (true, py "Arquivo válido.")
  end.

Definition verificar_qualidade_texto (texto : str) (threshold : nat) : str :=
  if (length (strip texto) <? threshold)%nat
  then py "Baixa qualidade: texto insuficiente para análise."
  else py "OK".

(** [re.sub(r'[^a-zA-Z0-9]', '', s)] *)
Definition so_alfanumericos (s : str) : str :=
  List.filter (fun c => ascii_isalpha c || ascii_isdigit c) s.

(** The path [renomear_arquivo] renames to, [novo_caminho]. *)
Definition novo_caminho_de (caminho_arquivo cpf nome tipo_doc : str) : str :=
  let diretorio := dirname caminho_arquivo in
  let extensao := extensao_de caminho_arquivo in
  let cpf_limpo := so_digitos cpf in
  let nome_limpo := take 20 (so_alfanumericos (lower nome)) in
  let novo_nome := cpf_limpo ++ py "_" ++ nome_limpo ++ py "_" ++ lower tipo_doc ++ extensao in
  path_join diretorio novo_nome.

(** [renomear_arquivo]; a failure of [os.rename] is logged and ignored. *)
Definition renomear_arquivo (caminho_arquivo cpf nome tipo_doc : str) : io str :=
  let novo_caminho := novo_caminho_de caminho_arquivo cpf nome tipo_doc in
  fun disk =>
    match os_rename caminho_arquivo novo_caminho disk with
    | (Ok _, disk') => (Ok novo_caminho, disk')
    | (Raise _, disk') => (Ok novo_caminho, disk')
    end.

(** ** The pipeline ([processar_documentos]) *)

(** Assignments to keys of [info_doc] and of [dados_aggregados]. *)
Definition info_nova (tipo arquivo_original qualidade : str) : info_doc := {|
  i_tipo := tipo; i_arquivo_original := arquivo_original; i_qualidade := qualidade;
  i_nome := None; i_cpf := None; i_cpf_valido := None; i_contribuicoes := None;
  i_pis := None; i_mei := None; i_arquivo_renomeado := None
|}.

Definition info_set_nome (v : str) (i : info_doc) : info_doc := {|
  i_tipo := i_tipo i; i_arquivo_original := i_arquivo_original i;
  i_qualidade := i_qualidade i; i_nome := Some v; i_cpf := i_cpf i;
  i_cpf_valido := i_cpf_valido i; i_contribuicoes := i_contribuicoes i;
  i_pis := i_pis i; i_mei := i_mei i; i_arquivo_renomeado := i_arquivo_renomeado i
|}.

Definition info_set_cpf (v : str) (i : info_doc) : info_doc := {|
  i_tipo := i_tipo i; i_arquivo_original := i_arquivo_original i;
  i_qualidade := i_qualidade i; i_nome := i_nome i; i_cpf := Some v;
  i_cpf_valido := i_cpf_valido i; i_contribuicoes := i_contribuicoes i;
  i_pis := i_pis i; i_mei := i_mei i; i_arquivo_renomeado := i_arquivo_renomeado i
|}.

Definition info_set_cpf_valido (v : bool) (i : info_doc) : info_doc := {|
  i_tipo := i_tipo i; i_arquivo_original := i_arquivo_original i;
  i_qualidade := i_qualidade i; i_nome := i_nome i; i_cpf := i_cpf i;
  i_cpf_valido := Some v; i_contribuicoes := i_contribuicoes i;
  i_pis := i_pis i; i_mei := i_mei i; i_arquivo_renomeado := i_arquivo_renomeado i
|}.

Definition info_set_contribuicoes (v : gmap str spec_float) (i : info_doc) : info_doc := {|
  i_tipo := i_tipo i; i_arquivo_original := i_arquivo_original i;
  i_qualidade := i_qualidade i; i_nome := i_nome i; i_cpf := i_cpf i;
  i_cpf_valido := i_cpf_valido i; i_contribuicoes := Some v;
  i_pis := i_pis i; i_mei := i_mei i; i_arquivo_renomeado := i_arquivo_renomeado i
|}.

Definition info_set_pis (v : str) (i : info_doc) : info_doc := {|
  i_tipo := i_tipo i; i_arquivo_original := i_arquivo_original i;
  i_qualidade := i_qualidade i; i_nome := i_nome i; i_cpf := i_cpf i;
  i_cpf_valido := i_cpf_valido i; i_contribuicoes := i_contribuicoes i;
  i_pis := Some v; i_mei := i_mei i; i_arquivo_renomeado := i_arquivo_renomeado i
|}.

Definition info_set_mei (v : str) (i : info_doc) : info_doc := {|
  i_tipo := i_tipo i; i_arquivo_original := i_arquivo_original i;
  i_qualidade := i_qualidade i; i_nome := i_nome i; i_cpf := i_cpf i;
  i_cpf_valido := i_cpf_valido i; i_contribuicoes := i_contribuicoes i;
  i_pis := i_pis i; i_mei := Some v; i_arquivo_renomeado := i_arquivo_renomeado i
|}.

Definition info_set_arquivo_renomeado (v : str) (i : info_doc) : info_doc := {|
  i_tipo := i_tipo i; i_arquivo_original := i_arquivo_original i;
  i_qualidade := i_qualidade i; i_nome := i_nome i; i_cpf := i_cpf i;
  i_cpf_valido := i_cpf_valido i; i_contribuicoes := i_contribuicoes i;
  i_pis := i_pis i; i_mei := i_mei i; i_arquivo_renomeado := Some v
|}.

Definition set_nome (v : str) (d : dados) : dados := {|
  d_rg := d_rg d; d_certidao := d_certidao d; d_cnis := d_cnis d; d_pis := d_pis d;
  d_mei := d_mei d; d_nome := Some v; d_cpf := d_cpf d; d_cpf_valido := d_cpf_valido d;
  d_contribuicoes := d_contribuicoes d; d_beneficio := d_beneficio d;
  d_documentos := d_documentos d; d_inconsistencia_nomes := d_inconsistencia_nomes d;
  d_ocupacao := d_ocupacao d; d_elegibilidade := d_elegibilidade d
|}.

Definition set_cpf (v : str) (d : dados) : dados := {|
  d_rg := d_rg d; d_certidao := d_certidao d; d_cnis := d_cnis d; d_pis := d_pis d;
  d_mei := d_mei d; d_nome := d_nome d; d_cpf := Some v; d_cpf_valido := d_cpf_valido d;
  d_contribuicoes := d_contribuicoes d; d_beneficio := d_beneficio d;
  d_documentos := d_documentos d; d_inconsistencia_nomes := d_inconsistencia_nomes d;
  d_ocupacao := d_ocupacao d; d_elegibilidade := d_elegibilidade d
|}.

Definition set_cpf_valido (v : option bool) (d : dados) : dados := {|
  d_rg := d_rg d; d_certidao := d_certidao d; d_cnis := d_cnis d; d_pis := d_pis d;
  d_mei := d_mei d; d_nome := d_nome d; d_cpf := d_cpf d; d_cpf_valido := v;
  d_contribuicoes := d_contribuicoes d; d_beneficio := d_beneficio d;
  d_documentos := d_documentos d; d_inconsistencia_nomes := d_inconsistencia_nomes d;
  d_ocupacao := d_ocupacao d; d_elegibilidade := d_elegibilidade d
|}.

Definition set_contribuicoes (v : gmap str spec_float) (d : dados) : dados := {|
  d_rg := d_rg d; d_certidao := d_certidao d; d_cnis := d_cnis d; d_pis := d_pis d;
  d_mei := d_mei d; d_nome := d_nome d; d_cpf := d_cpf d; d_cpf_valido := d_cpf_valido d;
  d_contribuicoes := Some v; d_beneficio := d_beneficio d;
  d_documentos := d_documentos d; d_inconsistencia_nomes := d_inconsistencia_nomes d;
  d_ocupacao := d_ocupacao d; d_elegibilidade := d_elegibilidade d
|}.

Definition set_pis (v : str) (d : dados) : dados := {|
  d_rg := d_rg d; d_certidao := d_certidao d; d_cnis := d_cnis d; d_pis := Some v;
  d_mei := d_mei d; d_nome := d_nome d; d_cpf := d_cpf d; d_cpf_valido := d_cpf_valido d;
  d_contribuicoes := d_contribuicoes d; d_beneficio := d_beneficio d;
  d_documentos := d_documentos d; d_inconsistencia_nomes := d_inconsistencia_nomes d;
  d_ocupacao := d_ocupacao d; d_elegibilidade := d_elegibilidade d
|}.

Definition set_mei (v : str) (d : dados) : dados := {|
  d_rg := d_rg d; d_certidao := d_certidao d; d_cnis := d_cnis d; d_pis := d_pis d;
  d_mei := Some v; d_nome := d_nome d; d_cpf := d_cpf d; d_cpf_valido := d_cpf_valido d;
  d_contribuicoes := d_contribuicoes d; d_beneficio := d_beneficio d;
  d_documentos := d_documentos d; d_inconsistencia_nomes := d_inconsistencia_nomes d;
  d_ocupacao := d_ocupacao d; d_elegibilidade := d_elegibilidade d
|}.

(** The assignments after the loop: [ocupacao], [beneficio], [documentos]
    and [inconsistencia_nomes]. *)
Definition set_finais (ocupacao : option str) (beneficio : option spec_float)
    (documentos : list info_doc) (inconsistencia : str) (d : dados) : dados := {|
  d_rg := d_rg d; d_certidao := d_certidao d; d_cnis := d_cnis d; d_pis := d_pis d;
  d_mei := d_mei d; d_nome := d_nome d; d_cpf := d_cpf d; d_cpf_valido := d_cpf_valido d;
  d_contribuicoes := d_contribuicoes d; d_beneficio := beneficio;
  d_documentos := documentos; d_inconsistencia_nomes := Some inconsistencia;
  d_ocupacao := ocupacao; d_elegibilidade := d_elegibilidade d
|}.

(** The branches on [campo] in the loop: what is extracted from the text of
    a document and stored in [info_doc] and in [dados_aggregados]. *)
Definition extrair_campos (campo texto : str) (info : info_doc) (d : dados)
    : res (info_doc * dados) :=
  if bool_decide (campo ∈ [py "rg"; py "certidao"]) then
    let nome := extrair_nome texto in
    let info := info_set_nome nome info in
    let d := set_nome nome d in
    let cpf := extrair_cpf texto in
    let info := info_set_cpf cpf info in
    if negb (bool_decide (cpf = [])) then
      res_bind (validar_cpf cpf) (fun valido =>
        let info := info_set_cpf_valido valido info in
        let d := set_cpf cpf d in
        let d := set_cpf_valido (i_cpf_valido info) d in
        Ok (info, d))
    else Ok (info, d)
  else if bool_decide (campo = py "cnis") then
    let contribs := extrair_contribuicoes texto in
    let info := info_set_contribuicoes contribs info in
    let d := set_contribuicoes (contribs ∪ default ∅ (d_contribuicoes d)) d in
    Ok (info, d)
  else if bool_decide (campo = py "pis") then
    let pis := extrair_pis texto in
    Ok (info_set_pis pis info, set_pis pis d)
  else if bool_decide (campo = py "mei") then
    Ok (info_set_mei (py "Enviado") info, set_mei (py "Enviado") d)
  else Ok (info, d).

(** One turn of the loop over the fields of the form; the state of the
    loop is [dados_aggregados] and [documentos_processados]. *)
Definition processar_campo (form_files : gmap str file_storage) (campo : str)
    (st : dados * list info_doc) : io (dados * list info_doc) :=
  match form_files !! campo with
  | None => io_ret st
  | Some file =>
    if bool_decide (filename file = []) then io_ret st
    else
      let nome_arquivo := filename file in
      let caminho_temp := path_join (py "temp") nome_arquivo in
      do _ <- save file caminho_temp;
      do v <- io_read (fun disk => validar_arquivo disk caminho_temp);
      if negb v.1 then io_ret st
      else
        do texto <- io_read (fun disk => Ok (extrair_texto disk caminho_temp));
        let qualidade := verificar_qualidade_texto texto 50 in
        let info := info_nova (upper campo) nome_arquivo qualidade in
        do r <- io_lift (extrair_campos campo texto info st.1);
        let dados_aggregados := r.2 in
        do info <-
          (if truthy (d_cpf dados_aggregados) && truthy (d_nome dados_aggregados) then
             do novo_caminho <-
               renomear_arquivo caminho_temp (default [] (d_cpf dados_aggregados))
                 (default [] (d_nome dados_aggregados)) (upper campo);
             io_ret (info_set_arquivo_renomeado (ultimo_componente novo_caminho) r.1)
           else io_ret r.1);
        io_ret (dados_aggregados, st.2 ++ [info])
  end.

Definition campos : list str := [py "rg"; py "certidao"; py "cnis"; py "pis"; py "mei"].

(** The [for] loop, from the empty [dados_aggregados] and the empty
    [documentos_processados]. *)
Definition laco_campos (form_files : gmap str file_storage) : io (dados * list info_doc) :=
  io_foldM (processar_campo form_files) campos (dados_vazio, []).

(** The names compared for consistency: lowered, without the empty and
    the not-found ones. *)
Definition nomes_de (documentos_processados : list info_doc) : list str :=
  map (fun doc => lower (default [] (i_nome doc)))
    (List.filter
       (fun doc => truthy (i_nome doc)
                   && negb (bool_decide (i_nome doc = Some nao_encontrado)))
       documentos_processados).

Definition inconsistencia_nomes (documentos_processados : list info_doc) : str :=
  let nomes := nomes_de documentos_processados in
  if negb (bool_decide (nomes = []))
     && (1 <? size (list_to_set nomes : gset str))%nat
  then py "Inconsistência nos nomes extraídos. Verifique manualmente."
  else py "OK".

(** [processar_documentos] up to the call of [gerar_relatorio]: the final
    value of [dados_aggregados]. *)
Definition dados_aggregados (form_files : gmap str file_storage)
    (form_data : gmap str str) : io dados :=
  do st <- laco_campos form_files;
  let d := st.1 in
  let documentos_processados := st.2 in
  do beneficio <-
    io_lift (match d_contribuicoes d with
             | Some contribuicoes => calcular_beneficio contribuicoes salario_min_padrao
             | None => Ok None
             end);
  io_ret (set_finais (form_data !! py "ocupacao") beneficio documentos_processados
            (inconsistencia_nomes documentos_processados) d).

Definition processar_documentos (form_files : gmap str file_storage)
    (form_data : gmap str str) : io relatorio :=
  do d <- dados_aggregados form_files form_data;
  io_ret (gerar_relatorio d).

(** ** Views of a submission

    What the loop sees of an uploaded file: the path it is saved at, the
    verdict of [validar_arquivo] on it and the text [extrair_texto] reads
    back, all on a disk that holds the file just saved. *)

Definition caminho_temp_de (file : file_storage) : str :=
  path_join (py "temp") (filename file).

Definition disco_de (file : file_storage) : gmap str arquivo :=
  {[ caminho_temp_de file := stream file ]}.

Definition aceito (file : file_storage) : bool :=
  match validar_arquivo (disco_de file) (caminho_temp_de file) with
  | Ok (true, _) => true
  | _ => false
  end.

Definition texto_de (file : file_storage) : str :=
  extrair_texto (disco_de file) (caminho_temp_de file).

(** The document of a field that was supplied ([if file:]). *)
Definition enviado (form_files : gmap str file_storage) (campo : str) : option file_storage :=
  match form_files !! campo with
  | Some file => if bool_decide (filename file = []) then None else Some file
  | None => None
  end.

(** The exceptions [file.save] raises on an upload of the submission, on a
    disk that does not take it. *)
Definition erro_de_save (form_files : gmap str file_storage) (e : exn) : Prop :=
  exists campo file disk,
    campo ∈ campos /\ enviado form_files campo = Some file
    /\ fst (save file (caminho_temp_de file) disk) = Raise e.

(** The document of a field that was supplied and passed the quality gate:
    the documents the loop does not skip. *)
Definition processado (form_files : gmap str file_storage) (campo : str)
    : option file_storage :=
  match enviado form_files campo with
  | Some file => if aceito file then Some file else None
  | None => None
  end.

(** What one turn of the loop computes when its upload is written. *)
Definition passo (form_files : gmap str file_storage) (campo : str)
    (st : dados * list info_doc) : res (dados * list info_doc) :=
  match processado form_files campo with
  | None => Ok st
  | Some file =>
    let texto := texto_de file in
    let info :=
      info_nova (upper campo) (filename file) (verificar_qualidade_texto texto 50) in
    res_bind (extrair_campos campo texto info st.1) (fun r =>
      let info :=
        if truthy (d_cpf r.2) && truthy (d_nome r.2)
        then info_set_arquivo_renomeado
               (ultimo_componente
                  (novo_caminho_de (caminho_temp_de file) (default [] (d_cpf r.2))
                     (default [] (d_nome r.2)) (upper campo)))
               r.1
        else r.1 in
      Ok (r.2, st.2 ++ [info]))
  end.

Fixpoint res_foldM {A B} (f : B -> A -> res A) (l : list B) (a : A) : res A :=
  match l with
  | [] => Ok a
  | b :: t => res_bind (f b a) (res_foldM f t)
  end.

(** What the loop, and the pipeline, compute from a submission. *)
Definition laco_puro (form_files : gmap str file_storage) : res (dados * list info_doc) :=
  res_foldM (passo form_files) campos (dados_vazio, []).

Definition dados_puros (form_files : gmap str file_storage) (form_data : gmap str str)
    : res dados :=
  res_bind (laco_puro form_files) (fun st =>
    res_bind (match d_contribuicoes st.1 with
              | Some contribuicoes => calcular_beneficio contribuicoes salario_min_padrao
              | None => Ok None
              end) (fun beneficio =>
      Ok (set_finais (form_data !! py "ocupacao") beneficio st.2
            (inconsistencia_nomes st.2) st.1))).

(** The names in [documentos_processados], document by document: the
    extracted name for the identity document and the birth certificate,
    no name for the others. *)
Definition nome_no_documento (form_files : gmap str file_storage) (campo : str)
    : list (option str) :=
  match processado form_files campo with
  | Some file =>
    [if bool_decide (campo = py "rg" \/ campo = py "certidao")
     then Some (extrair_nome (texto_de file)) else None]
  | None => []
  end.

Definition nomes_nos_documentos (form_files : gmap str file_storage) : list (option str) :=
  concat (map (nome_no_documento form_files) campos).

(** The last name-bearing document the loop processes: the birth
    certificate when there is one, else the identity document. *)
Definition ultimo_com_nome (form_files : gmap str file_storage) : option file_storage :=
  match processado form_files (py "certidao") with
  | Some file => Some file
  | None => processado form_files (py "rg")
  end.

(** The first name-bearing document, in the order of the loop, whose text
    yields a tax ID. *)
Definition primeiro_com_cpf (form_files : gmap str file_storage) : option file_storage :=
  match processado form_files (py "rg") with
  | Some file =>
    if bool_decide (extrair_cpf (texto_de file) = nao_encontrado)
    then match processado form_files (py "certidao") with
         | Some file' =>
           if bool_decide (extrair_cpf (texto_de file') = nao_encontrado)
           then None else Some file'
         | None => None
         end
    else Some file
  | None =>
    match processado form_files (py "certidao") with
    | Some file' =>
      if bool_decide (extrair_cpf (texto_de file') = nao_encontrado)
      then None else Some file'
    | None => None
    end
  end.

(** ** The specification's wording, for comparison with the code *)

(** The weights [primeiro], [primeiro - 1], ... of [n] digits. *)
Definition pesos (primeiro : Z) (n : nat) : list Z :=
  map (fun i => (primeiro - Z.of_nat i)%Z) (seq 0 n).

Definition soma_ponderada (primeiro : Z) (ds : list Z) : Z :=
  foldr Z.add 0%Z (zip_with Z.mul ds (pesos primeiro (length ds))).

(** A check digit: the weighted sum modulo 11; 0 when the remainder is
    below 2, else 11 minus the remainder. *)
Definition digito_verificador (primeiro : Z) (ds : list Z) : Z :=
  let resto := (soma_ponderada primeiro ds mod 11)%Z in
  if (resto <? 2)%Z then 0%Z else (11 - resto)%Z.

(** The values of a run of digits, and the ASCII character of a digit. *)
Definition valores (cs : str) : list Z := map (fun c => Z.of_N (default 0%N (decimal c))) cs.

Definition char_de_digito (d : Z) : N := Z.to_N (48 + d).

Definition todos_iguais (cs : str) : bool := forallb (N.eqb (hd 0%N cs)) cs.

(** The two check digits of the first nine digits, as characters. *)
Definition digitos_esperados (cs : str) : str :=
  let d1 := digito_verificador 10 (valores (take 9 cs)) in
  let d2 := digito_verificador 11 (valores (take 9 cs) ++ [d1]) in
  [char_de_digito d1; char_de_digito d2].

(** The validator as the specification states it: rejected with fewer than
    11 digits or with all digits identical, else valid exactly when the
    last two digits are the two check digits. *)
Definition validar_cpf_enunciado (cpf : str) : bool :=
  let cs := so_digitos cpf in
  if (length cs <? 11)%nat || todos_iguais cs then false
  else bool_decide (drop (length cs - 2) cs = digitos_esperados cs).

(** The same with the guard of the code: rejected unless exactly 11 digits
    remain. *)
Definition validar_cpf_spec (cpf : str) : bool :=
  let cs := so_digitos cpf in
  if negb (length cs =? 11)%nat || todos_iguais cs then false
  else bool_decide (drop 9 cs = digitos_esperados cs).

(** The score as the specification adds it up: +2 for the contribution
    threshold, +1 for a valid tax ID, +1 when no required document is
    missing, +1 for the occupation CLT and +0.5 for MEI, Autônoma and
    Desempregada. *)
Definition pontos_spec (limiar_atingido cpf_ok nada_falta : bool) (ocupacao : option str) : Q :=
  (if limiar_atingido then 2 else 0)
  + (if cpf_ok then 1 else 0)
  + (if nada_falta then 1 else 0)
  + (if bool_decide (ocupacao = Some (py "CLT")) then 1
     else if bool_decide (ocupacao = Some (py "MEI") \/ ocupacao = Some (py "Autônoma")
                          \/ ocupacao = Some (py "Desempregada"))
     then 1 # 2 else 0).

(** The tier of a score: below 2, below 3, below 4, else. *)
Definition faixa_spec (score : Q) : str :=
  if Qlt_le_dec score 2 then py "Benefício Improvável"
  else if Qlt_le_dec score 3 then py "Pouco provável"
  else if Qlt_le_dec score 4 then py "Provável"
  else py "Muito provável".

(** The three facts the scorer reads in the record. *)
Definition limiar_atingido (d : dados) : bool :=
  match d_elegibilidade d with
  | Some e => pagou_12_meses e
  | None => false
  end.

Definition cpf_ok (d : dados) : bool := bool_decide (d_cpf_valido d = Some true).

Definition nada_falta (d : dados) : bool :=
  bool_decide (verificar_documentos_obrigatorios d = []).

(** A record for the examples: the threshold flag, the validity flag and
    whether the four base documents are recorded. *)
Definition dados_exemplo (pagou valido documentos : bool) : dados := {|
  d_rg := if documentos then Some (py "rg.pdf") else None;
  d_certidao := if documentos then Some (py "certidao.pdf") else None;
  d_cnis := if documentos then Some (py "cnis.pdf") else None;
  d_pis := if documentos then Some (py "PIS/PASEP: 123.45678.90-1") else None;
  d_mei := None; d_nome := None; d_cpf := None;
  d_cpf_valido := if valido then Some true else None;
  d_contribuicoes := None; d_beneficio := None; d_documentos := [];
  d_inconsistencia_nomes := None; d_ocupacao := None;
  d_elegibilidade :=
    if pagou
    then Some {| pagou_12_meses := true; qualidade_segurada := true; dentro_prazo := true;
                 mensagem := py "A cliente está apta a prosseguir." |}
    else None
|}.

(** The estimator as the specification states it: the filter tests the
    selected keys against the mapping that was passed. *)
Definition calcular_beneficio_enunciado (contribuicoes : gmap str spec_float)
    (salario_min : spec_float) : res (option spec_float) :=
  calcular_beneficio_em (Ok contribuicoes) contribuicoes salario_min.

(** Twelve months of one year, each with the same amount. *)
Definition doze_meses (valor : spec_float) : gmap str spec_float :=
  list_to_map
    (map (fun mes => (py "2023-" ++ mes, valor))
       [py "01"; py "02"; py "03"; py "04"; py "05"; py "06";
        py "07"; py "08"; py "09"; py "10"; py "11"; py "12"]).

(** Occurrences of a kind of word in a text: [w] occurs at position [i],
    and the first occurrence is the one at the least position. *)
Definition ocorre (P : str -> Prop) (texto : str) (i : nat) (w : str) : Prop :=
  P w /\ exists pre post, texto = pre ++ w ++ post /\ length pre = i.

Definition primeira (P : str -> Prop) (texto : str) (i : nat) (w : str) : Prop :=
  ocorre P texto i w /\ forall j w', ocorre P texto j w' -> (i <= j)%nat.

Definition so_de_digitos (w : str) : Prop := Forall (fun c => isdigit c = true) w.

(** The canonical punctuated tax ID: 3 digits, dot, 3 digits, dot, 3
    digits, dash, 2 digits. *)
Definition cpf_pontuado (w : str) : Prop :=
  exists a b c d,
    w = a ++ py "." ++ b ++ py "." ++ c ++ py "-" ++ d
    /\ length a = 3%nat /\ length b = 3%nat /\ length c = 3%nat /\ length d = 2%nat
    /\ so_de_digitos a /\ so_de_digitos b /\ so_de_digitos c /\ so_de_digitos d.

(** A bare run of 11 digits. *)
Definition onze_digitos (w : str) : Prop := length w = 11%nat /\ so_de_digitos w.

(** The canonical punctuation of 11 digits. *)
Definition formatar_cpf (g : str) : str :=
  take 3 g ++ py "." ++ take 3 (drop 3 g) ++ py "." ++ take 3 (drop 6 g) ++ py "-" ++ drop 9 g.

(** A pattern all of whose atoms have a fixed length, and the texts of the
    atoms in a match of it. *)
Definition exato (a : atom) : Prop := a_max a = Some (a_min a).

Definition casa (pat : list atom) (ms : list str) : Prop :=
  Forall2 (fun a m => length m = a_min a /\ forallb (a_class a) m = true) pat ms.

(** A float with two decimal places: the binary64 value nearest to a whole
    number of hundredths (or the infinity that rounds to itself). *)
Definition duas_casas (v : spec_float) : Prop :=
  v = S754_infinity false \/ v = float_zero
  \/ exists centavos : positive, v = float_of_ratio false centavos 100.

(** A float with the sign bit clear that is not NaN. *)
Definition float_positivo (x : spec_float) : Prop :=
  match x with
  | S754_zero s | S754_infinity s | S754_finite s _ _ => s = false
  | S754_nan => False
  end.

(** What an atom of a pattern can match. *)
Definition atom_ok (a : atom) (m : str) : Prop :=
  (a_min a <= length m)%nat
  /\ (forall n, a_max a = Some n -> (length m <= n)%nat)
  /\ forallb (a_class a) m = true.

(** An occurrence of the contribution pattern: a key [YYYY-MM] and a
    non-empty numeral of digits, dots and commas. *)
Definition forma_contrib (data_str valor_str : str) : Prop :=
  exists ano mes,
    data_str = ano ++ py "-" ++ mes
    /\ length ano = 4%nat /\ length mes = 2%nat
    /\ so_de_digitos ano /\ so_de_digitos mes
    /\ valor_str <> []
    /\ Forall (fun c => isdigit c = true \/ c = 46%N \/ c = 44%N) valor_str.

(** The required documents: the four base ones, and the self-employment
    proof exactly when the occupation is MEI. *)
Definition obrigatorios_de (ocupacao : option str) : list str :=
  [py "rg"; py "certidao"; py "cnis"; py "pis"]
  ++ (if bool_decide (ocupacao = Some (py "MEI")) then [py "mei"] else []).

(** The missing documents as the specification states them: the required
    ones minus those supplied, by declared type, whatever the quality gate
    says of them. *)
Definition faltantes_enunciado (form_files : gmap str file_storage) (ocupacao : option str)
    : list str :=
  map upper
    (List.filter (fun doc => negb (bool_decide (is_Some (enviado form_files doc))))
       (obrigatorios_de ocupacao)).

(** A candidate name: extracted into some processed document, not empty
    and not the not-found sentinel. *)
Definition candidato (documentos_processados : list info_doc) (n : str) : Prop :=
  exists doc, doc ∈ documentos_processados /\ i_nome doc = Some n
              /\ n <> [] /\ n <> nao_encontrado.

(** ** Summaries of the processed documents *)

(** What [info_doc] holds of a document whatever its type: the type, the
    name of the upload and the verdict of [verificar_qualidade_texto]. *)
Definition resumo (doc : info_doc) : str * str * str :=
  (i_tipo doc, i_arquivo_original doc, i_qualidade doc).

(** One summary for each field whose document the loop processes, in the
    order of the loop, each with the verdict "OK". *)
Definition resumo_do_campo (form_files : gmap str file_storage) (campo : str)
    : list (str * str * str) :=
  match processado form_files campo with
  | Some file => [(upper campo, filename file, py "OK")]
  | None => []
  end.

Definition resumos_esperados (form_files : gmap str file_storage) : list (str * str * str) :=
  concat (map (resumo_do_campo form_files) campos).

(** ** What a run reads from a submission *)

(** The contributions extracted from the contribution statement the loop
    processes; none when it processes no such statement. *)
Definition contribuicoes_lidas (form_files : gmap str file_storage) : gmap str spec_float :=
  match processado form_files (py "cnis") with
  | Some file => extrair_contribuicoes (texto_de file)
  | None => ∅
  end.

(** Whether the tax ID read from the last name-bearing document validates. *)
Definition cpf_valido_lido (form_files : gmap str file_storage) : bool :=
  match ultimo_com_nome form_files with
  | Some file => default false (resultado (validar_cpf (extrair_cpf (texto_de file))))
  | None => false
  end.

(** The missing documents every report lists: the three types whose key
    the loop never writes, the social-insurance card unless one was
    processed, and the self-employment proof for the occupation MEI unless
    one was processed. *)
Definition faltantes_relatados (form_files : gmap str file_storage) (ocupacao : option str)
    : list str :=
  [py "RG"; py "CERTIDAO"; py "CNIS"]
  ++ match processado form_files (py "pis") with Some _ => [] | None => [py "PIS"] end
  ++ (if bool_decide (ocupacao = Some (py "MEI"))
      then match processado form_files (py "mei") with Some _ => [] | None => [py "MEI"] end
      else []).

(** ** The score in whole points *)

(** The points of the score without the half point of the occupations MEI,
    Autônoma and Desempregada. *)
Definition pontos_inteiros (d : dados) (ocupacao : option str) : nat :=
  (if limiar_atingido d then 2 else 0)
  + (if cpf_ok d then 1 else 0)
  + (if nada_falta d then 1 else 0)
  + (if bool_decide (ocupacao = Some (py "CLT")) then 1 else 0).

(** ** The name-consistency verdict of a submission *)

(** A name that counts for the consistency check: neither empty nor the
    not-found sentinel. *)
Definition nome_conta (n : str) : bool :=
  negb (bool_decide (n = [])) && negb (bool_decide (n = nao_encontrado)).

(** The verdict read off the submission: an inconsistency needs an identity
    document and a birth certificate that both pass the gate and both yield
    a name that counts, the two names differing once lowered. *)
Definition inconsistencia_esperada (form_files : gmap str file_storage) : str :=
  match processado form_files (py "rg"), processado form_files (py "certidao") with
  | Some f1, Some f2 =>
    let n1 := extrair_nome (texto_de f1) in
    let n2 := extrair_nome (texto_de f2) in
    if nome_conta n1 && nome_conta n2 && negb (bool_decide (lower n1 = lower n2))
    then py "Inconsistência nos nomes extraídos. Verifique manualmente."
    else py "OK"
  | _, _ => py "OK"
  end.

(** ** The shape of a social-insurance number in a text *)

(** The label [PIS/PASEP], any run of colons and whitespace, and the number
    as 3 digits, dot, 5 digits, dot, 2 digits, dash, 1 digit. *)
Definition pis_formatado (w : str) : Prop :=
  exists sep a b c d,
    w = py "PIS/PASEP" ++ sep ++ a ++ py "." ++ b ++ py "." ++ c ++ py "-" ++ d
    /\ Forall (fun ch => ch = 58%N \/ isspace ch = true) sep
    /\ length a = 3%nat /\ length b = 5%nat /\ length c = 2%nat /\ length d = 1%nat
    /\ so_de_digitos a /\ so_de_digitos b /\ so_de_digitos c /\ so_de_digitos d.

(** ** The names the documents are renamed to *)

(** The file name a document of field [campo], saved from the upload
    [file], is renamed to when the name and the tax ID in force are those
    read from [fonte]: none when that name is empty. *)
Definition nome_de_arquivo_esperado (campo : str) (fonte file : file_storage) : option str :=
  let nome := extrair_nome (texto_de fonte) in
  let cpf := extrair_cpf (texto_de fonte) in
  if bool_decide (nome = []) then None
  else Some (so_digitos cpf ++ py "_" ++ take 20 (so_alfanumericos (lower nome)) ++ py "_"
             ++ lower (upper campo) ++ extensao_de (caminho_temp_de file)).

(** The renamed file names of the processed documents of the fields [l], in
    order, [fonte] being the last name-bearing document processed before
    them: a name-bearing document is renamed after itself, any other after
    the last name-bearing document processed so far. *)
Fixpoint renomeados_de (form_files : gmap str file_storage) (l : list str)
    (fonte : option file_storage) : list (option str) :=
  match l with
  | [] => []
  | campo :: t =>
    match processado form_files campo with
    | Some file =>
      let fonte' :=
        if bool_decide (campo ∈ [py "rg"; py "certidao"]) then Some file else fonte in
      (fonte' ≫= fun g => nome_de_arquivo_esperado campo g file)
        :: renomeados_de form_files t fonte'
    | None => renomeados_de form_files t fonte
    end
  end.

(** ** The form route ([upload_form_post]) *)

(** The report passed to [calcular_aprovacao] in place of the record: the
    scorer and [verificar_documentos_obrigatorios] read the keys
    [elegibilidade], [cpf_valido], [ocupacao] and the five document keys,
    which the report holds under the same names; the report has no key
    [contribuicoes], [beneficio], [documentos] or [inconsistencia_nomes]. *)
Definition relatorio_como_dados (r : relatorio) : dados := {|
  d_rg := r_rg r; d_certidao := r_certidao r; d_cnis := r_cnis r; d_pis := r_pis r;
  d_mei := r_mei r; d_nome := r_nome r; d_cpf := r_cpf r; d_cpf_valido := r_cpf_valido r;
  d_contribuicoes := None; d_beneficio := None; d_documentos := [];
  d_inconsistencia_nomes := None; d_ocupacao := r_ocupacao r;
  d_elegibilidade := Some (r_elegibilidade r)
|}.

(** [relatorio["aprovacao"] = ...; relatorio["ocupacao"] = ocupacao] *)
Definition set_aprovacao (aprovacao : str) (ocupacao : option str) (r : relatorio)
    : relatorio := {|
  r_rg := r_rg r; r_certidao := r_certidao r; r_cnis := r_cnis r; r_pis := r_pis r;
  r_mei := r_mei r; r_nome := r_nome r; r_cpf := r_cpf r; r_cpf_valido := r_cpf_valido r;
  r_beneficio_estimado := r_beneficio_estimado r; r_elegibilidade := r_elegibilidade r;
  r_documentos_processados := r_documentos_processados r;
  r_informacoes_incompletas := r_informacoes_incompletas r;
  r_ocupacao := ocupacao; r_aprovacao := aprovacao
|}.

(** The report [upload_form_post] renders: the report of the pipeline,
    scored again from the report itself. The HTML made of it and the file
    the HTML is written to are left out. *)
Definition upload_form_post_relatorio (form_files : gmap str file_storage)
    (form_data : gmap str str) : io relatorio :=
  let ocupacao := form_data !! py "ocupacao" in
  do relatorio <- processar_documentos form_files form_data;
  io_ret (set_aprovacao (calcular_aprovacao (relatorio_como_dados relatorio) ocupacao)
            ocupacao relatorio).

(** ** Numerals of contributions *)

(** A numeral of digits and thousands dots. *)
Definition digitos_e_pontos (s : str) : Prop :=
  Forall (fun c => isdigit c = true \/ c = 46%N) s.

(** The float of the decimal numeral with the digits [ds], the last [k] of
    them after the decimal point. *)
Definition float_de_decimal (ds : str) (k : nat) : spec_float :=
  match default 0%N (digits_value 0 ds) with
  | N0 => float_zero
  | Npos p => float_of_ratio false p (Z.to_pos (10 ^ Z.of_nat k))
  end.

(** ** Submissions for the examples *)

(** A PDF of one page with the given text, and its upload. *)
Definition pdf_com_texto (texto : str) : arquivo :=
  {| tamanho := 2048; paginas := Some [Some texto] |}.

Definition upload (nome_arquivo : string) (texto : str) : file_storage :=
  {| filename := py nome_arquivo; stream := pdf_com_texto texto |}.

(** Filling, so that a text passes the minimum length of the gate. *)
Definition enchimento : str :=
  py " Documento emitido para fins de conferencia cadastral junto ao orgao.".

Definition form_ocupacao (ocupacao : string) : gmap str str :=
  {[ py "ocupacao" := py ocupacao ]}.

(** An identity document and a birth certificate with two different tax
    IDs. *)
Definition envio_dois_cpfs : gmap str file_storage :=
  <[py "rg" := upload "rg.pdf" (py "Nome: Maria Silva. CPF: 111.444.777-35." ++ enchimento)]>
    (<[py "certidao" :=
         upload "certidao.pdf" (py "Nome: Maria Silva. CPF: 529.982.247-25." ++ enchimento)]> ∅).

(** An identity document with a tax ID and a birth certificate without. *)
Definition envio_certidao_sem_cpf : gmap str file_storage :=
  <[py "rg" := upload "rg.pdf" (py "Nome: Maria Silva. CPF: 111.444.777-35." ++ enchimento)]>
    (<[py "certidao" :=
         upload "certidao.pdf" (py "Nome: Maria Silva. Registro civil." ++ enchimento)]> ∅).

(** Only the social-insurance card, with too little text for the gate. *)
Definition envio_pis_ilegivel : gmap str file_storage :=
  <[py "pis" := upload "pis.pdf" (py "PIS/PASEP: 123.45678.90-1")]> ∅.

(** The four base documents, all accepted by the gate; the contribution
    statement lists no month. *)
Definition envio_completo : gmap str file_storage :=
  <[py "rg" := upload "rg.pdf" (py "Nome: Maria Silva. CPF: 111.444.777-35." ++ enchimento)]>
    (<[py "certidao" :=
         upload "certidao.pdf" (py "Nome: Maria Silva. Registro civil." ++ enchimento)]>
       (<[py "cnis" := upload "cnis.pdf" (py "Extrato previdenciario." ++ enchimento)]>
          (<[py "pis" := upload "pis.pdf" (py "PIS/PASEP: 123.45678.90-1." ++ enchimento)]> ∅))).

(** A processed document that carries a name. *)
Definition documento_com_nome (tipo nome : string) : info_doc :=
  info_set_nome (py nome) (info_nova (py tipo) (py "documento.pdf") (py "OK")).

(** A contribution statement that lists one month. *)
Definition envio_com_contribuicao : gmap str file_storage :=
  <[py "cnis" := upload "cnis.pdf" (py "2023-01: 1.500,00" ++ enchimento)]> ∅.

(** An identity document and a birth certificate with different names. *)
Definition envio_nomes_diferentes : gmap str file_storage :=
  <[py "rg" := upload "rg.pdf" (py "Nome: Maria Silva. CPF: 111.444.777-35." ++ enchimento)]>
    (<[py "certidao" :=
         upload "certidao.pdf" (py "Nome: Ana Souza. Registro civil." ++ enchimento)]> ∅).

(** A PDF of three pages, and one whose second page cannot be read. *)
Definition pdf_tres_paginas : arquivo :=
  {| tamanho := 2048; paginas := Some [Some (py "Um"); Some (py "Dois"); Some (py "Tres")] |}.

Definition pdf_pagina_ilegivel : list (option str) :=
  [Some (py "Um"); None; Some (py "Tres")].

(** An identity document uploaded under a file name with a directory. *)
Definition envio_subpasta : gmap str file_storage :=
  <[py "rg" := upload "sub/rg.pdf" (py "Nome: Maria Silva. CPF: 111.444.777-35." ++ enchimento)]>
    ∅.

End Model.

(** The database with nothing outside ASCII; every statement below holds
    for any database, this one runs the code on ASCII inputs. *)
Definition ascii_db : UnicodeDB := {|
  uni_decimal := fun _ => None;
  uni_isspace := fun _ => false;
  uni_tolower := fun c => c;
  uni_casefix := fun _ => false;
  uni_lower := fun s => s;
  uni_title := fun s => s
|}.

(** ** A file system for the examples

    A tree of directories that holds regular files, with one user and no
    links. The directories are fixed; files are created, overwritten and
    moved in them. A path is resolved component by component, from the root
    (the directory with no component) when it begins with a slash and from
    the working directory otherwise, and every component that another one
    follows must be a directory. The exception of a failed operation is
    the one Linux gives for a missing directory, a file used as a directory
    and a directory opened for writing, and one of these three where Linux
    reports another error (a path that ends in a slash or a dot); renaming
    a directory is refused. *)
Record disco_posix := {
  (** the directories, each by its components from the root *)
  pastas : gset (list str);
  (** the regular files *)
  ficheiros : gmap (list str) arquivo;
  (** the working directory *)
  cwd : list str
}.

(** The components of a path, [p.split("/")]. *)
Fixpoint componentes (p : str) (atual : str) : list str :=
  match p with
  | [] => [atual]
  | c :: t => if N.eqb c 47 then atual :: componentes t [] else componentes t (atual ++ [c])
  end.

(** The walk along the components: where it arrives ([inl]), or the place
    it cannot leave because it is no directory ([inr]). *)
Fixpoint andar (dirs : gset (list str)) (onde : list str) (comps : list str)
    : list str + list str :=
  match comps with
  | [] => inl onde
  | c :: t =>
    if bool_decide (onde ∈ dirs) then
      if bool_decide (c = []) || bool_decide (c = py ".") then andar dirs onde t
      else if bool_decide (c = py "..") then andar dirs (removelast onde) t
      else andar dirs (onde ++ [c]) t
    else inr onde
  end.

Definition resolver (d : disco_posix) (p : str) : res (list str) :=
  match p with
  | [] => Raise (FileNotFoundError p)
  | c :: _ =>
    match andar (pastas d) (if N.eqb c 47 then [] else cwd d) (componentes p []) with
    | inl k => Ok k
    | inr onde =>
      Raise (match ficheiros d !! onde with
             | Some _ => NotADirectoryError p
             | None => FileNotFoundError p
             end)
    end
  end.

(** What is observed at a path: the file, or for a directory its size and
    no PDF. *)
Definition posix_lookup : Lookup str arquivo disco_posix := fun p d =>
  match resolver d p with
  | Ok k =>
    if bool_decide (k ∈ pastas d) then Some {| tamanho := 4096; paginas := None |}
    else ficheiros d !! k
  | Raise _ => None
  end.

(** [open(dst, "wb")] and the write. *)
Definition posix_save (dst : str) (a : arquivo) (d : disco_posix) : res unit * disco_posix :=
  match resolver d dst with
  | Ok k =>
    if bool_decide (k ∈ pastas d) then (Raise (IsADirectoryError dst), d)
    else (Ok tt, {| pastas := pastas d; ficheiros := <[k := a]> (ficheiros d); cwd := cwd d |})
  | Raise e => (Raise e, d)
  end.

(** [os.rename(src, dst)] of a regular file; directories are not moved. *)
Definition posix_rename (src dst : str) (d : disco_posix) : res unit * disco_posix :=
  match resolver d src with
  | Ok ks =>
    if bool_decide (ks ∈ pastas d) then (Raise (PermissionError src), d)
    else
      match ficheiros d !! ks with
      | Some a =>
        match resolver d dst with
        | Ok kd =>
          if bool_decide (kd ∈ pastas d) then (Raise (IsADirectoryError dst), d)
          else (Ok tt, {| pastas := pastas d;
                          ficheiros := <[kd := a]> (delete ks (ficheiros d));
                          cwd := cwd d |})
        | Raise e => (Raise e, d)
        end
      | None => (Raise (FileNotFoundError src), d)
      end
  | Raise e => (Raise e, d)
  end.

Definition posix : FileSystem.
Proof.
  refine {| disco := disco_posix; fs_lookup := posix_lookup;
            fs_save := posix_save; fs_rename := posix_rename |}.
  - intros dst a d d'. change (d' !! dst) with (posix_lookup dst d').
    unfold posix_save, posix_lookup, resolver.
    destruct dst as [| c t]; [discriminate |].
    destruct (andar _ _ _) as [k | onde] eqn:Hw; [| discriminate].
    destruct (bool_decide (k ∈ pastas d)) eqn:Hk; [discriminate |].
    intros [= <-]. cbn [pastas ficheiros cwd]. rewrite Hw, Hk. apply lookup_insert_eq.
  - intros src dst d d'. change (d' !! dst) with (posix_lookup dst d').
    change (d !! src) with (posix_lookup src d). unfold posix_rename, posix_lookup.
    destruct (resolver d src) as [ks | e] eqn:Hs; [| discriminate].
    destruct (bool_decide (ks ∈ pastas d)) eqn:Hks; [discriminate |].
    destruct (ficheiros d !! ks) as [a |] eqn:Ha; [| discriminate].
    unfold resolver.
    destruct dst as [| c t]; [discriminate |].
    destruct (andar _ _ _) as [kd | onde] eqn:Hw; [| discriminate].
    destruct (bool_decide (kd ∈ pastas d)) eqn:Hkd; [discriminate |].
    intros [= <-]. cbn [pastas ficheiros cwd]. rewrite Hw, Hkd.
    apply lookup_insert_eq.
  - intros src dst d e d'. unfold posix_rename.
    destruct (resolver d src) as [ks | e1]; [| intros [= _ <-]; reflexivity].
    destruct (bool_decide (ks ∈ pastas d)); [intros [= _ <-]; reflexivity |].
    destruct (ficheiros d !! ks) as [a |]; [| intros [= _ <-]; reflexivity].
    destruct (resolver d dst) as [kd | e2]; [| intros [= _ <-]; reflexivity].
    destruct (bool_decide (kd ∈ pastas d)); [intros [= _ <-]; reflexivity | discriminate].
Defined.

(** The disk of a fresh deployment in [/srv/app]: the directories [temp]
    and [reports], which the module creates when it is loaded, and no
    file. *)
Definition disco_inicial : @disco posix := {|
  pastas := {[ []; [py "srv"]; [py "srv"; py "app"];
               [py "srv"; py "app"; py "temp"]; [py "srv"; py "app"; py "reports"] ]};
  ficheiros := ∅;
  cwd := [py "srv"; py "app"]
|}.

(** The same with a directory [sub] in [temp]. *)
Definition disco_com_sub : @disco posix := {|
  pastas := pastas disco_inicial ∪ {[ [py "srv"; py "app"; py "temp"; py "sub"] ]};
  ficheiros := ∅;
  cwd := [py "srv"; py "app"]
|}.

(** The fresh disk with one file, [temp/rg.pdf]. *)
Definition disco_com_rg : @disco posix := {|
  pastas := pastas disco_inicial;
  ficheiros := {[ [py "srv"; py "app"; py "temp"; py "rg.pdf"] := pdf_com_texto enchimento ]};
  cwd := [py "srv"; py "app"]
|}.



(** * Properties *)

Section Properties.
Context `{UnicodeDB}.
Context {FS : FileSystem}.

(** ** Tax-ID validation *)

Lemma decimal_char_de_digito (d : Z) :
  (0 <= d <= 9)%Z -> decimal (char_de_digito d) = Some (Z.to_N d).
Proof.
  intros Hd. unfold decimal, char_de_digito, is_ascii, ascii_isdigit.
  assert (Hlt : (Z.to_N (48 + d) <? 128)%N = true) by (apply N.ltb_lt; lia).
  rewrite Hlt.
  assert (Hdig : ((48 <=? Z.to_N (48 + d))%N && (Z.to_N (48 + d) <=? 57)%N) = true).
  { apply andb_true_iff; split; apply N.leb_le; lia. }
  rewrite Hdig. f_equal. lia.
Qed.

Lemma str_of_Z_digito (d : Z) :
  (0 <= d <= 9)%Z -> str_of_Z d = [char_de_digito d].
Proof.
  intros Hd.
  assert (Hc : (d = 0 \/ d = 1 \/ d = 2 \/ d = 3 \/ d = 4 \/ d = 5 \/ d = 6 \/ d = 7
               \/ d = 8 \/ d = 9)%Z) by lia.
  repeat (destruct Hc as [-> | Hc]; [reflexivity |]). subst d. reflexivity.
Qed.

Lemma digito_verificador_range (primeiro : Z) (ds : list Z) :
  (0 <= digito_verificador primeiro ds <= 9)%Z.
Proof.
  unfold digito_verificador.
  pose proof (Z.mod_pos_bound (soma_ponderada primeiro ds) 11 ltac:(lia)) as Hm.
  destruct (Z.ltb_spec (soma_ponderada primeiro ds mod 11) 2); lia.
Qed.

Lemma pesos_S (primeiro : Z) (n : nat) :
  pesos primeiro (S n) = primeiro :: pesos (primeiro - 1) n.
Proof.
  unfold pesos. simpl. f_equal; [lia |].
  rewrite <- seq_shift, map_map. apply map_ext. intros i. lia.
Qed.

Lemma soma_ponderada_cons (primeiro d : Z) (ds : list Z) :
  soma_ponderada primeiro (d :: ds) = (d * primeiro + soma_ponderada (primeiro - 1) ds)%Z.
Proof. unfold soma_ponderada. simpl length. rewrite pesos_S. reflexivity. Qed.

Lemma soma_ponderada_nil (primeiro : Z) : soma_ponderada primeiro [] = 0%Z.
Proof. reflexivity. Qed.

Lemma isdigit_decimal (c : N) :
  isdigit c = true -> exists d, decimal c = Some d.
Proof.
  unfold isdigit. intros Hc. apply bool_decide_eq_true in Hc.
  destruct Hc as [d Hd]. exists d. exact Hd.
Qed.

Lemma calcular_digito_loop_ok (cs : str) (total peso : Z) :
  Forall (fun c => isdigit c = true) cs ->
  calcular_digito_loop cs total peso = Ok (total + soma_ponderada peso (valores cs))%Z.
Proof.
  intros Hcs. revert total peso.
  induction Hcs as [| c cs Hc _ IH]; intros total peso.
  - simpl. rewrite soma_ponderada_nil. f_equal. lia.
  - destruct (isdigit_decimal c Hc) as [d Hd].
    cbn [calcular_digito_loop]. unfold int_of_char. rewrite Hd.
    cbn [res_bind]. rewrite IH.
    change (valores (c :: cs)) with (Z.of_N (default 0%N (decimal c)) :: valores cs).
    rewrite soma_ponderada_cons, Hd.
    change (default 0%N (Some d)) with d. f_equal. lia.
Qed.

Lemma calcular_digito_ok (cs : str) (peso : Z) :
  Forall (fun c => isdigit c = true) cs ->
  calcular_digito cs peso = Ok [char_de_digito (digito_verificador peso (valores cs))].
Proof.
  intros Hcs. unfold calcular_digito.
  rewrite (calcular_digito_loop_ok cs 0 peso Hcs). cbn [res_bind].
  rewrite Z.add_0_l. unfold digito_verificador.
  pose proof (Z.mod_pos_bound (soma_ponderada peso (valores cs)) 11 ltac:(lia)) as Hm.
  destruct (Z.ltb_spec (soma_ponderada peso (valores cs) mod 11) 2) as [Hlt | Hge].
  - reflexivity.
  - rewrite str_of_Z_digito by lia. reflexivity.
Qed.

Lemma so_digitos_Forall (s : str) : Forall (fun c => isdigit c = true) (so_digitos s).
Proof.
  unfold so_digitos. apply List.Forall_forall. intros c Hc.
  apply filter_In in Hc. tauto.
Qed.

Lemma valores_app (a b : str) : valores (a ++ b) = valores a ++ valores b.
Proof. unfold valores. apply map_app. Qed.

Lemma valores_char_de_digito (d : Z) :
  (0 <= d <= 9)%Z -> valores [char_de_digito d] = [d].
Proof.
  intros Hd. unfold valores. simpl. rewrite decimal_char_de_digito by exact Hd.
  simpl. f_equal. lia.
Qed.

Lemma isdigit_char_de_digito (d : Z) :
  (0 <= d <= 9)%Z -> isdigit (char_de_digito d) = true.
Proof.
  intros Hd. unfold isdigit. apply bool_decide_eq_true.
  rewrite decimal_char_de_digito by exact Hd. eexists. reflexivity.
Qed.

Lemma todos_iguais_replicate (cs : str) :
  length cs = 11%nat ->
  bool_decide (cs = replicate 11 (hd 0%N cs)) = todos_iguais cs.
Proof.
  intros Hlen. unfold todos_iguais.
  do 12 (destruct cs as [| ? cs]; try discriminate Hlen).
  simpl hd. apply eq_true_iff_eq. rewrite bool_decide_eq_true. simpl.
  rewrite !andb_true_iff, !N.eqb_eq. split.
  - intros Heq. injection Heq as <- <- <- <- <- <- <- <- <- <-. tauto.
  - intros (_ & <- & <- & <- & <- & <- & <- & <- & <- & <- & <- & _). reflexivity.
Qed.

(** The code computes the specification's function with the guard on
    exactly 11 digits, and never raises. *)
Lemma validar_cpf_is_spec (cpf : str) : validar_cpf cpf = Ok (validar_cpf_spec cpf).
Proof.
  unfold validar_cpf, validar_cpf_spec.
  pose proof (so_digitos_Forall cpf) as Hdig.
  set (cs := so_digitos cpf) in *.
  destruct (Nat.eqb_spec (length cs) 11) as [Hlen | Hlen]; cbn [negb orb]; [| reflexivity].
  rewrite (todos_iguais_replicate cs Hlen).
  destruct (todos_iguais cs); [reflexivity |].
  assert (H9 : Forall (fun c => isdigit c = true) (take 9 cs)) by (apply Forall_take; exact Hdig).
  rewrite (calcular_digito_ok (take 9 cs) 10 H9). cbn [res_bind].
  pose proof (digito_verificador_range 10 (valores (take 9 cs))) as Hr1.
  rewrite calcular_digito_ok.
  2:{ apply Forall_app; split; [exact H9 |]. constructor; [| constructor].
      apply isdigit_char_de_digito. exact Hr1. }
  cbn [res_bind]. rewrite valores_app, valores_char_de_digito by exact Hr1.
  rewrite Hlen. reflexivity.
Qed.

Lemma validar_cpf_spec_length (cpf : str) :
  length (so_digitos cpf) <> 11%nat -> validar_cpf_spec cpf = false.
Proof.
  intros Hlen. unfold validar_cpf_spec.
  destruct (Nat.eqb_spec (length (so_digitos cpf)) 11); [contradiction | reflexivity].
Qed.

Lemma validar_cpf_spec_true (cpf : str) :
  validar_cpf_spec cpf = true ->
  length (so_digitos cpf) = 11%nat /\ drop 9 (so_digitos cpf) = digitos_esperados (so_digitos cpf).
Proof.
  unfold validar_cpf_spec.
  destruct (Nat.eqb_spec (length (so_digitos cpf)) 11) as [Hlen | Hlen]; cbn [negb orb];
    [| discriminate].
  destruct (todos_iguais (so_digitos cpf)); [discriminate |].
  intros Hd. apply bool_decide_eq_true in Hd. split; assumption.
Qed.

Lemma validar_cpf_flip (cpf cpf' : str) (i : nat) (c : N) :
  validar_cpf cpf = Ok true ->
  i = 9%nat \/ i = 10%nat ->
  so_digitos cpf !! i <> Some c ->
  so_digitos cpf' = <[i := c]> (so_digitos cpf) ->
  validar_cpf cpf' = Ok false.
Proof.
  intros Hv Hi Hc Hcpf'.
  rewrite validar_cpf_is_spec in Hv. injection Hv as Hv.
  apply validar_cpf_spec_true in Hv. destruct Hv as [Hlen Hdrop].
  rewrite validar_cpf_is_spec. f_equal.
  unfold validar_cpf_spec. rewrite Hcpf'.
  set (cs := so_digitos cpf) in *.
  rewrite length_insert, Hlen. cbn [Nat.eqb negb orb].
  destruct (todos_iguais (<[i := c]> cs)); [reflexivity |].
  apply bool_decide_eq_false. intros Heq.
  assert (Htake : take 9 (<[i := c]> cs) = take 9 cs).
  { rewrite take_insert. destruct (decide (i < 9)%nat); [| reflexivity].
    destruct Hi; subst i; lia. }
  unfold digitos_esperados in Heq, Hdrop. rewrite Htake in Heq.
  rewrite <- Hdrop in Heq.
  apply Hc.
  assert (Hi' : (<[i := c]> cs) !! i = cs !! i).
  { transitivity (drop 9 (<[i := c]> cs) !! (i - 9)%nat).
    - rewrite lookup_drop. f_equal. destruct Hi; subst i; lia.
    - rewrite Heq, lookup_drop. f_equal. destruct Hi; subst i; lia. }
  rewrite <- Hi'. apply list_lookup_insert_eq. destruct Hi; subst i; lia.
Qed.

(** C3 (as amended). The validator strips the non-digits and never raises;
    it answers false unless exactly 11 digits remain and they are not all
    identical, and then true exactly when the last two digits are check
    digit 1 (weights 10 down to 2 over the first 9 digits, modulo 11, 0 when
    the remainder is below 2, else 11 minus the remainder) and check digit 2
    (the same over the first 9 digits and check digit 1, weights 11 down to
    2). Eleven identical digits are rejected, and changing either check
    digit of a valid ID makes it invalid. *)
Theorem validar_cpf_checksum :
  (forall cpf, validar_cpf cpf = Ok (validar_cpf_spec cpf))
  /\ (forall cpf c, so_digitos cpf = replicate 11 c -> validar_cpf cpf = Ok false)
  /\ (forall cpf cpf' i c,
        validar_cpf cpf = Ok true ->
        i = 9%nat \/ i = 10%nat ->
        so_digitos cpf !! i <> Some c ->
        so_digitos cpf' = <[i := c]> (so_digitos cpf) ->
        validar_cpf cpf' = Ok false).
Proof.
  split; [exact validar_cpf_is_spec |]. split; [| exact validar_cpf_flip].
  intros cpf c Hrep. rewrite validar_cpf_is_spec. f_equal.
  unfold validar_cpf_spec. rewrite Hrep.
  replace (todos_iguais (replicate 11 c)) with true; [reflexivity |].
  unfold todos_iguais. simpl. rewrite N.eqb_refl. reflexivity.
Qed.

(** ** Regular expressions *)

Lemma greedy_exactly {R} (p : N -> bool) (n : nat) (s : str) (k : str -> str -> option R) :
  greedy p n (Some n) s k
  = if (n <=? length s)%nat && forallb p (take n s) then k (take n s) (drop n s) else None.
Proof.
  revert s k. induction n as [| n IH]; intros s k.
  - destruct s as [| c t]; cbn.
    + reflexivity.
    + rewrite andb_false_r. reflexivity.
  - destruct s as [| c t]; [reflexivity |].
    cbn [greedy Nat.pred fmap option_fmap option_map].
    replace (bool_decide (Some (S n) = Some 0%nat)) with false
      by (symmetry; apply bool_decide_eq_false; discriminate).
    cbn [negb]. rewrite andb_true_r.
    destruct (p c) eqn:Hp.
    + rewrite IH. cbn [length take drop forallb Nat.leb]. rewrite Hp. cbn [andb].
      destruct ((n <=? length t)%nat && forallb p (take n t)); [| reflexivity].
      destruct (k (c :: take n t) (drop n t)); reflexivity.
    + cbn [length take drop forallb Nat.leb]. rewrite Hp, andb_false_r. reflexivity.
Qed.

Lemma concat_cons_app (m : str) (ms : list str) (r : str) :
  concat (m :: ms) ++ r = m ++ (concat ms ++ r).
Proof. cbn [concat]. rewrite <- app_assoc. reflexivity. Qed.

Lemma match_seq_exact (pat : list atom) (s : str) (ms : list str) (r : str) :
  Forall exato pat ->
  match_seq pat s = Some (ms, r) <-> s = concat ms ++ r /\ casa pat ms.
Proof.
  intros Hpat. revert s ms r.
  induction Hpat as [| a pat Ha _ IH]; intros s ms r.
  - cbn. split.
    + intros [= <- <-]. split; [reflexivity | constructor].
    + intros [-> Hc]. inversion Hc; subst. reflexivity.
  - cbn [match_seq]. rewrite Ha, greedy_exactly.
    destruct ((a_min a <=? length s)%nat && forallb (a_class a) (take (a_min a) s)) eqn:Hc.
    + apply andb_true_iff in Hc. destruct Hc as [Hlen Hall].
      apply Nat.leb_le in Hlen.
      destruct (match_seq pat (drop (a_min a) s)) as [[ms' r'] |] eqn:Hm.
      * pose proof Hm as Hm0. apply IH in Hm. destruct Hm as [Hs' Hc'].
        split.
        -- intros [= <- <-]. split.
           ++ rewrite concat_cons_app, <- Hs'. symmetry. apply take_drop.
           ++ constructor; [| exact Hc']. split; [| exact Hall].
              rewrite length_take. lia.
        -- intros [Hs Hcasa]. inversion Hcasa as [| a' m pat' ms'' [Hm1 Hm2] Hrest]; subst.
           rewrite concat_cons_app in Hm0 |- *.
           rewrite drop_app_length' in Hm0 by lia.
           rewrite take_app_length' by lia.
           assert (Hm' : match_seq pat (concat ms'' ++ r) = Some (ms'', r)).
           { apply IH. split; [reflexivity | exact Hrest]. }
           rewrite Hm' in Hm0. injection Hm0 as <- <-. reflexivity.
      * split; [discriminate |].
        intros [Hs Hcasa]. inversion Hcasa as [| a' m pat' ms'' [Hm1 Hm2] Hrest]; subst.
        rewrite concat_cons_app in Hm.
        rewrite drop_app_length' in Hm by lia.
        assert (Hm' : match_seq pat (concat ms'' ++ r) = Some (ms'', r)).
        { apply IH. split; [reflexivity | exact Hrest]. }
        congruence.
    + split; [discriminate |].
      intros [Hs Hcasa]. inversion Hcasa as [| a' m pat' ms'' [Hm1 Hm2] Hrest]; subst.
      rewrite concat_cons_app in Hc.
      rewrite take_app_length' in Hc by lia.
      rewrite Hm2, andb_true_r in Hc. apply Nat.leb_gt in Hc.
      rewrite length_app in Hc. lia.
Qed.

(** [re.search] returns the match at the least position that has one. *)
Lemma re_search_Some (pat : list atom) (s : str) (ms : list str) :
  re_search pat s = Some ms <->
  exists pre suf r,
    s = pre ++ suf /\ match_seq pat suf = Some (ms, r)
    /\ forall pre' suf', s = pre' ++ suf' -> (length pre' < length pre)%nat ->
                         match_seq pat suf' = None.
Proof.
  revert ms. induction s as [| c t IH]; intros ms.
  - cbn [re_search]. split.
    + destruct (match_seq pat []) as [[ms' r] |] eqn:Hm; [| discriminate].
      intros [= <-]. exists [], [], r. split; [reflexivity |]. split; [exact Hm |].
      intros pre' suf' _ Hlt. cbn in Hlt. lia.
    + intros (pre & suf & r & Hs & Hm & _).
      symmetry in Hs. apply app_eq_nil in Hs. destruct Hs as [-> ->].
      rewrite Hm. reflexivity.
  - cbn [re_search]. destruct (match_seq pat (c :: t)) as [[ms' r'] |] eqn:Hm.
    + split.
      * intros [= <-]. exists [], (c :: t), r'. split; [reflexivity |].
        split; [exact Hm |]. intros pre' suf' _ Hlt. cbn in Hlt. lia.
      * intros (pre & suf & r & Hs & Hm' & Hmin).
        destruct pre as [| c' pre].
        -- cbn in Hs. subst suf. congruence.
        -- specialize (Hmin [] (c :: t) eq_refl ltac:(cbn; lia)). congruence.
    + rewrite IH. split.
      * intros (pre & suf & r & Hs & Hm' & Hmin).
        exists (c :: pre), suf, r. split; [cbn; congruence |]. split; [exact Hm' |].
        intros pre' suf' Hs' Hlt. destruct pre' as [| c' pre'].
        -- cbn in Hs'. subst suf'. exact Hm.
        -- cbn in Hs'. injection Hs' as <- Hs'. apply (Hmin pre' suf' Hs'). cbn in Hlt. lia.
      * intros (pre & suf & r & Hs & Hm' & Hmin).
        destruct pre as [| c' pre].
        -- cbn in Hs. subst suf. congruence.
        -- cbn in Hs. injection Hs as <- Hs. exists pre, suf, r.
           split; [exact Hs |]. split; [exact Hm' |].
           intros pre' suf' Hs' Hlt. apply (Hmin (c :: pre') suf').
           ++ cbn. congruence.
           ++ cbn. lia.
Qed.

Lemma re_search_None (pat : list atom) (s : str) :
  re_search pat s = None <->
  forall pre suf, s = pre ++ suf -> match_seq pat suf = None.
Proof.
  induction s as [| c t IH].
  - cbn [re_search]. split.
    + destruct (match_seq pat []) as [[ms' r] |] eqn:Hm; [discriminate |].
      intros _ pre suf Hs. symmetry in Hs. apply app_eq_nil in Hs.
      destruct Hs as [-> ->]. exact Hm.
    + intros Hall. rewrite (Hall [] [] eq_refl). reflexivity.
  - cbn [re_search]. destruct (match_seq pat (c :: t)) as [[ms' r'] |] eqn:Hm.
    + split; [discriminate |]. intros Hall.
      specialize (Hall [] (c :: t) eq_refl). congruence.
    + rewrite IH. split.
      * intros Hall pre suf Hs. destruct pre as [| c' pre].
        -- cbn in Hs. subst suf. exact Hm.
        -- cbn in Hs. injection Hs as <- Hs. apply (Hall pre suf Hs).
      * intros Hall pre suf Hs. apply (Hall (c :: pre) suf). cbn. congruence.
Qed.

Lemma greedy_sound {R} (p : N -> bool) (lo : nat) (hi : option nat) (s : str)
    (k : str -> str -> option R) (x : R) :
  greedy p lo hi s k = Some x ->
  exists m r,
    s = m ++ r /\ (lo <= length m)%nat /\ (forall n, hi = Some n -> (length m <= n)%nat)
    /\ forallb p m = true /\ k m r = Some x.
Proof.
  revert lo hi k. induction s as [| c t IH]; intros lo hi k Hg.
  - cbn in Hg. destruct lo as [| lo]; [| discriminate].
    exists [], []. repeat split; [lia | intros; cbn; lia | exact Hg].
  - assert (Hstop : match lo with O => k [] (c :: t) | S _ => None end = Some x ->
                    exists m r, c :: t = m ++ r /\ (lo <= length m)%nat
                      /\ (forall n, hi = Some n -> (length m <= n)%nat)
                      /\ forallb p m = true /\ k m r = Some x).
    { intros Hs. destruct lo as [| lo]; [| discriminate].
      exists [], (c :: t). repeat split; [lia | intros; cbn; lia | exact Hs]. }
    cbn [greedy] in Hg.
    destruct (p c && negb (bool_decide (hi = Some 0%nat))) eqn:Hc; [| exact (Hstop Hg)].
    apply andb_true_iff in Hc. destruct Hc as [Hp Hhi].
    apply negb_true_iff, bool_decide_eq_false in Hhi.
    destruct (greedy p (Nat.pred lo) (Nat.pred <$> hi) t (fun m r => k (c :: m) r))
      as [y |] eqn:Hin; [| exact (Hstop Hg)].
    injection Hg as ->.
    destruct (IH _ _ _ Hin) as (m & r & -> & Hlo & Hmax & Hall & Hk).
    exists (c :: m), r. split; [reflexivity |]. split; [cbn; lia |].
    split; [| split; [cbn; rewrite Hp; exact Hall | exact Hk]].
    intros n ->. destruct n as [| n]; [congruence |].
    specialize (Hmax n eq_refl). cbn. lia.
Qed.

Lemma match_seq_sound (pat : list atom) (s : str) (ms : list str) (r : str) :
  match_seq pat s = Some (ms, r) -> s = concat ms ++ r /\ Forall2 atom_ok pat ms.
Proof.
  revert s ms r. induction pat as [| a pat IH]; intros s ms r Hm.
  - cbn in Hm. injection Hm as <- <-. split; [reflexivity | constructor].
  - cbn [match_seq] in Hm. apply greedy_sound in Hm.
    destruct Hm as (m & r0 & -> & Hlo & Hhi & Hall & Hk).
    destruct (match_seq pat r0) as [[ms' r'] |] eqn:Hm'; [| discriminate].
    injection Hk as <- <-. destruct (IH _ _ _ Hm') as [-> Hok].
    split; [rewrite concat_cons_app; reflexivity |].
    constructor; [| exact Hok]. repeat split; assumption.
Qed.

Lemma re_findall_from_drop (pat : list atom) (k : nat) (s : str) :
  re_findall_from pat k s = re_findall pat (drop k s).
Proof.
  unfold re_findall. revert k. induction s as [| c t IH]; intros k.
  - destruct k; reflexivity.
  - destruct k as [| k]; [reflexivity |]. cbn [re_findall_from drop]. apply IH.
Qed.

(** [re.findall] scans from the left: a match at the start is taken and
    the scan resumes after it; with no match there the scan moves one
    character on. *)
Lemma re_findall_scan (pat : list atom) (s : str) :
  (forall s' ms r, match_seq pat s' = Some (ms, r) -> concat ms <> []) ->
  re_findall pat s
  = match match_seq pat s with
    | Some (ms, r) => ms :: re_findall pat r
    | None => match s with [] => [] | _ :: t => re_findall pat t end
    end.
Proof.
  intros Hne. destruct s as [| c t].
  - destruct (match_seq pat []) as [[ms r] |] eqn:Hm; [| reflexivity].
    exfalso. apply (Hne _ _ _ Hm). apply match_seq_sound in Hm. destruct Hm as [Hs _].
    symmetry in Hs. apply app_eq_nil in Hs. tauto.
  - unfold re_findall at 1. cbn [re_findall_from].
    destruct (match_seq pat (c :: t)) as [[ms r] |] eqn:Hm; [| reflexivity].
    rewrite re_findall_from_drop. f_equal. f_equal.
    pose proof (Hne _ _ _ Hm) as Hms. apply match_seq_sound in Hm. destruct Hm as [Hs _].
    destruct (concat ms) as [| c' w]; [contradiction |].
    cbn in Hs. injection Hs as <- ->. cbn [length Nat.pred].
    apply drop_app_length.
Qed.

(** The search with a pattern of fixed length finds the first occurrence
    of the words of the pattern. *)
Section FirstOccurrence.
Variable pat : list atom.
Variable P : str -> Prop.
Hypothesis pat_exato : Forall exato pat.
Hypothesis casa_P : forall ms, casa pat ms -> P (concat ms).
Hypothesis P_casa : forall w, P w -> exists ms, casa pat ms /\ concat ms = w.

Lemma match_seq_ocorre (pre suf : str) (ms : list str) (r : str) :
  match_seq pat suf = Some (ms, r) ->
  ocorre P (pre ++ suf) (length pre) (concat ms).
Proof using pat_exato casa_P.
  intros Hm. apply (match_seq_exact pat suf ms r pat_exato) in Hm.
  destruct Hm as [-> Hc]. split; [apply casa_P; exact Hc |].
  exists pre, r. split; reflexivity.
Qed.

Lemma ocorre_match_seq (texto : str) (i : nat) (w : str) :
  ocorre P texto i w ->
  exists pre post ms,
    texto = pre ++ w ++ post /\ length pre = i /\ concat ms = w
    /\ match_seq pat (w ++ post) = Some (ms, post).
Proof using pat_exato P_casa.
  intros [HP (pre & post & Ht & Hi)].
  destruct (P_casa w HP) as (ms & Hc & Hw).
  exists pre, post, ms. repeat split; try assumption.
  apply (match_seq_exact pat (w ++ post) ms post pat_exato).
  split; [rewrite Hw; reflexivity | exact Hc].
Qed.

Lemma re_search_primeira (texto : str) (i : nat) (w : str) :
  primeira P texto i w ->
  exists ms, re_search pat texto = Some ms /\ concat ms = w.
Proof using pat_exato casa_P P_casa.
  intros [Hoc Hmin].
  destruct (ocorre_match_seq texto i w Hoc) as (pre & post & ms0 & Ht & Hi & Hw & Hm0).
  destruct (re_search pat texto) as [ms |] eqn:Hs.
  - exists ms. split; [reflexivity |].
    apply re_search_Some in Hs. destruct Hs as (pre1 & suf1 & r1 & Ht1 & Hm1 & Hleast).
    assert (Hge : (i <= length pre1)%nat).
    { apply (Hmin (length pre1) (concat ms)). rewrite Ht1.
      apply (match_seq_ocorre pre1 suf1 ms r1 Hm1). }
    assert (Hle : (length pre1 <= i)%nat).
    { destruct (Nat.le_gt_cases (length pre1) i) as [Hle | Hgt]; [exact Hle |].
      rewrite <- Hi in Hgt. rewrite (Hleast pre (w ++ post) Ht Hgt) in Hm0. discriminate. }
    assert (Hlen : length pre1 = length pre) by lia.
    rewrite Ht in Ht1. apply app_inj_1 in Ht1; [| congruence].
    destruct Ht1 as [_ <-]. congruence.
  - exfalso. rewrite re_search_None in Hs. rewrite (Hs pre (w ++ post) Ht) in Hm0.
    discriminate.
Qed.

Lemma re_search_nenhuma (texto : str) :
  (forall i w, ~ ocorre P texto i w) -> re_search pat texto = None.
Proof using pat_exato casa_P.
  intros Hno. apply re_search_None. intros pre suf Ht.
  destruct (match_seq pat suf) as [[ms r] |] eqn:Hm; [| reflexivity].
  exfalso. apply (Hno (length pre) (concat ms)). rewrite Ht.
  apply (match_seq_ocorre pre suf ms r Hm).
Qed.

Lemma re_search_None_nenhuma (texto : str) :
  re_search pat texto = None -> forall i w, ~ ocorre P texto i w.
Proof using pat_exato P_casa.
  intros Hs i w Hoc.
  destruct (ocorre_match_seq texto i w Hoc) as (pre & post & ms & Ht & _ & _ & Hm).
  rewrite re_search_None in Hs. rewrite (Hs pre (w ++ post) Ht) in Hm. discriminate.
Qed.

Lemma re_search_Some_primeira (texto : str) (ms : list str) :
  re_search pat texto = Some ms -> exists i, primeira P texto i (concat ms).
Proof using pat_exato casa_P P_casa.
  intros Hs. apply re_search_Some in Hs.
  destruct Hs as (pre & suf & r & Ht & Hm & Hleast).
  exists (length pre). split.
  - rewrite Ht. apply (match_seq_ocorre pre suf ms r Hm).
  - intros j w' Hoc.
    destruct (ocorre_match_seq texto j w' Hoc) as (pre' & post' & ms' & Ht' & Hj & _ & Hm').
    destruct (Nat.le_gt_cases (length pre) j) as [Hle | Hgt]; [exact Hle |].
    rewrite <- Hj in Hgt. rewrite (Hleast pre' (w' ++ post') Ht' Hgt) in Hm'. discriminate.
Qed.
End FirstOccurrence.

(** ** Tax-ID extraction *)

Lemma forallb_isdigit (w : str) : forallb isdigit w = true <-> so_de_digitos w.
Proof.
  unfold so_de_digitos. rewrite forallb_forall, List.Forall_forall. reflexivity.
Qed.

Lemma forallb_lit (c : N) (m : str) :
  length m = 1%nat -> forallb (N.eqb c) m = true -> m = [c].
Proof.
  destruct m as [| x [| y m]]; try discriminate. intros _ Hx.
  cbn in Hx. rewrite andb_true_r in Hx. apply N.eqb_eq in Hx. congruence.
Qed.

Lemma padrao_cpf_exato : Forall exato padrao_cpf.
Proof. repeat constructor. Qed.

Lemma padrao2_cpf_exato : Forall exato padrao2_cpf.
Proof. repeat constructor. Qed.

Lemma casa_padrao_cpf (ms : list str) : casa padrao_cpf ms -> cpf_pontuado (concat ms).
Proof.
  intros Hc. unfold casa, padrao_cpf in Hc.
  repeat match goal with
         | Hf : Forall2 _ (_ :: _) _ |- _ =>
           let m := fresh "m" in let Hl := fresh "Hl" in let Ha := fresh "Ha" in
           apply Forall2_cons_inv_l in Hf; destruct Hf as (m & ? & [Hl Ha] & Hf & ->)
         | Hf : Forall2 _ [] _ |- _ => apply Forall2_nil_inv_l in Hf; subst
         end.
  cbn [a_min a_class exactly lit] in *.
  apply forallb_lit in Ha0; [| assumption]. apply forallb_lit in Ha2; [| assumption].
  apply forallb_lit in Ha4; [| assumption]. subst.
  exists m, m1, m3, m5. cbn [concat]. rewrite app_nil_r.
  rewrite <- !forallb_isdigit. repeat split; assumption.
Qed.

Lemma cpf_pontuado_casa (w : str) :
  cpf_pontuado w -> exists ms, casa padrao_cpf ms /\ concat ms = w.
Proof.
  intros (a & b & c & d & -> & Ha & Hb & Hc & Hd & Da & Db & Dc & Dd).
  exists [a; py "."; b; py "."; c; py "-"; d]. split.
  - unfold casa, padrao_cpf. rewrite <- forallb_isdigit in Da, Db, Dc, Dd.
    repeat constructor; cbn [a_min a_class exactly lit]; assumption.
  - cbn [concat]. rewrite app_nil_r. reflexivity.
Qed.

Lemma casa_padrao2_cpf (ms : list str) : casa padrao2_cpf ms -> onze_digitos (concat ms).
Proof.
  intros Hc. unfold casa, padrao2_cpf in Hc.
  apply Forall2_cons_inv_l in Hc. destruct Hc as (m & ms' & [Hl Ha] & Hc & ->).
  apply Forall2_nil_inv_l in Hc. subst ms'. cbn [concat]. rewrite app_nil_r.
  split; [exact Hl | apply forallb_isdigit; exact Ha].
Qed.

Lemma onze_digitos_casa (w : str) :
  onze_digitos w -> exists ms, casa padrao2_cpf ms /\ concat ms = w.
Proof.
  intros [Hl Hd]. exists [w]. split.
  - repeat constructor; [exact Hl | apply forallb_isdigit; exact Hd].
  - cbn [concat]. apply app_nil_r.
Qed.

(** C7. The extractor returns the first match of the punctuated pattern
    when the text has one, whatever bare runs of digits the text also
    holds; with no punctuated match it returns the first bare run of 11
    digits in the canonical punctuation; with neither it returns the
    not-found sentinel. *)
Theorem extrair_cpf_priority (texto : str) :
  (forall i w, primeira cpf_pontuado texto i w -> extrair_cpf texto = w)
  /\ ((forall i w, ~ ocorre cpf_pontuado texto i w) ->
      forall i w, primeira onze_digitos texto i w -> extrair_cpf texto = formatar_cpf w)
  /\ ((forall i w, ~ ocorre cpf_pontuado texto i w) ->
      (forall i w, ~ ocorre onze_digitos texto i w) ->
      extrair_cpf texto = nao_encontrado).
Proof.
  split; [| split].
  - intros i w Hp.
    destruct (re_search_primeira padrao_cpf cpf_pontuado padrao_cpf_exato
                casa_padrao_cpf cpf_pontuado_casa texto i w Hp) as (ms & Hs & Hw).
    unfold extrair_cpf. rewrite Hs. exact Hw.
  - intros Hno i w Hp.
    pose proof (re_search_nenhuma padrao_cpf cpf_pontuado padrao_cpf_exato
                  casa_padrao_cpf texto Hno) as Hs1.
    destruct (re_search_primeira padrao2_cpf onze_digitos padrao2_cpf_exato
                casa_padrao2_cpf onze_digitos_casa texto i w Hp) as (ms & Hs & Hw).
    unfold extrair_cpf. rewrite Hs1, Hs, Hw. reflexivity.
  - intros Hno1 Hno2.
    pose proof (re_search_nenhuma padrao_cpf cpf_pontuado padrao_cpf_exato
                  casa_padrao_cpf texto Hno1) as Hs1.
    pose proof (re_search_nenhuma padrao2_cpf onze_digitos padrao2_cpf_exato
                  casa_padrao2_cpf texto Hno2) as Hs2.
    unfold extrair_cpf. rewrite Hs1, Hs2. reflexivity.
Qed.

(** ** Floats *)

Lemma shr_1_nonneg (mrs : shr_record) : (0 <= shr_m mrs)%Z -> (0 <= shr_m (shr_1 mrs))%Z.
Proof.
  destruct mrs as [m r s]. cbn [shr_m].
  destruct m as [| [p | p |] | p]; cbn; lia.
Qed.

Lemma iter_pos_shr_1_nonneg (p : positive) (mrs : shr_record) :
  (0 <= shr_m mrs)%Z -> (0 <= shr_m (SpecFloat.iter_pos shr_1 p mrs))%Z.
Proof.
  revert mrs. induction p as [p IH | p IH |]; intros mrs Hm; cbn [SpecFloat.iter_pos].
  - apply IH, IH, shr_1_nonneg, Hm.
  - apply IH, IH, Hm.
  - apply shr_1_nonneg, Hm.
Qed.

Lemma shr_fexp_nonneg (m e : Z) (l : location) :
  (0 <= m)%Z -> (0 <= shr_m (fst (shr_fexp prec emax m e l)))%Z.
Proof.
  intros Hm. unfold shr_fexp, shr.
  assert (H0 : (0 <= shr_m (shr_record_of_loc m l))%Z).
  { destruct l as [| []]; exact Hm. }
  destruct (fexp prec emax (Zdigits2 m + e) - e)%Z; cbn [fst];
    [exact H0 | apply iter_pos_shr_1_nonneg, H0 | exact H0].
Qed.

Lemma round_nearest_even_nonneg (m : Z) (l : location) :
  (0 <= m)%Z -> (0 <= round_nearest_even m l)%Z.
Proof.
  intros Hm. destruct l as [| []]; cbn; [lia | | lia | lia].
  destruct (Z.even m); lia.
Qed.

Lemma binary_round_aux_sign (sx : bool) (mx ex : Z) (lx : location) :
  (0 <= mx)%Z ->
  match binary_round_aux prec emax sx mx ex lx with
  | S754_zero s | S754_infinity s | S754_finite s _ _ => s = sx
  | S754_nan => False
  end.
Proof.
  intros Hm. unfold binary_round_aux.
  pose proof (shr_fexp_nonneg mx ex lx Hm) as H1.
  destruct (shr_fexp prec emax mx ex lx) as [mrs' e']. cbn [fst] in H1.
  pose proof (shr_fexp_nonneg _ e' loc_Exact
                (round_nearest_even_nonneg _ (loc_of_shr_record mrs') H1)) as H2.
  destruct (shr_fexp prec emax _ e' loc_Exact) as [mrs'' e'']. cbn [fst] in H2.
  destruct (shr_m mrs'') as [| m | m]; [reflexivity | | lia].
  destruct (e'' <=? emax - prec)%Z; reflexivity.
Qed.

Lemma float_of_ratio_sign (s : bool) (num den : positive) :
  match float_of_ratio s num den with
  | S754_zero s' | S754_infinity s' | S754_finite s' _ _ => s' = s
  | S754_nan => False
  end.
Proof.
  unfold float_of_ratio. cbn [SFdiv].
  destruct (SFdiv_core_binary prec emax (Z.pos num) 0 (Z.pos den) 0) as [[mz ez] lz] eqn:Hc.
  replace (xorb s false) with s by (destruct s; reflexivity).
  apply binary_round_aux_sign.
  unfold SFdiv_core_binary in Hc.
  set (m' := match _ with Z0 => Z.pos num | Zpos _ => _ | Zneg _ => 0%Z end) in Hc.
  assert (Hm' : (0 <= m')%Z).
  { subst m'. destruct (_ - _ - _)%Z; [lia | | lia]. apply Z.shiftl_nonneg. lia. }
  pose proof (Z_div_mod m' (Z.pos den) ltac:(lia)) as Hdm.
  destruct (Z.div_eucl m' (Z.pos den)) as [q r]. injection Hc as <- _ _.
  destruct Hdm as [Heq Hr]. nia.
Qed.

Lemma float_positivo_of_ratio (num den : positive) :
  float_positivo (float_of_ratio false num den).
Proof.
  pose proof (float_of_ratio_sign false num den) as Hs. unfold float_positivo.
  destruct (float_of_ratio false num den); assumption.
Qed.

Lemma py_float_positivo (s : str) (x : spec_float) :
  py_float s = Ok x -> float_positivo x.
Proof.
  unfold py_float. destruct (split_point s) as [int_part frac].
  destruct (bool_decide _); [discriminate |].
  destruct (digits_value 0 _) as [[| p] |]; [| | discriminate].
  - intros [= <-]. reflexivity.
  - intros [= <-]. apply float_positivo_of_ratio.
Qed.

Lemma py_round2_positivo (x : spec_float) :
  float_positivo x -> float_positivo (py_round2 x).
Proof.
  destruct x as [s | s | | s m e]; cbn [py_round2]; try (intros Hx; exact Hx).
  intros Hs. cbn in Hs. subst s.
  destruct (match e with Zneg k => _ | _ => _ end) as [| c | c];
    [reflexivity | apply float_positivo_of_ratio | reflexivity].
Qed.

Lemma py_round2_duas_casas (x : spec_float) :
  float_positivo x -> duas_casas (py_round2 x).
Proof.
  unfold duas_casas.
  destruct x as [s | s | | s m e]; cbn [py_round2 float_positivo]; try contradiction.
  - intros ->. right; left; reflexivity.
  - intros ->. left; reflexivity.
  - intros ->.
    destruct (match e with Zneg k => _ | _ => _ end) as [| c | c].
    + right; left; reflexivity.
    + right; right. exists c. reflexivity.
    + right; left; reflexivity.
Qed.

Lemma float_positivo_nonneg (x : spec_float) :
  float_positivo x -> float_nonneg x = true.
Proof.
  destruct x as [s | s | | s m e]; cbn; try contradiction; intros ->; reflexivity.
Qed.

(** ** Contribution extraction *)

Lemma atom_ok_exactly (n : nat) (p : N -> bool) (m : str) :
  atom_ok (exactly n p) m -> length m = n /\ forallb p m = true.
Proof.
  intros (Hlo & Hhi & Hall). cbn in Hlo, Hhi, Hall. specialize (Hhi n eq_refl).
  split; [lia | exact Hall].
Qed.

Lemma atom_ok_lit (c : N) (m : str) : atom_ok (lit c) m -> m = [c].
Proof.
  intros Hok. apply atom_ok_exactly in Hok. destruct Hok as [Hl Ha].
  apply (forallb_lit c m Hl Ha).
Qed.

Lemma padrao_contrib_forma (s : str) (ms : list str) (r : str) :
  match_seq padrao_contrib s = Some (ms, r) ->
  forma_contrib (group 0 3 ms) (group 5 1 ms)
  /\ exists ws,
       Forall (fun c => isspace c = true) ws
       /\ s = group 0 3 ms ++ py ":" ++ ws ++ group 5 1 ms ++ r.
Proof.
  intros Hm. apply match_seq_sound in Hm. destruct Hm as [-> Hok].
  unfold padrao_contrib in Hok.
  repeat match goal with
         | Hf : Forall2 _ (_ :: _) _ |- _ =>
           let m := fresh "m" in let Ha := fresh "Ha" in
           apply Forall2_cons_inv_l in Hf; destruct Hf as (m & ? & Ha & Hf & ->)
         | Hf : Forall2 _ [] _ |- _ => apply Forall2_nil_inv_l in Hf; subst
         end.
  apply atom_ok_exactly in Ha. apply atom_ok_lit in Ha0. apply atom_ok_exactly in Ha1.
  apply atom_ok_lit in Ha2. destruct Ha as [Hl Hd], Ha1 as [Hl1 Hd1].
  destruct Ha3 as (_ & _ & Hws), Ha4 as (Hv & _ & Hvc). subst m0 m2.
  cbn [a_class a_min star plus] in Hws, Hv, Hvc.
  unfold group. cbn [drop take concat]. rewrite !app_nil_r.
  split.
  - exists m, m1. split; [reflexivity |].
    split; [exact Hl |]. split; [exact Hl1 |].
    split; [apply forallb_isdigit; exact Hd |]. split; [apply forallb_isdigit; exact Hd1 |].
    split; [destruct m4; [cbn in Hv; lia | discriminate] |].
    apply List.Forall_forall. intros c Hc.
    rewrite forallb_forall in Hvc. specialize (Hvc c Hc).
    rewrite !orb_true_iff, !N.eqb_eq in Hvc. tauto.
  - exists m3. split.
    + apply List.Forall_forall. rewrite forallb_forall in Hws. exact Hws.
    + rewrite <- !app_assoc. reflexivity.
Qed.

Lemma padrao_contrib_nonempty (s : str) (ms : list str) (r : str) :
  match_seq padrao_contrib s = Some (ms, r) -> concat ms <> [].
Proof.
  intros Hm. apply match_seq_sound in Hm. destruct Hm as [_ Hok].
  unfold padrao_contrib in Hok.
  apply Forall2_cons_inv_l in Hok. destruct Hok as (m & ms' & Ha & _ & ->).
  apply atom_ok_exactly in Ha. destruct Ha as [Hl _].
  destruct m; [discriminate | cbn; discriminate].
Qed.

Lemma re_findall_match (pat : list atom) (skip : nat) (s : str) (ms : list str) :
  ms ∈ re_findall_from pat skip s ->
  exists pre suf r, s = pre ++ suf /\ match_seq pat suf = Some (ms, r).
Proof.
  revert skip. induction s as [| c t IH]; intros skip Hin.
  - cbn in Hin. apply elem_of_nil in Hin. contradiction.
  - cbn [re_findall_from] in Hin.
    assert (Ht : forall k, ms ∈ re_findall_from pat k t ->
                 exists pre suf r, c :: t = pre ++ suf /\ match_seq pat suf = Some (ms, r)).
    { intros k Hk. destruct (IH k Hk) as (pre & suf & r & -> & Hm).
      exists (c :: pre), suf, r. split; [reflexivity | exact Hm]. }
    destruct skip as [| k]; [| exact (Ht k Hin)].
    destruct (match_seq pat (c :: t)) as [[ms' r'] |] eqn:Hm; [| exact (Ht _ Hin)].
    apply elem_of_cons in Hin. destruct Hin as [-> | Hin]; [| exact (Ht _ Hin)].
    exists [], (c :: t), r'. split; [reflexivity | exact Hm].
Qed.

Lemma converter_valor_Ok (valor_str : str) (v : spec_float) :
  converter_valor valor_str = Ok v <->
  exists x, py_float (normalizar_valor valor_str) = Ok x /\ v = py_round2 x.
Proof.
  unfold converter_valor. destruct (py_float (normalizar_valor valor_str)) as [x | e]; cbn.
  - split.
    + intros [= <-]. exists x. split; reflexivity.
    + intros (x' & [= <-] & ->). reflexivity.
  - split; [discriminate |]. intros (x' & Hx & _). discriminate.
Qed.

Lemma guardar_contrib_lookup (acc : gmap str spec_float) (m : str * str) (k : str) :
  guardar_contrib acc m !! k
  = match converter_valor m.2 with
    | Ok v => if bool_decide (m.1 = k) then Some v else acc !! k
    | Raise _ => acc !! k
    end.
Proof.
  unfold guardar_contrib. destruct (converter_valor m.2) as [v | e]; [| reflexivity].
  rewrite lookup_insert. destruct (decide (m.1 = k)) as [Hk | Hk].
  - rewrite bool_decide_eq_true_2 by exact Hk. reflexivity.
  - rewrite bool_decide_eq_false_2 by exact Hk. reflexivity.
Qed.

Lemma foldl_guardar_Some (l : list (str * str)) (acc : gmap str spec_float) (k : str)
    (v : spec_float) :
  foldl guardar_contrib acc l !! k = Some v ->
  acc !! k = Some v \/ exists vs, (k, vs) ∈ l /\ converter_valor vs = Ok v.
Proof.
  revert acc. induction l as [| m l IH]; intros acc Hf.
  - left. exact Hf.
  - cbn [foldl] in Hf. destruct (IH _ Hf) as [Hacc | (vs & Hin & Hc)].
    + rewrite guardar_contrib_lookup in Hacc.
      destruct (converter_valor m.2) as [v' | e] eqn:Hc; [| left; exact Hacc].
      destruct (bool_decide (m.1 = k)) eqn:Hk; [| left; exact Hacc].
      apply bool_decide_eq_true in Hk. injection Hacc as ->.
      right. exists m.2. split; [| exact Hc].
      destruct m as [k' vs']. cbn in Hk |- *. subst k'. apply list_elem_of_here.
    + right. exists vs. split; [apply list_elem_of_further; exact Hin | exact Hc].
Qed.

Lemma foldl_guardar_keep (l : list (str * str)) (acc : gmap str spec_float) (k : str) :
  (forall vs v, (k, vs) ∈ l -> converter_valor vs <> Ok v) ->
  foldl guardar_contrib acc l !! k = acc !! k.
Proof.
  revert acc. induction l as [| m l IH]; intros acc Hno; [reflexivity |].
  cbn [foldl]. rewrite IH.
  - rewrite guardar_contrib_lookup.
    destruct (converter_valor m.2) as [v' | e] eqn:Hc; [| reflexivity].
    destruct (bool_decide (m.1 = k)) eqn:Hk; [| reflexivity].
    apply bool_decide_eq_true in Hk. exfalso. apply (Hno m.2 v'); [| exact Hc].
    destruct m as [k' vs']. cbn in Hk |- *. subst k'. apply list_elem_of_here.
  - intros vs v Hin. apply Hno. apply list_elem_of_further. exact Hin.
Qed.

Lemma foldl_guardar_last (l1 l2 : list (str * str)) (acc : gmap str spec_float)
    (k vs : str) (v : spec_float) :
  converter_valor vs = Ok v ->
  (forall vs' v', (k, vs') ∈ l2 -> converter_valor vs' <> Ok v') ->
  foldl guardar_contrib acc (l1 ++ (k, vs) :: l2) !! k = Some v.
Proof.
  intros Hc Hno. rewrite foldl_app. cbn [foldl].
  rewrite foldl_guardar_keep by exact Hno.
  rewrite guardar_contrib_lookup. cbn [fst snd]. rewrite Hc.
  rewrite bool_decide_eq_true_2 by reflexivity. reflexivity.
Qed.

Lemma foldl_guardar_is_Some (l : list (str * str)) (acc : gmap str spec_float) (k : str) :
  is_Some (foldl guardar_contrib acc l !! k) <->
  is_Some (acc !! k) \/ exists vs v, (k, vs) ∈ l /\ converter_valor vs = Ok v.
Proof.
  revert acc. induction l as [| m l IH]; intros acc.
  - cbn. split; [intros Hs; left; exact Hs |].
    intros [Hs | (vs & v & Hin & _)]; [exact Hs |]. apply elem_of_nil in Hin. contradiction.
  - cbn [foldl]. rewrite IH, guardar_contrib_lookup. destruct m as [k' vs']. cbn [fst snd].
    split.
    + intros [Hs | (vs & v & Hin & Hc)].
      * destruct (converter_valor vs') as [v' | e] eqn:Hc; [| left; exact Hs].
        destruct (bool_decide (k' = k)) eqn:Hk; [| left; exact Hs].
        apply bool_decide_eq_true in Hk. subst k'.
        right. exists vs', v'. split; [apply list_elem_of_here | exact Hc].
      * right. exists vs, v. split; [apply list_elem_of_further; exact Hin | exact Hc].
    + intros [Hs | (vs & v & Hin & Hc)].
      * left. destruct (converter_valor vs') as [v' | e]; [| exact Hs].
        destruct (bool_decide (k' = k)); [eexists; reflexivity | exact Hs].
      * apply elem_of_cons in Hin. destruct Hin as [[= <- <-] | Hin].
        -- left. rewrite Hc, bool_decide_eq_true_2 by reflexivity. eexists; reflexivity.
        -- right. exists vs, v. split; assumption.
Qed.

Lemma ocorrencias_forma (texto data_str valor_str : str) :
  (data_str, valor_str) ∈ ocorrencias texto ->
  forma_contrib data_str valor_str
  /\ exists pre ws post,
       Forall (fun c => isspace c = true) ws
       /\ texto = pre ++ data_str ++ py ":" ++ ws ++ valor_str ++ post.
Proof.
  unfold ocorrencias. intros Hin. apply list_elem_of_fmap in Hin.
  destruct Hin as (ms & [= -> ->] & Hms).
  apply re_findall_match in Hms. destruct Hms as (pre & suf & r & -> & Hm).
  apply padrao_contrib_forma in Hm. destruct Hm as [Hf (ws & Hws & ->)].
  split; [exact Hf |]. exists pre, ws, r. split; [exact Hws | reflexivity].
Qed.

(** C6. The mapping has an entry under a key exactly when some occurrence
    of the pattern with that key has a numeral that parses once the dots
    are stripped and the comma is turned into a point; an occurrence that
    does not parse changes nothing, so it hides no other occurrence. The
    value of an entry is the parsed amount of such an occurrence (the last
    one with that key) rounded to 2 places, and it is non-negative. The
    occurrences are those of a scan from the left that resumes after each
    match, each one a key [YYYY-MM], a colon, white space and a numeral of
    digits, dots and commas. "2023-05: 1.234,56" gives the one entry
    1234.56 under "2023-05", and a malformed numeral before a well-formed
    one leaves the entry of the latter. *)
Theorem extrair_contribuicoes_entries (texto : str) :
  (forall data_str,
     is_Some (extrair_contribuicoes texto !! data_str) <->
     exists valor_str x,
       (data_str, valor_str) ∈ ocorrencias texto
       /\ py_float (normalizar_valor valor_str) = Ok x)
  /\ (forall data_str v,
        extrair_contribuicoes texto !! data_str = Some v ->
        float_nonneg v = true /\ duas_casas v
        /\ exists valor_str x,
             (data_str, valor_str) ∈ ocorrencias texto
             /\ py_float (normalizar_valor valor_str) = Ok x /\ v = py_round2 x)
  /\ (forall l1 l2 data_str valor_str x,
        ocorrencias texto = l1 ++ (data_str, valor_str) :: l2 ->
        py_float (normalizar_valor valor_str) = Ok x ->
        (forall valor_str' x',
           (data_str, valor_str') ∈ l2 -> py_float (normalizar_valor valor_str') <> Ok x') ->
        extrair_contribuicoes texto !! data_str = Some (py_round2 x))
  /\ (forall data_str valor_str,
        (data_str, valor_str) ∈ ocorrencias texto ->
        forma_contrib data_str valor_str
        /\ exists pre ws post,
             Forall (fun c => isspace c = true) ws
             /\ texto = pre ++ data_str ++ py ":" ++ ws ++ valor_str ++ post)
  /\ re_findall padrao_contrib texto
     = match match_seq padrao_contrib texto with
       | Some (ms, r) => ms :: re_findall padrao_contrib r
       | None => match texto with [] => [] | _ :: t => re_findall padrao_contrib t end
       end
  /\ extrair_contribuicoes (py "2023-05: 1.234,56")
     = {[ py "2023-05" := float_of_ratio false 123456 100 ]}
  /\ extrair_contribuicoes (py "2023-05: 1,2,3 2023-06: 10,00")
     = {[ py "2023-06" := float_of_N 10 ]}.
Proof.
  split; [| split; [| split; [| split; [| split; [| split]]]]].
  - intros data_str. unfold extrair_contribuicoes.
    rewrite foldl_guardar_is_Some, lookup_empty. split.
    + intros [Hs | (vs & v & Hin & Hc)]; [destruct Hs as [? Hs]; discriminate |].
      apply converter_valor_Ok in Hc. destruct Hc as (x & Hx & _).
      exists vs, x. split; assumption.
    + intros (vs & x & Hin & Hx). right. exists vs, (py_round2 x).
      split; [exact Hin |]. apply converter_valor_Ok. exists x. split; [exact Hx | reflexivity].
  - intros data_str v Hv. unfold extrair_contribuicoes in Hv.
    apply foldl_guardar_Some in Hv. rewrite lookup_empty in Hv.
    destruct Hv as [Hv | (vs & Hin & Hc)]; [discriminate |].
    apply converter_valor_Ok in Hc. destruct Hc as (x & Hx & ->).
    split; [| split].
    + apply float_positivo_nonneg, py_round2_positivo, (py_float_positivo _ _ Hx).
    + apply py_round2_duas_casas, (py_float_positivo _ _ Hx).
    + exists vs, x. repeat split; assumption.
  - intros l1 l2 data_str valor_str x Hoc Hx Hno. unfold extrair_contribuicoes.
    rewrite Hoc. apply foldl_guardar_last.
    + apply converter_valor_Ok. exists x. split; [exact Hx | reflexivity].
    + intros vs' v' Hin Hc. apply converter_valor_Ok in Hc. destruct Hc as (x' & Hx' & _).
      apply (Hno vs' x' Hin Hx').
  - intros data_str valor_str. apply ocorrencias_forma.
  - apply re_findall_scan. exact padrao_contrib_nonempty.
  - vm_compute. reflexivity.
  - vm_compute. reflexivity.
Qed.

(** ** Benefit estimate *)

Lemma datas_nonempty (contribuicoes : gmap str spec_float) :
  contribuicoes <> ∅ ->
  exists data t, take 12 (sorted_reverse (map fst (map_to_list contribuicoes))) = data :: t.
Proof.
  intros Hne.
  assert (Hlen : length (sorted_reverse (map fst (map_to_list contribuicoes))) <> 0%nat).
  { unfold sorted_reverse. rewrite merge_sort_Permutation, length_map.
    intros Hl. apply Hne. apply map_to_list_empty_iff.
    destruct (map_to_list contribuicoes); [reflexivity | discriminate]. }
  destruct (sorted_reverse (map fst (map_to_list contribuicoes))) as [| data l];
    [contradiction |].
  exists data, (take 11 l). reflexivity.
Qed.

Lemma calcular_beneficio_cases (contribuicoes : gmap str spec_float) (salario_min : spec_float) :
  calcular_beneficio contribuicoes salario_min
  = if bool_decide (contribuicoes = ∅) then Ok None else Raise (NameError (py "contribs")).
Proof.
  unfold calcular_beneficio, calcular_beneficio_em.
  destruct (bool_decide (contribuicoes = ∅)) eqn:He; [reflexivity |].
  apply bool_decide_eq_false in He.
  destruct (datas_nonempty contribuicoes He) as (data & t & ->).
  reflexivity.
Qed.

(** C1 (the code against the claim). With the empty mapping the estimator
    returns the absent result; with any other mapping the filter
    [if data in contribs] raises [NameError], so no estimate is returned:
    for twelve months of 1000.00 and of 2000.00 the code raises where the
    stated rule gives 1412.00 and 2000.00. *)
Theorem calcular_beneficio_name_error :
  (forall contribuicoes salario_min,
     calcular_beneficio contribuicoes salario_min
     = if bool_decide (contribuicoes = ∅) then Ok None else Raise (NameError (py "contribs")))
  /\ calcular_beneficio (doze_meses (float_of_N 1000)) salario_min_padrao
     = Raise (NameError (py "contribs"))
  /\ calcular_beneficio_enunciado (doze_meses (float_of_N 1000)) salario_min_padrao
     = Ok (Some (float_of_N 1412))
  /\ calcular_beneficio (doze_meses (float_of_N 2000)) salario_min_padrao
     = Raise (NameError (py "contribs"))
  /\ calcular_beneficio_enunciado (doze_meses (float_of_N 2000)) salario_min_padrao
     = Ok (Some (float_of_N 2000)).
Proof.
  split; [exact calcular_beneficio_cases |].
  repeat split; vm_compute; reflexivity.
Qed.

(** ** Approval score *)

Lemma Qltb_lt (a b : Q) : Qltb a b = true <-> (a < b)%Q.
Proof.
  unfold Qltb. rewrite negb_true_iff. split.
  - intros Hle. apply Qnot_le_lt. intros Hba.
    apply Qle_bool_iff in Hba. congruence.
  - intros Hlt. apply not_true_is_false. intros Hba.
    apply Qle_bool_iff in Hba. apply (Qlt_not_le _ _ Hlt Hba).
Qed.

Lemma Qltb_dec (a b : Q) (A : Type) (x y : A) :
  (if Qltb a b then x else y) = (if Qlt_le_dec a b then x else y).
Proof.
  destruct (Qlt_le_dec a b) as [Hlt | Hle].
  - apply Qltb_lt in Hlt. rewrite Hlt. reflexivity.
  - destruct (Qltb a b) eqn:Hb; [| reflexivity].
    apply Qltb_lt in Hb. exfalso. apply (Qlt_not_le _ _ Hb Hle).
Qed.

Lemma faixa_spec_Qeq (a b : Q) : (a == b)%Q -> faixa_spec a = faixa_spec b.
Proof.
  intros Hab. unfold faixa_spec.
  assert (Hc : forall c (A : Type) (x y : A),
             (if Qlt_le_dec a c then x else y) = (if Qlt_le_dec b c then x else y)).
  { intros c A x y.
    destruct (Qlt_le_dec a c) as [Ha | Ha], (Qlt_le_dec b c) as [Hb | Hb]; try reflexivity;
      exfalso; rewrite Hab in Ha; apply (Qlt_not_le _ _ ltac:(eassumption) ltac:(eassumption)). }
  rewrite !Hc. reflexivity.
Qed.

Lemma calcular_aprovacao_faixa (d : dados) (ocupacao : option str) :
  calcular_aprovacao d ocupacao = faixa_spec (score_de d ocupacao).
Proof.
  unfold calcular_aprovacao, faixa_spec. rewrite !Qltb_dec. reflexivity.
Qed.

Lemma score_de_pontos (d : dados) (ocupacao : option str) :
  (score_de d ocupacao
   == pontos_spec (limiar_atingido d) (cpf_ok d) (nada_falta d) ocupacao)%Q.
Proof.
  unfold score_de, pontos_spec, limiar_atingido, cpf_ok, nada_falta.
  assert (Hv : default false (d_cpf_valido d) = bool_decide (d_cpf_valido d = Some true)).
  { destruct (d_cpf_valido d) as [[|] |]; reflexivity. }
  rewrite Hv.
  assert (Ho : bool_decide (ocupacao ∈ [Some (py "MEI"); Some (py "Autônoma");
                                         Some (py "Desempregada")])
               = bool_decide (ocupacao = Some (py "MEI") \/ ocupacao = Some (py "Autônoma")
                              \/ ocupacao = Some (py "Desempregada"))).
  { apply bool_decide_ext. rewrite !elem_of_cons, elem_of_nil. tauto. }
  rewrite Ho.
  destruct (match d_elegibilidade d with Some e => pagou_12_meses e | None => false end),
    (bool_decide (d_cpf_valido d = Some true)),
    (bool_decide (verificar_documentos_obrigatorios d = [])),
    (bool_decide (ocupacao = Some (py "CLT"))),
    (bool_decide (ocupacao = Some (py "MEI") \/ ocupacao = Some (py "Autônoma")
                  \/ ocupacao = Some (py "Desempregada")));
    reflexivity.
Qed.

(** C2. For every record and occupation the scorer maps, with half-open
    thresholds (below 2, below 3, below 4, else), the sum of +2 for the
    contribution threshold, +1 for a valid tax ID, +1 when no required
    document is missing, +1 for CLT and +0.5 for MEI, Autônoma and
    Desempregada; score 2 is "Pouco provável", scores 5 and 4.5 are "Muito
    provável" and score 0 is "Benefício Improvável". *)
Theorem calcular_aprovacao_score :
  (forall d ocupacao,
     (score_de d ocupacao
      == pontos_spec (limiar_atingido d) (cpf_ok d) (nada_falta d) ocupacao)%Q
     /\ calcular_aprovacao d ocupacao
        = faixa_spec (pontos_spec (limiar_atingido d) (cpf_ok d) (nada_falta d) ocupacao))
  /\ faixa_spec 2 = py "Pouco provável"
  /\ faixa_spec 5 = py "Muito provável"
  /\ faixa_spec (9 # 2) = py "Muito provável"
  /\ faixa_spec 0 = py "Benefício Improvável"
  /\ (score_de (dados_exemplo true true true) (Some (py "CLT")) == 5)%Q
  /\ calcular_aprovacao (dados_exemplo true true true) (Some (py "CLT")) = py "Muito provável"
  /\ (score_de (dados_exemplo true true true) (Some (py "Desempregada")) == 9 # 2)%Q
  /\ calcular_aprovacao (dados_exemplo true true true) (Some (py "Desempregada"))
     = py "Muito provável"
  /\ (score_de (dados_exemplo true false false) None == 2)%Q
  /\ calcular_aprovacao (dados_exemplo true false false) None = py "Pouco provável"
  /\ (score_de (dados_exemplo false false false) None == 0)%Q
  /\ calcular_aprovacao (dados_exemplo false false false) None = py "Benefício Improvável".
Proof.
  split.
  { intros d ocupacao. split; [apply score_de_pontos |].
    rewrite calcular_aprovacao_faixa. apply faixa_spec_Qeq, score_de_pontos. }
  repeat split; try reflexivity.
Qed.

(** ** The pipeline and the disk *)

Lemma extrair_texto_lookup {D} `{Lookup str arquivo D} (disk : D) (c : str) (a : arquivo) :
  disk !! c = Some a ->
  extrair_texto disk c = extrair_texto ({[c := a]} : gmap str arquivo) c.
Proof.
  intros Hd. unfold extrair_texto, extrair_texto_pdf.
  rewrite Hd, lookup_singleton_eq. reflexivity.
Qed.

Lemma validar_arquivo_lookup {D} `{Lookup str arquivo D} (disk : D) (c : str) (a : arquivo) :
  disk !! c = Some a ->
  validar_arquivo disk c = validar_arquivo ({[c := a]} : gmap str arquivo) c.
Proof.
  intros Hd. unfold validar_arquivo.
  rewrite Hd, lookup_singleton_eq, (extrair_texto_lookup disk c a Hd). reflexivity.
Qed.

Lemma validar_arquivo_singleton (c : str) (a : arquivo) :
  exists b msg, validar_arquivo ({[c := a]} : gmap str arquivo) c = Ok (b, msg).
Proof.
  unfold validar_arquivo. rewrite lookup_singleton_eq.
  destruct (MAX_CONTENT_LENGTH <? tamanho a)%N; [eexists _, _; reflexivity |].
  destruct (negb _); [eexists _, _; reflexivity |].
  destruct (_ <? 50)%nat; eexists _, _; reflexivity.
Qed.

Lemma renomear_arquivo_run (caminho cpf nome tipo_doc : str) (disk : disco) :
  exists disk',
    renomear_arquivo caminho cpf nome tipo_doc disk
    = (Ok (novo_caminho_de caminho cpf nome tipo_doc), disk').
Proof.
  unfold renomear_arquivo.
  destruct (os_rename caminho _ disk) as [[[] | e] disk']; eexists; reflexivity.
Qed.

(** A turn of the loop for a field with no upload. *)
Lemma processar_campo_sem_envio (form_files : gmap str file_storage) (campo : str)
    (st : dados * list info_doc) (disk : disco) :
  enviado form_files campo = None ->
  processar_campo form_files campo st disk = (Ok st, disk)
  /\ passo form_files campo st = Ok st.
Proof.
  unfold processar_campo, passo, processado, enviado.
  destruct (form_files !! campo) as [file |]; [| intros _; split; reflexivity].
  destruct (bool_decide (filename file = [])); [intros _; split; reflexivity | discriminate].
Qed.

(** A turn of the loop whose upload cannot be written: the exception of
    [file.save] leaves the loop. *)
Lemma processar_campo_save_raise (form_files : gmap str file_storage) (campo : str)
    (st : dados * list info_doc) (disk disk1 : disco) (file : file_storage) (e : exn) :
  enviado form_files campo = Some file ->
  save file (caminho_temp_de file) disk = (Raise e, disk1) ->
  processar_campo form_files campo st disk = (Raise e, disk1).
Proof.
  unfold processar_campo, enviado, caminho_temp_de.
  destruct (form_files !! campo) as [f |]; [| discriminate].
  destruct (bool_decide (filename f = [])); [discriminate |].
  intros [= ->] Hs. unfold io_bind at 1. rewrite Hs. reflexivity.
Qed.

(** A turn of the loop whose upload is written returns what [passo]
    computes. *)
Lemma processar_campo_save_ok (form_files : gmap str file_storage) (campo : str)
    (st : dados * list info_doc) (disk disk1 : disco) (file : file_storage) :
  enviado form_files campo = Some file ->
  save file (caminho_temp_de file) disk = (Ok tt, disk1) ->
  exists disk', processar_campo form_files campo st disk = (passo form_files campo st, disk').
Proof.
  unfold processar_campo, passo, processado, enviado.
  destruct (form_files !! campo) as [f |]; [| discriminate].
  destruct (bool_decide (filename f = [])); [discriminate |].
  intros [= ->] Hs. pose proof (fs_save_lookup _ _ _ _ Hs) as Hl.
  unfold aceito, texto_de, disco_de. unfold caminho_temp_de in *.
  set (c := path_join (py "temp") (filename file)) in *.
  unfold io_bind at 1. rewrite Hs. unfold io_bind at 1. unfold io_read at 1.
  rewrite (validar_arquivo_lookup disk1 c (stream file) Hl).
  destruct (validar_arquivo_singleton c (stream file)) as (b & msg & Hv). rewrite Hv.
  cbn [fst negb]. destruct b; cbn [negb]; [| eexists; reflexivity].
  unfold io_bind at 1. unfold io_read at 1.
  rewrite (extrair_texto_lookup disk1 c (stream file) Hl).
  unfold io_bind at 1. unfold io_lift at 1.
  destruct (extrair_campos campo _ _ st.1) as [r | e]; [| eexists; reflexivity].
  cbn [res_bind].
  destruct (truthy (d_cpf r.2) && truthy (d_nome r.2)).
  - unfold io_bind at 1. unfold io_bind at 1.
    destruct (renomear_arquivo_run c (default [] (d_cpf r.2)) (default [] (d_nome r.2))
                (upper campo) disk1) as [disk' Hr].
    rewrite Hr. eexists. reflexivity.
  - eexists. reflexivity.
Qed.

(** One turn of the loop returns what [passo] computes, on any disk that
    takes the upload; otherwise it raises the exception of [file.save]. *)
Lemma processar_campo_run (form_files : gmap str file_storage) (campo : str)
    (st : dados * list info_doc) (disk : disco) :
  (exists disk', processar_campo form_files campo st disk = (passo form_files campo st, disk'))
  \/ (exists file e disk',
        enviado form_files campo = Some file
        /\ save file (caminho_temp_de file) disk = (Raise e, disk')
        /\ processar_campo form_files campo st disk = (Raise e, disk')).
Proof.
  destruct (enviado form_files campo) as [file |] eqn:He.
  - destruct (save file (caminho_temp_de file) disk) as [[[] | e] disk1] eqn:Hs.
    + left. exact (processar_campo_save_ok form_files campo st disk disk1 file He Hs).
    + right. exists file, e, disk1. split; [reflexivity | split; [exact Hs |]].
      exact (processar_campo_save_raise form_files campo st disk disk1 file e He Hs).
  - left. exists disk.
    destruct (processar_campo_sem_envio form_files campo st disk He) as [-> ->]. reflexivity.
Qed.

Lemma io_foldM_run {A B} (f : B -> A -> io A) (g : B -> A -> res A) (P : exn -> Prop)
    (l : list B) :
  (forall b a disk, b ∈ l ->
     (exists disk', f b a disk = (g b a, disk'))
     \/ (exists e disk', f b a disk = (Raise e, disk') /\ P e)) ->
  forall a disk,
    (exists disk', io_foldM f l a disk = (res_foldM g l a, disk'))
    \/ (exists e disk', io_foldM f l a disk = (Raise e, disk') /\ P e).
Proof.
  induction l as [| b t IH]; intros Hf a disk.
  - left. eexists. reflexivity.
  - cbn [io_foldM res_foldM]. unfold io_bind.
    destruct (Hf b a disk (list_elem_of_here _ _)) as [[disk1 ->] | (e & disk1 & -> & He)].
    + destruct (g b a) as [a' | e]; cbn [res_bind]; [| left; eexists; reflexivity].
      apply IH. intros b' a'' disk' Hb. apply Hf, list_elem_of_further, Hb.
    + right. exists e, disk1. split; [reflexivity | exact He].
Qed.

Lemma laco_campos_run (form_files : gmap str file_storage) (disk : disco) :
  (exists disk', laco_campos form_files disk = (laco_puro form_files, disk'))
  \/ (exists e disk',
        laco_campos form_files disk = (Raise e, disk') /\ erro_de_save form_files e).
Proof.
  apply (io_foldM_run (processar_campo form_files) (passo form_files)).
  intros b a d Hb.
  destruct (processar_campo_run form_files b a d) as [Hr | (file & e & d' & He & Hs & Hr)];
    [left; exact Hr | right].
  exists e, d'. split; [exact Hr |]. exists b, file, d. rewrite Hs. repeat split; assumption.
Qed.

Lemma dados_aggregados_run (form_files : gmap str file_storage) (form_data : gmap str str)
    (disk : disco) :
  (exists disk',
     dados_aggregados form_files form_data disk = (dados_puros form_files form_data, disk'))
  \/ (exists e disk',
        laco_campos form_files disk = (Raise e, disk')
        /\ dados_aggregados form_files form_data disk = (Raise e, disk')
        /\ erro_de_save form_files e).
Proof.
  destruct (laco_campos_run form_files disk) as [[disk1 Hl] | (e & disk1 & Hl & He)].
  - left. unfold dados_aggregados, dados_puros. unfold io_bind at 1. rewrite Hl.
    destruct (laco_puro form_files) as [st | e]; cbn [res_bind]; [| eexists; reflexivity].
    unfold io_bind, io_lift, io_ret.
    destruct (match d_contribuicoes st.1 with Some _ => _ | None => _ end) as [b | e];
      eexists; reflexivity.
  - right. exists e, disk1. split; [exact Hl | split; [| exact He]].
    unfold dados_aggregados, io_bind. rewrite Hl. reflexivity.
Qed.

Lemma processar_documentos_run (form_files : gmap str file_storage)
    (form_data : gmap str str) (disk : disco) :
  (exists disk',
     processar_documentos form_files form_data disk
     = (res_bind (dados_puros form_files form_data) (fun d => Ok (gerar_relatorio d)), disk'))
  \/ (exists e disk',
        laco_campos form_files disk = (Raise e, disk')
        /\ processar_documentos form_files form_data disk = (Raise e, disk')
        /\ erro_de_save form_files e).
Proof.
  destruct (dados_aggregados_run form_files form_data disk)
    as [[disk1 Hd] | (e & disk1 & Hl & Hd & He)].
  - left. unfold processar_documentos, io_bind. rewrite Hd.
    destruct (dados_puros form_files form_data) as [d | e]; eexists; reflexivity.
  - right. exists e, disk1. split; [exact Hl | split; [| exact He]].
    unfold processar_documentos, io_bind. rewrite Hd. reflexivity.
Qed.

(** When the loop completes it returns what [laco_puro] computes, and the
    record and the report (or the exception) are those of [dados_puros]. *)
Lemma laco_campos_Ok (form_files : gmap str file_storage) (disk disk' : disco)
    (st : dados * list info_doc) :
  laco_campos form_files disk = (Ok st, disk') -> laco_puro form_files = Ok st.
Proof.
  intros Hl.
  destruct (laco_campos_run form_files disk) as [[disk1 Hrun] | (e & disk1 & Hrun & _)];
    rewrite Hrun in Hl; [| discriminate].
  injection Hl as Hl _. exact Hl.
Qed.

Lemma laco_campos_completo (form_files : gmap str file_storage) (form_data : gmap str str)
    (disk disk' : disco) (st : dados * list info_doc) :
  laco_campos form_files disk = (Ok st, disk') ->
  fst (dados_aggregados form_files form_data disk) = dados_puros form_files form_data
  /\ fst (processar_documentos form_files form_data disk)
     = res_bind (dados_puros form_files form_data) (fun d => Ok (gerar_relatorio d)).
Proof.
  intros Hl. split.
  - destruct (dados_aggregados_run form_files form_data disk)
      as [[disk1 ->] | (e & disk1 & Hr & _)]; [reflexivity |].
    rewrite Hr in Hl. discriminate.
  - destruct (processar_documentos_run form_files form_data disk)
      as [[disk1 ->] | (e & disk1 & Hr & _)]; [reflexivity |].
    rewrite Hr in Hl. discriminate.
Qed.

(** ** The aggregated record *)

Lemma concat_casa_nonempty (a : atom) (pat : list atom) (ms : list str) :
  (0 < a_min a)%nat -> Forall2 atom_ok (a :: pat) ms -> concat ms <> [].
Proof.
  intros Hmin Hok. apply Forall2_cons_inv_l in Hok.
  destruct Hok as (m & ms' & (Hlo & _) & _ & ->).
  destruct m; [cbn in Hlo; lia | cbn; discriminate].
Qed.

Lemma re_search_nonempty (a : atom) (pat : list atom) (s : str) (ms : list str) :
  (0 < a_min a)%nat -> re_search (a :: pat) s = Some ms -> concat ms <> [].
Proof.
  intros Hmin Hs. apply re_search_Some in Hs. destruct Hs as (pre & suf & r & _ & Hm & _).
  apply match_seq_sound in Hm. destruct Hm as [_ Hok].
  apply (concat_casa_nonempty a pat ms Hmin Hok).
Qed.

Lemma extrair_cpf_nonempty (texto : str) : extrair_cpf texto <> [].
Proof.
  unfold extrair_cpf.
  destruct (re_search padrao_cpf texto) as [ms |] eqn:Hs.
  - unfold padrao_cpf in Hs. eapply re_search_nonempty; [| exact Hs]. cbn; lia.
  - destruct (re_search padrao2_cpf texto) as [ms |]; [| discriminate].
    destruct (take 3 (concat ms)); discriminate.
Qed.

Lemma extrair_pis_nonempty (texto : str) : extrair_pis texto <> [].
Proof.
  unfold extrair_pis.
  destruct (re_search padrao_pis texto) as [ms |] eqn:Hs; [| discriminate].
  unfold padrao_pis in Hs. cbn [lits map app py] in Hs.
  eapply re_search_nonempty; [| exact Hs]. cbn; lia.
Qed.

Lemma truthy_Some (s : str) : s <> [] -> truthy (Some s) = true.
Proof. destruct s; [contradiction | reflexivity]. Qed.

Lemma extrair_campos_nome (campo texto : str) (info : info_doc) (d : dados) :
  campo = py "rg" \/ campo = py "certidao" ->
  extrair_campos campo texto info d
  = Ok (info_set_cpf_valido (validar_cpf_spec (extrair_cpf texto))
          (info_set_cpf (extrair_cpf texto) (info_set_nome (extrair_nome texto) info)),
        set_cpf_valido (Some (validar_cpf_spec (extrair_cpf texto)))
          (set_cpf (extrair_cpf texto) (set_nome (extrair_nome texto) d))).
Proof.
  intros Hc. unfold extrair_campos.
  rewrite bool_decide_eq_true_2 by (destruct Hc as [-> | ->]; set_solver).
  rewrite (bool_decide_eq_false_2 _ (extrair_cpf_nonempty texto)). cbn [negb].
  rewrite validar_cpf_is_spec. reflexivity.
Qed.

Lemma extrair_campos_cnis (texto : str) (info : info_doc) (d : dados) :
  extrair_campos (py "cnis") texto info d
  = Ok (info_set_contribuicoes (extrair_contribuicoes texto) info,
        set_contribuicoes (extrair_contribuicoes texto ∪ default ∅ (d_contribuicoes d)) d).
Proof. reflexivity. Qed.

Lemma extrair_campos_pis (texto : str) (info : info_doc) (d : dados) :
  extrair_campos (py "pis") texto info d
  = Ok (info_set_pis (extrair_pis texto) info, set_pis (extrair_pis texto) d).
Proof. reflexivity. Qed.

Lemma extrair_campos_mei (texto : str) (info : info_doc) (d : dados) :
  extrair_campos (py "mei") texto info d
  = Ok (info_set_mei (py "Enviado") info, set_mei (py "Enviado") d).
Proof. reflexivity. Qed.

Lemma passo_None (form_files : gmap str file_storage) (campo : str)
    (st : dados * list info_doc) :
  processado form_files campo = None -> passo form_files campo st = Ok st.
Proof. intros Hp. unfold passo. rewrite Hp. reflexivity. Qed.

Lemma i_nome_renomeado (b : bool) (v : str) (i : info_doc) :
  i_nome (if b then info_set_arquivo_renomeado v i else i) = i_nome i.
Proof. destruct b; reflexivity. Qed.

Lemma passo_Some_nome (form_files : gmap str file_storage) (campo : str)
    (st : dados * list info_doc) (file : file_storage) :
  processado form_files campo = Some file ->
  campo = py "rg" \/ campo = py "certidao" ->
  exists info,
    passo form_files campo st
    = Ok (set_cpf_valido (Some (validar_cpf_spec (extrair_cpf (texto_de file))))
            (set_cpf (extrair_cpf (texto_de file))
               (set_nome (extrair_nome (texto_de file)) st.1)),
          st.2 ++ [info])
    /\ i_nome info = Some (extrair_nome (texto_de file)).
Proof.
  intros Hp Hc. unfold passo. rewrite Hp. rewrite (extrair_campos_nome _ _ _ _ Hc).
  cbn [res_bind fst snd]. eexists. split; [reflexivity |].
  rewrite i_nome_renomeado. reflexivity.
Qed.

Lemma passo_Some_cnis (form_files : gmap str file_storage) (st : dados * list info_doc)
    (file : file_storage) :
  processado form_files (py "cnis") = Some file ->
  exists info,
    passo form_files (py "cnis") st
    = Ok (set_contribuicoes
            (extrair_contribuicoes (texto_de file) ∪ default ∅ (d_contribuicoes st.1)) st.1,
          st.2 ++ [info])
    /\ i_nome info = None.
Proof.
  intros Hp. unfold passo. rewrite Hp, extrair_campos_cnis.
  cbn [res_bind fst snd]. eexists. split; [reflexivity |].
  rewrite i_nome_renomeado. reflexivity.
Qed.

Lemma passo_Some_pis (form_files : gmap str file_storage) (st : dados * list info_doc)
    (file : file_storage) :
  processado form_files (py "pis") = Some file ->
  exists info,
    passo form_files (py "pis") st
    = Ok (set_pis (extrair_pis (texto_de file)) st.1, st.2 ++ [info])
    /\ i_nome info = None.
Proof.
  intros Hp. unfold passo. rewrite Hp, extrair_campos_pis.
  cbn [res_bind fst snd]. eexists. split; [reflexivity |].
  rewrite i_nome_renomeado. reflexivity.
Qed.

Lemma passo_Some_mei (form_files : gmap str file_storage) (st : dados * list info_doc)
    (file : file_storage) :
  processado form_files (py "mei") = Some file ->
  exists info,
    passo form_files (py "mei") st
    = Ok (set_mei (py "Enviado") st.1, st.2 ++ [info])
    /\ i_nome info = None.
Proof.
  intros Hp. unfold passo. rewrite Hp, extrair_campos_mei.
  cbn [res_bind fst snd]. eexists. split; [reflexivity |].
  rewrite i_nome_renomeado. reflexivity.
Qed.

(** The record and the documents the loop ends with. *)
Lemma laco_puro_spec (form_files : gmap str file_storage) :
  exists d docs,
    laco_puro form_files = Ok (d, docs)
    /\ d_rg d = None /\ d_certidao d = None /\ d_cnis d = None /\ d_elegibilidade d = None
    /\ d_nome d = (fun f => extrair_nome (texto_de f)) <$> ultimo_com_nome form_files
    /\ d_cpf d = (fun f => extrair_cpf (texto_de f)) <$> ultimo_com_nome form_files
    /\ d_cpf_valido d
       = (fun f => validar_cpf_spec (extrair_cpf (texto_de f))) <$> ultimo_com_nome form_files
    /\ d_pis d = (fun f => extrair_pis (texto_de f)) <$> processado form_files (py "pis")
    /\ d_mei d = (fun _ => py "Enviado") <$> processado form_files (py "mei")
    /\ d_contribuicoes d
       = (fun f => extrair_contribuicoes (texto_de f)) <$> processado form_files (py "cnis")
    /\ map i_nome docs = nomes_nos_documentos form_files.
Proof.
  unfold laco_puro, nomes_nos_documentos, nome_no_documento, ultimo_com_nome, campos.
  cbn [res_foldM map concat].
  set (st0 := (dados_vazio, @nil info_doc)).
  destruct (processado form_files (py "rg")) as [f1 |] eqn:H1;
    [destruct (passo_Some_nome form_files (py "rg") st0 f1 H1 (or_introl eq_refl))
       as (i1 & -> & Hn1)
    | rewrite (passo_None form_files (py "rg") st0 H1)];
    cbn [res_bind];
    match goal with |- context [passo form_files (py "certidao") ?st] => set (st1 := st) end;
    (destruct (processado form_files (py "certidao")) as [f2 |] eqn:H2;
     [destruct (passo_Some_nome form_files (py "certidao") st1 f2 H2 (or_intror eq_refl))
        as (i2 & -> & Hn2)
     | rewrite (passo_None form_files (py "certidao") st1 H2)]);
    cbn [res_bind];
    match goal with |- context [passo form_files (py "cnis") ?st] => set (st2 := st) end;
    (destruct (processado form_files (py "cnis")) as [f3 |] eqn:H3;
     [destruct (passo_Some_cnis form_files st2 f3 H3) as (i3 & -> & Hn3)
     | rewrite (passo_None form_files (py "cnis") st2 H3)]);
    cbn [res_bind];
    match goal with |- context [passo form_files (py "pis") ?st] => set (st3 := st) end;
    (destruct (processado form_files (py "pis")) as [f4 |] eqn:H4;
     [destruct (passo_Some_pis form_files st3 f4 H4) as (i4 & -> & Hn4)
     | rewrite (passo_None form_files (py "pis") st3 H4)]);
    cbn [res_bind];
    match goal with |- context [passo form_files (py "mei") ?st] => set (st4 := st) end;
    (destruct (processado form_files (py "mei")) as [f5 |] eqn:H5;
     [destruct (passo_Some_mei form_files st4 f5 H5) as (i5 & -> & Hn5)
     | rewrite (passo_None form_files (py "mei") st4 H5)]);
    cbn [res_bind];
    eexists _, _; (split; [reflexivity |]);
    subst st0 st1 st2 st3 st4; cbn -[extrair_contribuicoes extrair_nome extrair_cpf
                                      extrair_pis validar_cpf_spec texto_de py union];
    rewrite ?map_app; cbn [map];
    rewrite ?Hn1, ?Hn2, ?Hn3, ?Hn4, ?Hn5, ?(right_id_L ∅ (∪));
    repeat split; reflexivity.
Qed.

(** What [dados_aggregados] returns is the record of the loop with the
    four final assignments. *)
Lemma dados_aggregados_Ok (form_files : gmap str file_storage) (form_data : gmap str str)
    (disk disk' : disco) (d : dados) :
  dados_aggregados form_files form_data disk = (Ok d, disk') ->
  exists d0 docs beneficio,
    laco_puro form_files = Ok (d0, docs)
    /\ d = set_finais (form_data !! py "ocupacao") beneficio docs
             (inconsistencia_nomes docs) d0.
Proof.
  intros Hd.
  destruct (dados_aggregados_run form_files form_data disk)
    as [[disk1 Hrun] | (e & disk1 & _ & Hrun & _)];
    rewrite Hrun in Hd; [| discriminate].
  injection Hd as Hd _. unfold dados_puros in Hd.
  destruct (laco_puro form_files) as [[d0 docs] | e]; [| discriminate].
  cbn [res_bind fst snd] in Hd.
  destruct (match d_contribuicoes d0 with Some _ => _ | None => _ end) as [b | e];
    [| discriminate].
  injection Hd as <-. exists d0, docs, b. split; reflexivity.
Qed.

(** When the loop completes, the pipeline returns a record exactly when no
    contribution was extracted; otherwise the benefit estimate raises. *)
Lemma dados_aggregados_returns (form_files : gmap str file_storage)
    (form_data : gmap str str) (disk disk' : disco) (st : dados * list info_doc) :
  laco_campos form_files disk = (Ok st, disk') ->
  (exists d, fst (dados_aggregados form_files form_data disk) = Ok d)
  <-> match processado form_files (py "cnis") with
      | Some file => extrair_contribuicoes (texto_de file) = ∅
      | None => True
      end.
Proof.
  intros Hl.
  rewrite (proj1 (laco_campos_completo form_files form_data disk disk' st Hl)).
  unfold dados_puros.
  destruct (laco_puro_spec form_files)
    as (d0 & docs & -> & _ & _ & _ & _ & _ & _ & _ & _ & _ & Hc & _).
  cbn [res_bind fst snd]. rewrite Hc.
  destruct (processado form_files (py "cnis")) as [file |]; cbn [fmap option_fmap option_map].
  - rewrite calcular_beneficio_cases.
    destruct (bool_decide (extrair_contribuicoes (texto_de file) = ∅)) eqn:He.
    + apply bool_decide_eq_true in He. split; [intros _; exact He | intros _; eexists; reflexivity].
    + apply bool_decide_eq_false in He. split; [intros [d Hd]; discriminate | contradiction].
  - split; [intros _; exact I | intros _; eexists; reflexivity].
Qed.


(** C4 (as amended). In every run whose loop completes, when the last
    name-bearing document the loop processes (the birth certificate when
    one passes the gate, else the identity document) yields a tax ID, the
    record holds that tax ID, also when an earlier document yielded another
    one, and its validity flag is the checksum validation of that tax ID. *)
Theorem dados_aggregados_cpf (form_files : gmap str file_storage)
    (form_data : gmap str str) (disk : disco) (file : file_storage) :
  ultimo_com_nome form_files = Some file ->
  extrair_cpf (texto_de file) <> nao_encontrado ->
  validar_cpf (extrair_cpf (texto_de file))
  = Ok (validar_cpf_spec (extrair_cpf (texto_de file)))
  /\ (forall st disk',
        laco_campos form_files disk = (Ok st, disk') ->
        d_cpf st.1 = Some (extrair_cpf (texto_de file))
        /\ d_cpf_valido st.1 = Some (validar_cpf_spec (extrair_cpf (texto_de file))))
  /\ (forall d disk',
        dados_aggregados form_files form_data disk = (Ok d, disk') ->
        d_cpf d = Some (extrair_cpf (texto_de file))
        /\ d_cpf_valido d = Some (validar_cpf_spec (extrair_cpf (texto_de file)))
        /\ r_cpf (gerar_relatorio d) = Some (extrair_cpf (texto_de file))
        /\ r_cpf_valido (gerar_relatorio d)
           = Some (validar_cpf_spec (extrair_cpf (texto_de file)))).
Proof.
  intros Hu _. split; [apply validar_cpf_is_spec |].
  destruct (laco_puro_spec form_files)
    as (d0 & docs & Hl & _ & _ & _ & _ & _ & Hcpf & Hval & _).
  rewrite Hu in Hcpf, Hval. cbn in Hcpf, Hval. split.
  - intros st disk' Hrun. apply laco_campos_Ok in Hrun.
    rewrite Hl in Hrun. injection Hrun as <-. split; assumption.
  - intros d disk' Hd. apply dados_aggregados_Ok in Hd.
    destruct Hd as (d0' & docs' & b & Hl' & ->). rewrite Hl in Hl'. injection Hl' as <- <-.
    cbn. repeat split; assumption.
Qed.

(** ** Required documents *)

Lemma verificar_documentos_elem (d : dados) (x : str) :
  x ∈ verificar_documentos_obrigatorios d <->
  exists doc, x = upper doc /\ doc ∈ obrigatorios_de (d_ocupacao d)
              /\ truthy (dados_get_doc d doc) = false.
Proof.
  unfold verificar_documentos_obrigatorios, obrigatorios_de.
  rewrite list_elem_of_fmap.
  assert (Hl : (if bool_decide (d_ocupacao d = Some (py "MEI"))
                then [py "rg"; py "certidao"; py "cnis"; py "pis"] ++ [py "mei"]
                else [py "rg"; py "certidao"; py "cnis"; py "pis"])
               = [py "rg"; py "certidao"; py "cnis"; py "pis"]
                 ++ (if bool_decide (d_ocupacao d = Some (py "MEI")) then [py "mei"] else [])).
  { destruct (bool_decide _); reflexivity. }
  rewrite Hl. split.
  - intros (doc & -> & Hin). apply list_elem_of_In, filter_In in Hin.
    destruct Hin as [Hin Hf]. exists doc. split; [reflexivity |].
    split; [apply list_elem_of_In; exact Hin | apply negb_true_iff; exact Hf].
  - intros (doc & -> & Hin & Hf). exists doc. split; [reflexivity |].
    apply list_elem_of_In, filter_In. split; [apply list_elem_of_In; exact Hin |].
    apply negb_true_iff; exact Hf.
Qed.

Lemma verificar_documentos_PIS (d : dados) :
  py "PIS" ∈ verificar_documentos_obrigatorios d <-> truthy (d_pis d) = false.
Proof.
  rewrite verificar_documentos_elem. unfold obrigatorios_de. split.
  - intros (doc & Hx & Hin & Hf).
    rewrite elem_of_app, !elem_of_cons, elem_of_nil in Hin.
    destruct Hin as [[-> | [-> | [-> | [-> | []]]]] | Hin]; try discriminate Hx.
    + exact Hf.
    + destruct (bool_decide _); [| apply elem_of_nil in Hin; contradiction].
      apply list_elem_of_singleton in Hin. subst doc. discriminate Hx.
  - intros Hf. exists (py "pis"). split; [reflexivity |]. split; [| exact Hf].
    rewrite elem_of_app, !elem_of_cons. left. tauto.
Qed.

Lemma verificar_documentos_MEI (d : dados) :
  py "MEI" ∈ verificar_documentos_obrigatorios d <->
  d_ocupacao d = Some (py "MEI") /\ truthy (d_mei d) = false.
Proof.
  rewrite verificar_documentos_elem. unfold obrigatorios_de. split.
  - intros (doc & Hx & Hin & Hf).
    rewrite elem_of_app, !elem_of_cons, elem_of_nil in Hin.
    destruct Hin as [[-> | [-> | [-> | [-> | []]]]] | Hin]; try discriminate Hx.
    destruct (bool_decide (d_ocupacao d = Some (py "MEI"))) eqn:Ho;
      [| apply elem_of_nil in Hin; contradiction].
    apply bool_decide_eq_true in Ho. apply list_elem_of_singleton in Hin. subst doc.
    split; [exact Ho | exact Hf].
  - intros [Ho Hf]. exists (py "mei"). split; [reflexivity |]. split; [| exact Hf].
    rewrite elem_of_app. right. rewrite bool_decide_eq_true_2 by exact Ho.
    apply list_elem_of_here.
Qed.

(** C5 (as amended). The missing documents are the required ones (the
    four base documents, and the self-employment proof exactly when the
    occupation is MEI) for which the record holds no entry. For the
    social-insurance card and the self-employment proof the record holds
    an entry exactly when a document of that type was supplied and passed
    the quality gate; with another occupation than MEI the self-employment
    proof is never missing. *)
Theorem verificar_documentos_pipeline :
  (forall d x,
     x ∈ verificar_documentos_obrigatorios d <->
     exists doc, x = upper doc /\ doc ∈ obrigatorios_de (d_ocupacao d)
                 /\ truthy (dados_get_doc d doc) = false)
  /\ (forall form_files form_data disk d disk',
        dados_aggregados form_files form_data disk = (Ok d, disk') ->
        r_informacoes_incompletas (gerar_relatorio d) = verificar_documentos_obrigatorios d
        /\ (py "PIS" ∈ verificar_documentos_obrigatorios d <->
            processado form_files (py "pis") = None)
        /\ (py "MEI" ∈ verificar_documentos_obrigatorios d <->
            form_data !! py "ocupacao" = Some (py "MEI")
            /\ processado form_files (py "mei") = None)).
Proof.
  split; [exact verificar_documentos_elem |].
  intros form_files form_data disk d disk' Hd. apply dados_aggregados_Ok in Hd.
  destruct Hd as (d0 & docs & b & Hl & ->).
  destruct (laco_puro_spec form_files)
    as (d0' & docs' & Hl' & _ & _ & _ & _ & _ & _ & _ & Hpis & Hmei & _).
  rewrite Hl in Hl'. injection Hl' as <- <-.
  split; [reflexivity |]. split.
  - rewrite verificar_documentos_PIS. cbn [d_pis set_finais]. rewrite Hpis.
    destruct (processado form_files (py "pis")) as [f |];
      cbn [fmap option_fmap option_map].
    + rewrite (truthy_Some _ (extrair_pis_nonempty (texto_de f))). split; discriminate.
    + split; reflexivity.
  - rewrite verificar_documentos_MEI. cbn [d_mei d_ocupacao set_finais]. rewrite Hmei.
    destruct (processado form_files (py "mei")) as [f |];
      cbn [fmap option_fmap option_map].
    + split; intros [_ Hf]; discriminate.
    + split; intros [Ho _]; (split; [exact Ho | reflexivity]).
Qed.

(** ** Name consistency *)

Lemma size_list_to_set_gt1 (l : list str) :
  (1 < size (list_to_set l : gset str))%nat <-> exists a b, a ∈ l /\ b ∈ l /\ a <> b.
Proof.
  split.
  - intros Hs. destruct l as [| a l]; [rewrite list_to_set_nil, size_empty in Hs; lia |].
    destruct (decide (Forall (eq a) l)) as [Hall | Hnot].
    + exfalso. assert (Heq : (list_to_set (a :: l) : gset str) = {[a]}).
      { apply set_eq. intros x. rewrite elem_of_list_to_set, elem_of_cons, elem_of_singleton.
        split; [| tauto]. intros [-> | Hx]; [reflexivity |].
        rewrite Forall_forall in Hall. symmetry. apply Hall, Hx. }
      rewrite Heq, size_singleton in Hs. lia.
    + apply not_Forall_Exists in Hnot; [| intros x; apply _].
      apply Exists_exists in Hnot. destruct Hnot as (b & Hb & Hab).
      exists a, b. split; [apply list_elem_of_here |].
      split; [apply list_elem_of_further; exact Hb | exact Hab].
  - intros (a & b & Ha & Hb & Hab).
    assert (Hsub : ({[a]} ∪ {[b]} : gset str) ⊆ list_to_set l).
    { intros x. rewrite elem_of_union, !elem_of_singleton, elem_of_list_to_set.
      intros [-> | ->]; assumption. }
    apply subseteq_size in Hsub.
    rewrite size_union, !size_singleton in Hsub; [lia |].
    intros x. rewrite !elem_of_singleton. intros -> Hx. apply Hab. exact Hx.
Qed.

Lemma nomes_de_elem (docs : list info_doc) (x : str) :
  x ∈ nomes_de docs <-> exists n, candidato docs n /\ x = lower n.
Proof.
  unfold nomes_de, candidato. rewrite list_elem_of_fmap. split.
  - intros (doc & -> & Hin). apply list_elem_of_In, filter_In in Hin.
    destruct Hin as [Hin Hf]. apply andb_true_iff in Hf. destruct Hf as [Ht Hs].
    apply negb_true_iff, bool_decide_eq_false in Hs.
    destruct (i_nome doc) as [[| c n] |] eqn:Hn; try discriminate Ht.
    exists (c :: n). split; [| reflexivity].
    exists doc. split; [apply list_elem_of_In; exact Hin |].
    split; [exact Hn |]. split; [discriminate | congruence].
  - intros (n & (doc & Hin & Hn & Hne & Hs) & ->). exists doc. rewrite Hn.
    split; [reflexivity |]. apply list_elem_of_In, filter_In.
    split; [apply list_elem_of_In; exact Hin |]. rewrite Hn.
    apply andb_true_iff. split; [apply truthy_Some; exact Hne |].
    apply negb_true_iff, bool_decide_eq_false. congruence.
Qed.

Lemma inconsistencia_nomes_cases (docs : list info_doc) :
  inconsistencia_nomes docs
  = if bool_decide (1 < size (list_to_set (nomes_de docs) : gset str))%nat
    then py "Inconsistência nos nomes extraídos. Verifique manualmente."
    else py "OK".
Proof.
  unfold inconsistencia_nomes.
  destruct (nomes_de docs) as [| x l] eqn:Hn.
  - rewrite list_to_set_nil, size_empty. reflexivity.
  - rewrite (bool_decide_eq_false_2 (x :: l = [])) by discriminate. cbn [negb andb].
    destruct (Nat.ltb_spec 1 (size (list_to_set (x :: l) : gset str))) as [Hlt | Hge].
    + rewrite bool_decide_eq_true_2 by exact Hlt. reflexivity.
    + rewrite bool_decide_eq_false_2 by lia. reflexivity.
Qed.

Lemma nomes_distintos (docs : list info_doc) :
  (1 < size (list_to_set (nomes_de docs) : gset str))%nat <->
  exists n1 n2, candidato docs n1 /\ candidato docs n2 /\ lower n1 <> lower n2.
Proof.
  rewrite size_list_to_set_gt1. split.
  - intros (a & b & Ha & Hb & Hab).
    apply nomes_de_elem in Ha, Hb. destruct Ha as (n1 & Hc1 & ->), Hb as (n2 & Hc2 & ->).
    exists n1, n2. repeat split; assumption.
  - intros (n1 & n2 & Hc1 & Hc2 & Hne). exists (lower n1), (lower n2).
    split; [apply nomes_de_elem; exists n1; split; [exact Hc1 | reflexivity] |].
    split; [apply nomes_de_elem; exists n2; split; [exact Hc2 | reflexivity] | exact Hne].
Qed.

(** C8. The result is "OK" exactly when all the candidate names (those of
    the processed documents that are not empty and not the not-found
    sentinel) agree once lowered, that is when at most one distinct value
    remains, and it is the inconsistency message exactly when two of them
    differ once lowered. The pipeline stores this result, computed on the
    names extracted from the identity document and the birth certificate
    that passed the gate. "Maria Silva" and "maria silva" are consistent,
    "Maria Silva" and "Ana Souza" are not. *)
Theorem inconsistencia_nomes_distinct :
  (forall docs,
     (inconsistencia_nomes docs = py "OK" <->
      forall n1 n2, candidato docs n1 -> candidato docs n2 -> lower n1 = lower n2)
     /\ (inconsistencia_nomes docs
         = py "Inconsistência nos nomes extraídos. Verifique manualmente." <->
         exists n1 n2, candidato docs n1 /\ candidato docs n2 /\ lower n1 <> lower n2))
  /\ (forall form_files form_data disk d disk',
        dados_aggregados form_files form_data disk = (Ok d, disk') ->
        d_inconsistencia_nomes d = Some (inconsistencia_nomes (d_documentos d))
        /\ map i_nome (d_documentos d) = nomes_nos_documentos form_files)
  /\ inconsistencia_nomes
       [documento_com_nome "RG" "Maria Silva"; documento_com_nome "CERTIDAO" "maria silva"]
     = py "OK"
  /\ inconsistencia_nomes
       [documento_com_nome "RG" "Maria Silva"; documento_com_nome "CERTIDAO" "Ana Souza"]
     = py "Inconsistência nos nomes extraídos. Verifique manualmente.".
Proof.
  split; [| split; [| split; vm_compute; reflexivity]].
  - intros docs. rewrite inconsistencia_nomes_cases.
    destruct (bool_decide (1 < size (list_to_set (nomes_de docs) : gset str))%nat) eqn:Hb.
    + apply bool_decide_eq_true, nomes_distintos in Hb. split.
      * split; [discriminate |]. intros Hall. exfalso.
        destruct Hb as (n1 & n2 & Hc1 & Hc2 & Hne). apply Hne, Hall; assumption.
      * split; [intros _; exact Hb | reflexivity].
    + apply bool_decide_eq_false in Hb. rewrite nomes_distintos in Hb. split.
      * split; [| reflexivity]. intros _ n1 n2 Hc1 Hc2.
        destruct (decide (lower n1 = lower n2)) as [Heq | Hne]; [exact Heq |].
        exfalso. apply Hb. exists n1, n2. repeat split; assumption.
      * split; [discriminate |]. intros Hex. contradiction.
  - intros form_files form_data disk d disk' Hd. apply dados_aggregados_Ok in Hd.
    destruct Hd as (d0 & docs & b & Hl & ->).
    destruct (laco_puro_spec form_files)
      as (d0' & docs' & Hl' & _ & _ & _ & _ & _ & _ & _ & _ & _ & _ & Hn).
    rewrite Hl in Hl'. injection Hl' as <- <-.
    split; [reflexivity | exact Hn].
Qed.

(** C10. Whenever the number of digits left after stripping the non-digits
    differs from 11, in either direction, the validator answers false. *)
Theorem validar_cpf_length_guard (cpf : str) :
  length (so_digitos cpf) <> 11%nat -> validar_cpf cpf = Ok false.
Proof.
  intros Hlen. rewrite validar_cpf_is_spec, validar_cpf_spec_length; [reflexivity | exact Hlen].
Qed.

(** ** Tax IDs: punctuation and check digits *)

Lemma isdigit_ponto : isdigit 46 = false.
Proof. reflexivity. Qed.

Lemma isdigit_hifen : isdigit 45 = false.
Proof. reflexivity. Qed.

Lemma so_digitos_app (a b : str) : so_digitos (a ++ b) = so_digitos a ++ so_digitos b.
Proof. unfold so_digitos. apply List.filter_app. Qed.

Lemma so_digitos_id (w : str) : so_de_digitos w -> so_digitos w = w.
Proof.
  unfold so_de_digitos, so_digitos. induction 1 as [| c w Hc _ IH]; [reflexivity |].
  cbn [List.filter]. rewrite Hc, IH. reflexivity.
Qed.

Lemma so_digitos_pontuacao (a b c d : str) :
  so_de_digitos a -> so_de_digitos b -> so_de_digitos c -> so_de_digitos d ->
  so_digitos (a ++ py "." ++ b ++ py "." ++ c ++ py "-" ++ d) = a ++ b ++ c ++ d.
Proof.
  intros Ha Hb Hc Hd. rewrite !so_digitos_app.
  rewrite (so_digitos_id a Ha), (so_digitos_id b Hb), (so_digitos_id c Hc), (so_digitos_id d Hd).
  reflexivity.
Qed.

Lemma formatar_cpf_app (a b c d : str) :
  length a = 3%nat -> length b = 3%nat -> length c = 3%nat ->
  formatar_cpf (a ++ b ++ c ++ d) = a ++ py "." ++ b ++ py "." ++ c ++ py "-" ++ d.
Proof.
  intros Ha Hb Hc. unfold formatar_cpf.
  do 4 (destruct a as [| ? a]; try discriminate Ha).
  do 4 (destruct b as [| ? b]; try discriminate Hb).
  do 4 (destruct c as [| ? c]; try discriminate Hc).
  reflexivity.
Qed.

Lemma onze_digitos_partes (g : str) :
  onze_digitos g ->
  exists a b c d,
    g = a ++ b ++ c ++ d
    /\ length a = 3%nat /\ length b = 3%nat /\ length c = 3%nat /\ length d = 2%nat
    /\ so_de_digitos a /\ so_de_digitos b /\ so_de_digitos c /\ so_de_digitos d.
Proof.
  intros [Hl Hd].
  exists (take 3 g), (take 3 (drop 3 g)), (take 3 (drop 6 g)), (drop 9 g).
  unfold so_de_digitos in *.
  split.
  { do 12 (destruct g as [| ? g]; try discriminate Hl). reflexivity. }
  rewrite !length_take, !length_drop, Hl.
  repeat split; try reflexivity;
    repeat first [apply Forall_take | apply Forall_drop]; exact Hd.
Qed.

Lemma formatar_cpf_pontuado (g : str) :
  onze_digitos g -> cpf_pontuado (formatar_cpf g) /\ so_digitos (formatar_cpf g) = g.
Proof.
  intros Hg. destruct (onze_digitos_partes g Hg)
    as (a & b & c & d & -> & La & Lb & Lc & Ld & Da & Db & Dc & Dd).
  rewrite (formatar_cpf_app a b c d La Lb Lc). split.
  - exists a, b, c, d. repeat split; assumption.
  - apply so_digitos_pontuacao; assumption.
Qed.

Lemma cpf_pontuado_digitos (w : str) :
  cpf_pontuado w -> onze_digitos (so_digitos w) /\ formatar_cpf (so_digitos w) = w.
Proof.
  intros (a & b & c & d & -> & La & Lb & Lc & Ld & Da & Db & Dc & Dd).
  rewrite (so_digitos_pontuacao a b c d Da Db Dc Dd). split.
  - split.
    + rewrite !length_app. lia.
    + unfold so_de_digitos in *. repeat (apply Forall_app; split); assumption.
  - apply formatar_cpf_app; assumption.
Qed.

(** X1. Punctuating a bare run of 11 digits as the extractor does gives a
    canonical punctuated tax ID whose digits are the run again, and the
    validator gives the same answer on both; stripping a canonical
    punctuated tax ID and punctuating the digits gives it back. The
    validator reads the digits of its argument only. *)
Theorem formatar_cpf_round_trip :
  (forall g, onze_digitos g ->
     cpf_pontuado (formatar_cpf g)
     /\ so_digitos (formatar_cpf g) = g
     /\ validar_cpf (formatar_cpf g) = validar_cpf g)
  /\ (forall w, cpf_pontuado w ->
        onze_digitos (so_digitos w) /\ formatar_cpf (so_digitos w) = w)
  /\ (forall cpf cpf', so_digitos cpf = so_digitos cpf' -> validar_cpf cpf = validar_cpf cpf').
Proof.
  split; [| split; [exact cpf_pontuado_digitos |]].
  - intros g Hg. destruct (formatar_cpf_pontuado g Hg) as [Hp Hs].
    split; [exact Hp |]. split; [exact Hs |].
    rewrite !validar_cpf_is_spec. unfold validar_cpf_spec.
    rewrite Hs, (so_digitos_id g (proj2 Hg)). reflexivity.
  - intros cpf cpf' Heq. rewrite !validar_cpf_is_spec. unfold validar_cpf_spec.
    rewrite Heq. reflexivity.
Qed.

Lemma extrair_cpf_sentinela : extrair_cpf nao_encontrado = nao_encontrado.
Proof.
  cbv -[uni_decimal].
  destruct (uni_decimal 227%N); reflexivity.
Qed.

Lemma validar_cpf_sentinela : validar_cpf nao_encontrado = Ok false.
Proof.
  cbv -[uni_decimal].
  destruct (uni_decimal 227%N); reflexivity.
Qed.

Lemma extrair_cpf_forma (texto : str) :
  extrair_cpf texto = nao_encontrado \/ cpf_pontuado (extrair_cpf texto).
Proof.
  unfold extrair_cpf.
  destruct (re_search padrao_cpf texto) as [ms |] eqn:Hs.
  - right. apply re_search_Some in Hs. destruct Hs as (pre & suf & r & _ & Hm & _).
    apply (match_seq_exact _ _ _ _ padrao_cpf_exato) in Hm. apply casa_padrao_cpf, Hm.
  - destruct (re_search padrao2_cpf texto) as [ms |] eqn:Hs2; [| left; reflexivity].
    right. apply re_search_Some in Hs2. destruct Hs2 as (pre & suf & r & _ & Hm & _).
    apply (match_seq_exact _ _ _ _ padrao2_cpf_exato) in Hm.
    destruct Hm as [_ Hm]. apply casa_padrao2_cpf in Hm.
    apply (formatar_cpf_pontuado _ Hm).
Qed.

Lemma extrair_cpf_pontuado_id (w : str) : cpf_pontuado w -> extrair_cpf w = w.
Proof.
  intros Hw.
  assert (Hp : primeira cpf_pontuado w 0 w).
  { split.
    - split; [exact Hw |]. exists [], []. rewrite app_nil_r. split; reflexivity.
    - intros j w' _. lia. }
  destruct (re_search_primeira padrao_cpf cpf_pontuado padrao_cpf_exato
              casa_padrao_cpf cpf_pontuado_casa w 0 w Hp) as (ms & Hs & Hc).
  unfold extrair_cpf. rewrite Hs. exact Hc.
Qed.

(** X2. Whatever the text, the tax-ID extractor returns the not-found
    sentinel or a canonical punctuated tax ID (3 digits, dot, 3 digits,
    dot, 3 digits, dash, 2 digits); it is idempotent; the validator rejects
    the sentinel, and any other result holds exactly 11 digits, so it passes
    the length guard of the validator. *)
Theorem extrair_cpf_shape (texto : str) :
  (extrair_cpf texto = nao_encontrado \/ cpf_pontuado (extrair_cpf texto))
  /\ extrair_cpf (extrair_cpf texto) = extrair_cpf texto
  /\ (extrair_cpf texto = nao_encontrado -> validar_cpf (extrair_cpf texto) = Ok false)
  /\ (extrair_cpf texto <> nao_encontrado ->
      length (so_digitos (extrair_cpf texto)) = 11%nat).
Proof.
  pose proof (extrair_cpf_forma texto) as Hf.
  split; [exact Hf |]. split; [| split].
  - destruct Hf as [-> | Hp]; [apply extrair_cpf_sentinela | apply extrair_cpf_pontuado_id, Hp].
  - intros ->. apply validar_cpf_sentinela.
  - intros Hne. destruct Hf as [Hs | Hp]; [contradiction |].
    apply cpf_pontuado_digitos in Hp. apply Hp.
Qed.

Lemma digitos_esperados_app (cs t : str) :
  length cs = 9%nat -> digitos_esperados (cs ++ t) = digitos_esperados cs.
Proof.
  intros Hl. unfold digitos_esperados.
  rewrite take_app_length' by lia. rewrite take_ge by lia. reflexivity.
Qed.

Lemma digitos_esperados_digitos (cs : str) : so_de_digitos (digitos_esperados cs).
Proof.
  unfold digitos_esperados, so_de_digitos.
  repeat constructor; apply isdigit_char_de_digito, digito_verificador_range.
Qed.

(** X3. Every body of nine digits has exactly one pair of check digits:
    with two more characters appended, the validator answers true exactly
    when they are the two check digits of the body and the eleven digits
    are not all identical. The ten strings of one repeated ASCII digit do
    carry their own check digits, so it is the identical-digits guard alone
    that rejects them. *)
Theorem validar_cpf_check_digits :
  (forall cs a b,
     length cs = 9%nat -> so_de_digitos cs ->
     (validar_cpf (cs ++ [a; b]) = Ok true <->
      [a; b] = digitos_esperados cs /\ todos_iguais (cs ++ [a; b]) = false))
  /\ (forall v, (0 <= v <= 9)%Z ->
        digitos_esperados (replicate 9 (char_de_digito v)) = replicate 2 (char_de_digito v)
        /\ validar_cpf (replicate 11 (char_de_digito v)) = Ok false).
Proof.
  split.
  - intros cs a b Hl Hd. rewrite validar_cpf_is_spec. unfold validar_cpf_spec.
    rewrite so_digitos_app, (so_digitos_id cs Hd).
    destruct (isdigit a) eqn:Ha, (isdigit b) eqn:Hb.
    + assert (Hab : so_digitos [a; b] = [a; b]).
      { unfold so_digitos. cbn [List.filter]. rewrite Ha, Hb. reflexivity. }
      rewrite Hab, length_app, Hl. cbn [length Nat.add Nat.eqb negb orb].
      rewrite drop_app_length' by lia. rewrite (digitos_esperados_app cs [a; b] Hl).
      destruct (todos_iguais (cs ++ [a; b])).
      * split; [discriminate | intros [_ Hf]; discriminate].
      * split.
        -- intros [= Hv]. apply bool_decide_eq_true in Hv. split; [exact Hv | reflexivity].
        -- intros [Hv _]. f_equal. apply bool_decide_eq_true. exact Hv.
    + split.
      * assert (Hab : so_digitos [a; b] = [a]).
        { unfold so_digitos. cbn [List.filter]. rewrite Ha, Hb. reflexivity. }
        rewrite Hab, length_app, Hl. cbn. discriminate.
      * intros [He _]. pose proof (digitos_esperados_digitos cs) as Hdig.
        rewrite <- He in Hdig. unfold so_de_digitos in Hdig.
        apply Forall_cons in Hdig. destruct Hdig as [_ Hdig].
        apply Forall_cons in Hdig. destruct Hdig as [Hb' _]. congruence.
    + split.
      * assert (Hab : so_digitos [a; b] = [b]).
        { unfold so_digitos. cbn [List.filter]. rewrite Ha, Hb. reflexivity. }
        rewrite Hab, length_app, Hl. cbn. discriminate.
      * intros [He _]. pose proof (digitos_esperados_digitos cs) as Hdig.
        rewrite <- He in Hdig. unfold so_de_digitos in Hdig.
        apply Forall_cons in Hdig. destruct Hdig as [Ha' _]. congruence.
    + split.
      * assert (Hab : so_digitos [a; b] = []).
        { unfold so_digitos. cbn [List.filter]. rewrite Ha, Hb. reflexivity. }
        rewrite Hab, length_app, Hl. cbn. discriminate.
      * intros [He _]. pose proof (digitos_esperados_digitos cs) as Hdig.
        rewrite <- He in Hdig. unfold so_de_digitos in Hdig.
        apply Forall_cons in Hdig. destruct Hdig as [Ha' _]. congruence.
  - intros v Hv.
    assert (Hc : (v = 0 \/ v = 1 \/ v = 2 \/ v = 3 \/ v = 4 \/ v = 5 \/ v = 6 \/ v = 7
                 \/ v = 8 \/ v = 9)%Z) by lia.
    repeat (destruct Hc as [-> | Hc]; [split; reflexivity |]). subst v. split; reflexivity.
Qed.

(** ** Reading a PDF *)

Lemma texto_paginas_erro (antes depois : list (option str)) (texto : str) :
  texto_paginas (antes ++ None :: depois) texto = texto_paginas antes texto.
Proof.
  revert texto. induction antes as [| [conteudo |] antes IH]; intros texto.
  - reflexivity.
  - cbn [app texto_paginas]. apply IH.
  - reflexivity.
Qed.

Lemma texto_paginas_concat (conteudos : list str) (texto : str) :
  texto_paginas (map Some conteudos) texto
  = texto ++ concat (map (fun c => if bool_decide (c = []) then [] else c ++ [10%N]) conteudos).
Proof.
  revert texto. induction conteudos as [| c conteudos IH]; intros texto.
  - cbn. rewrite app_nil_r. reflexivity.
  - cbn [map texto_paginas concat]. rewrite IH.
    destruct (bool_decide (c = [])); [reflexivity |].
    rewrite <- !app_assoc. reflexivity.
Qed.

(** X4. The text [extrair_texto_pdf] returns for a PDF of any number of
    pages. When none of the first [max_paginas] pages raises (all the pages,
    for a PDF with fewer), it is the text of each non-empty one of them, in
    order, each followed by a line feed; the pages after the first
    [max_paginas] are not read, so they change nothing. A page among them
    whose extraction raises ends the reading, and the text of the pages
    before it is returned. A path that holds no file, or a file that cannot
    be opened as a PDF, gives the empty text instead of an exception. *)
Theorem extrair_texto_pdf_pages {D} `{Lookup str arquivo D} (disk : D) (caminho : str)
    (max_paginas : nat) :
  (forall a pags conteudos,
     disk !! caminho = Some a -> paginas a = Some pags ->
     take max_paginas pags = map Some conteudos ->
     extrair_texto_pdf disk caminho max_paginas
     = concat (map (fun c => if bool_decide (c = []) then [] else c ++ [10%N]) conteudos))
  /\ (forall a conteudos resto,
        disk !! caminho = Some a -> paginas a = Some (map Some conteudos ++ resto) ->
        length conteudos = max_paginas ->
        extrair_texto_pdf disk caminho max_paginas
        = concat (map (fun c => if bool_decide (c = []) then [] else c ++ [10%N]) conteudos))
  /\ (forall a conteudos depois,
        disk !! caminho = Some a ->
        paginas a = Some (map Some conteudos ++ None :: depois) ->
        (length conteudos < max_paginas)%nat ->
        extrair_texto_pdf disk caminho max_paginas
        = concat (map (fun c => if bool_decide (c = []) then [] else c ++ [10%N]) conteudos))
  /\ (disk !! caminho = None
      \/ (exists a, disk !! caminho = Some a /\ paginas a = None) ->
      extrair_texto_pdf disk caminho max_paginas = []).
Proof.
  assert (H1 : forall a pags conteudos,
             disk !! caminho = Some a -> paginas a = Some pags ->
             take max_paginas pags = map Some conteudos ->
             extrair_texto_pdf disk caminho max_paginas
             = concat (map (fun c => if bool_decide (c = []) then [] else c ++ [10%N])
                         conteudos)).
  { intros a pags conteudos Hd Hp Ht. unfold extrair_texto_pdf.
    rewrite Hd, Hp, Ht. apply (texto_paginas_concat conteudos []). }
  split; [exact H1 | split; [| split]].
  - intros a conteudos resto Hd Hp Hl. apply (H1 a _ conteudos Hd Hp).
    apply take_app_length'. rewrite length_map. symmetry. exact Hl.
  - intros a conteudos depois Hd Hp Hl. unfold extrair_texto_pdf. rewrite Hd, Hp.
    rewrite take_app_ge by (rewrite length_map; lia). rewrite length_map.
    destruct (max_paginas - length conteudos)%nat as [| k] eqn:Hk; [lia |].
    cbn [take]. rewrite texto_paginas_erro. apply (texto_paginas_concat conteudos []).
  - intros [Hd | (a & Hd & Hp)]; unfold extrair_texto_pdf.
    + rewrite Hd. reflexivity.
    + rewrite Hd, Hp. reflexivity.
Qed.

(** ** The quality gate and the quality verdict *)

Lemma validar_arquivo_aceito {D} `{Lookup str arquivo D} (disk : D) (caminho : str)
    (msg : str) :
  validar_arquivo disk caminho = Ok (true, msg) ->
  msg = py "Arquivo válido."
  /\ (exists a, disk !! caminho = Some a /\ (tamanho a <= MAX_CONTENT_LENGTH)%N)
  /\ lower (extensao_de caminho) = py ".pdf"
  /\ extrair_texto disk caminho = extrair_texto_pdf disk caminho 5
  /\ (50 <= length (strip (extrair_texto disk caminho)))%nat.
Proof.
  unfold validar_arquivo. destruct (disk !! caminho) as [a |]; [| discriminate].
  destruct (N.ltb_spec MAX_CONTENT_LENGTH (tamanho a)) as [Hgt | Hle]; [discriminate |].
  destruct (bool_decide (lower (extensao_de caminho) = py ".pdf")) eqn:He;
    cbn [negb]; [| discriminate].
  destruct (Nat.ltb_spec (length (strip (extrair_texto disk caminho))) 50) as [Hlt | Hge];
    [discriminate |].
  intros [= <-]. apply bool_decide_eq_true in He.
  split; [reflexivity |]. split; [exists a; split; [reflexivity | exact Hle] |].
  split; [exact He |]. split; [| exact Hge].
  unfold extrair_texto. rewrite bool_decide_eq_true_2 by exact He. reflexivity.
Qed.

Lemma verificar_qualidade_aceito (file : file_storage) :
  aceito file = true -> verificar_qualidade_texto (texto_de file) 50 = py "OK".
Proof.
  unfold aceito, texto_de, verificar_qualidade_texto.
  destruct (validar_arquivo (disco_de file) (caminho_temp_de file)) as [[[|] msg] | e] eqn:Hv;
    try discriminate.
  intros _. apply validar_arquivo_aceito in Hv. destruct Hv as (_ & _ & _ & _ & Hge).
  destruct (Nat.ltb_spec (length (strip (extrair_texto (disco_de file) (caminho_temp_de file))))
              50) as [Hlt | _]; [lia | reflexivity].
Qed.

Lemma processado_aceito (form_files : gmap str file_storage) (campo : str)
    (file : file_storage) :
  processado form_files campo = Some file ->
  form_files !! campo = Some file /\ filename file <> [] /\ aceito file = true.
Proof.
  unfold processado, enviado. destruct (form_files !! campo) as [f |]; [| discriminate].
  destruct (bool_decide (filename f = [])) eqn:Hn; [discriminate |].
  apply bool_decide_eq_false in Hn.
  destruct (aceito f) eqn:Ha; [| discriminate].
  intros [= <-]. repeat split; assumption.
Qed.

(** X5. A file passes [validar_arquivo] only when it exists, is at most
    5 MiB, has the extension [.pdf] in any letter case and its stripped
    text has at least 50 characters; the message is then "Arquivo válido.",
    the text read back is the text of the PDF (never the unsupported-format
    message) and [verificar_qualidade_texto], with its default threshold,
    answers "OK" on it. *)
Theorem validar_arquivo_gate {D} `{Lookup str arquivo D} (disk : D) (caminho : str)
    (msg : str) :
  validar_arquivo disk caminho = Ok (true, msg) ->
  msg = py "Arquivo válido."
  /\ (exists a, disk !! caminho = Some a /\ (tamanho a <= MAX_CONTENT_LENGTH)%N)
  /\ lower (extensao_de caminho) = py ".pdf"
  /\ extrair_texto disk caminho = extrair_texto_pdf disk caminho 5
  /\ (50 <= length (strip (extrair_texto disk caminho)))%nat
  /\ verificar_qualidade_texto (extrair_texto disk caminho) 50 = py "OK".
Proof.
  intros Hv. apply validar_arquivo_aceito in Hv.
  destruct Hv as (Hm & Ha & He & Ht & Hge). repeat split; try assumption.
  unfold verificar_qualidade_texto.
  destruct (Nat.ltb_spec (length (strip (extrair_texto disk caminho))) 50) as [Hlt | _];
    [lia | reflexivity].
Qed.

(** ** The documents the loop lists *)

Lemma extrair_campos_resumo (campo texto : str) (info : info_doc) (d : dados) :
  exists r, extrair_campos campo texto info d = Ok r /\ resumo r.1 = resumo info.
Proof.
  unfold extrair_campos.
  destruct (bool_decide (campo ∈ [py "rg"; py "certidao"])).
  { rewrite (bool_decide_eq_false_2 _ (extrair_cpf_nonempty texto)). cbn [negb].
    rewrite validar_cpf_is_spec. cbn [res_bind]. eexists. split; reflexivity. }
  destruct (bool_decide (campo = py "cnis")); [eexists; split; reflexivity |].
  destruct (bool_decide (campo = py "pis")); [eexists; split; reflexivity |].
  destruct (bool_decide (campo = py "mei")); eexists; split; reflexivity.
Qed.

Lemma resumo_renomeado (b : bool) (v : str) (i : info_doc) :
  resumo (if b then info_set_arquivo_renomeado v i else i) = resumo i.
Proof. destruct b; reflexivity. Qed.

Lemma passo_resumo (form_files : gmap str file_storage) (campo : str)
    (st : dados * list info_doc) :
  exists st',
    passo form_files campo st = Ok st'
    /\ map resumo st'.2 = map resumo st.2 ++ resumo_do_campo form_files campo.
Proof.
  unfold passo, resumo_do_campo.
  destruct (processado form_files campo) as [file |] eqn:Hp.
  - apply processado_aceito in Hp. destruct Hp as (_ & _ & Ha).
    rewrite (verificar_qualidade_aceito file Ha).
    destruct (extrair_campos_resumo campo (texto_de file)
                (info_nova (upper campo) (filename file) (py "OK")) st.1) as (r & -> & Hr).
    cbn [res_bind]. eexists. split; [reflexivity |].
    cbn [snd]. rewrite map_app. cbn [map]. rewrite resumo_renomeado, Hr. reflexivity.
  - exists st. split; [reflexivity |]. rewrite app_nil_r. reflexivity.
Qed.

Lemma res_foldM_resumo (form_files : gmap str file_storage) (l : list str)
    (st : dados * list info_doc) :
  exists st',
    res_foldM (passo form_files) l st = Ok st'
    /\ map resumo st'.2 = map resumo st.2 ++ concat (map (resumo_do_campo form_files) l).
Proof.
  revert st. induction l as [| campo l IH]; intros st.
  - exists st. split; [reflexivity |]. cbn. rewrite app_nil_r. reflexivity.
  - cbn [res_foldM]. destruct (passo_resumo form_files campo st) as (st1 & -> & H1).
    cbn [res_bind]. destruct (IH st1) as (st' & Hf & H2). exists st'.
    split; [exact Hf |]. rewrite H2, H1. cbn [map concat]. rewrite <- app_assoc. reflexivity.
Qed.

(** X6. When the loop over the five fields completes, the documents it
    lists are, in the fixed order RG, CERTIDAO, CNIS, PIS, MEI, one for each
    field whose upload is present and passes the quality gate, each under
    the name of its upload; their quality verdict is always "OK", since the
    gate has already required the 50 characters the verdict asks for. The
    report carries this list unchanged. The loop ends early in one way only:
    with the exception [file.save] raises on an upload; no other call in the
    loop raises. *)
Theorem documentos_processados_resumo (form_files : gmap str file_storage)
    (form_data : gmap str str) (disk : disco) :
  (forall st disk',
     laco_campos form_files disk = (Ok st, disk') ->
     map resumo st.2 = resumos_esperados form_files)
  /\ (forall r disk',
        processar_documentos form_files form_data disk = (Ok r, disk') ->
        map resumo (r_documentos_processados r) = resumos_esperados form_files)
  /\ (forall e disk',
        laco_campos form_files disk = (Raise e, disk') -> erro_de_save form_files e).
Proof.
  destruct (res_foldM_resumo form_files campos (dados_vazio, [])) as (st & Hl & Hr).
  cbn [snd map app] in Hr. fold (laco_puro form_files) in Hl.
  fold (resumos_esperados form_files) in Hr.
  split; [| split].
  - intros st' disk' Hrun. apply laco_campos_Ok in Hrun.
    rewrite Hl in Hrun. injection Hrun as <-. exact Hr.
  - intros r disk' Hp.
    destruct (processar_documentos_run form_files form_data disk)
      as [[disk1 Hrun] | (e & disk1 & _ & Hrun & _)];
      rewrite Hrun in Hp; [| discriminate].
    injection Hp as Hp _. unfold dados_puros in Hp.
    rewrite Hl in Hp. cbn [res_bind] in Hp.
    destruct (match d_contribuicoes st.1 with Some _ => _ | None => _ end) as [b | e];
      [| discriminate].
    cbn [res_bind] in Hp. injection Hp as <-. exact Hr.
  - intros e disk' Hrun.
    destruct (laco_campos_run form_files disk) as [[disk1 Hrun'] | (e' & disk1 & Hrun' & He)];
      rewrite Hrun' in Hrun.
    + rewrite Hl in Hrun. discriminate.
    + injection Hrun as <- _. exact He.
Qed.

(** ** The report of a run *)

Lemma verificar_documentos_lista (d : dados) :
  verificar_documentos_obrigatorios d
  = (if truthy (d_rg d) then [] else [py "RG"])
    ++ (if truthy (d_certidao d) then [] else [py "CERTIDAO"])
    ++ (if truthy (d_cnis d) then [] else [py "CNIS"])
    ++ (if truthy (d_pis d) then [] else [py "PIS"])
    ++ (if bool_decide (d_ocupacao d = Some (py "MEI")) && negb (truthy (d_mei d))
        then [py "MEI"] else []).
Proof.
  unfold verificar_documentos_obrigatorios.
  destruct (bool_decide (d_ocupacao d = Some (py "MEI")));
    cbn [app List.filter andb];
    change (dados_get_doc d (py "rg")) with (d_rg d);
    change (dados_get_doc d (py "certidao")) with (d_certidao d);
    change (dados_get_doc d (py "cnis")) with (d_cnis d);
    change (dados_get_doc d (py "pis")) with (d_pis d);
    try change (dados_get_doc d (py "mei")) with (d_mei d);
    destruct (truthy (d_rg d)), (truthy (d_certidao d)), (truthy (d_cnis d)),
      (truthy (d_pis d)); try destruct (truthy (d_mei d)); reflexivity.
Qed.

Lemma dados_puros_cases (form_files : gmap str file_storage) (form_data : gmap str str) :
  exists d0 docs,
    laco_puro form_files = Ok (d0, docs)
    /\ dados_puros form_files form_data
       = if bool_decide (contribuicoes_lidas form_files = ∅)
         then Ok (set_finais (form_data !! py "ocupacao") None docs
                    (inconsistencia_nomes docs) d0)
         else Raise (NameError (py "contribs")).
Proof.
  destruct (laco_puro_spec form_files)
    as (d0 & docs & Hl & _ & _ & _ & _ & _ & _ & _ & _ & _ & Hc & _).
  exists d0, docs. split; [exact Hl |].
  unfold dados_puros, contribuicoes_lidas. rewrite Hl. cbn [res_bind fst snd]. rewrite Hc.
  destruct (processado form_files (py "cnis")) as [f |]; cbn [fmap option_fmap option_map].
  - rewrite calcular_beneficio_cases. destruct (bool_decide _); reflexivity.
  - rewrite bool_decide_eq_true_2 by reflexivity. reflexivity.
Qed.

(** The report of a run that returns one: the report of the record of the
    loop, with the occupation of the form and no benefit estimate. *)
Lemma processar_documentos_Ok (form_files : gmap str file_storage)
    (form_data : gmap str str) (disk disk' : disco) (r : relatorio) :
  processar_documentos form_files form_data disk = (Ok r, disk') ->
  exists d0 docs,
    laco_puro form_files = Ok (d0, docs)
    /\ contribuicoes_lidas form_files = ∅
    /\ r = gerar_relatorio
             (set_finais (form_data !! py "ocupacao") None docs
                (inconsistencia_nomes docs) d0).
Proof.
  intros Hp.
  assert (Hf : Ok r = res_bind (dados_puros form_files form_data)
                         (fun d => Ok (gerar_relatorio d))).
  { destruct (processar_documentos_run form_files form_data disk)
      as [[disk1 Hrun] | (e & disk1 & _ & Hrun & _)];
      rewrite Hrun in Hp; [| discriminate].
    injection Hp as Hp _. symmetry. exact Hp. }
  destruct (dados_puros_cases form_files form_data) as (d0 & docs & Hl & Hd).
  exists d0, docs. split; [exact Hl |]. rewrite Hd in Hf.
  destruct (bool_decide (contribuicoes_lidas form_files = ∅)) eqn:Hc; [| discriminate].
  apply bool_decide_eq_true in Hc. split; [exact Hc |].
  cbn [res_bind] in Hf. congruence.
Qed.

(** X7. A run of the pipeline ends in one of three ways, and in no other.
    When an upload cannot be written, the run ends in the exception of
    [file.save]. When the loop completes and the contribution statement it
    processed yields at least one contribution, the benefit estimate raises
    [NameError] for the name [contribs] and no report is returned. When the
    loop completes otherwise (no statement, a statement the gate rejects,
    or one with no contribution line), the run returns a report. After the
    loop the disk is not touched again. *)
Theorem processar_documentos_outcome (form_files : gmap str file_storage)
    (form_data : gmap str str) (disk : disco) :
  (forall e disk1,
     laco_campos form_files disk = (Raise e, disk1) ->
     erro_de_save form_files e
     /\ processar_documentos form_files form_data disk = (Raise e, disk1))
  /\ (forall st disk1,
        laco_campos form_files disk = (Ok st, disk1) ->
        (contribuicoes_lidas form_files <> ∅ ->
         processar_documentos form_files form_data disk
         = (Raise (NameError (py "contribs")), disk1))
        /\ (contribuicoes_lidas form_files = ∅ ->
            exists r, processar_documentos form_files form_data disk = (Ok r, disk1))).
Proof.
  split.
  - intros e disk1 Hl. split.
    + destruct (laco_campos_run form_files disk) as [[d1 Hr] | (e' & d1 & Hr & He)];
        rewrite Hr in Hl.
      * destruct (laco_puro_spec form_files) as (d0 & docs & Hp & _).
        rewrite Hp in Hl. discriminate.
      * injection Hl as <- _. exact He.
    + unfold processar_documentos, dados_aggregados, io_bind. rewrite Hl. reflexivity.
  - intros st disk1 Hl. pose proof (laco_campos_Ok _ _ _ _ Hl) as Hpuro.
    destruct (dados_puros_cases form_files form_data) as (d0 & docs & Hl' & Hd).
    rewrite Hpuro in Hl'. injection Hl' as ->.
    assert (Hp : processar_documentos form_files form_data disk
                 = (res_bind (dados_puros form_files form_data)
                      (fun d => Ok (gerar_relatorio d)), disk1)).
    { unfold processar_documentos, dados_aggregados, dados_puros, io_bind. rewrite Hl, Hpuro.
      cbn [res_bind fst snd]. unfold io_lift, io_ret.
      destruct (match d_contribuicoes d0 with Some _ => _ | None => _ end) as [b | e];
        reflexivity. }
    rewrite Hp, Hd. split; intros Hc.
    + rewrite bool_decide_eq_false_2 by exact Hc. reflexivity.
    + rewrite bool_decide_eq_true_2 by exact Hc. eexists. reflexivity.
Qed.

(** X8. Every report the pipeline returns carries no benefit estimate and
    says that the twelve-month contribution requirement is not met, with
    the message that the client cannot proceed: a run that extracted any
    contribution has raised before the report. *)
Theorem relatorio_sem_contribuicoes (form_files : gmap str file_storage)
    (form_data : gmap str str) (disk disk' : disco) (r : relatorio) :
  processar_documentos form_files form_data disk = (Ok r, disk') ->
  r_beneficio_estimado r = None
  /\ pagou_12_meses (r_elegibilidade r) = false
  /\ qualidade_segurada (r_elegibilidade r) = true
  /\ dentro_prazo (r_elegibilidade r) = true
  /\ mensagem (r_elegibilidade r)
     = py "A cliente não está apta a prosseguir. É necessário ter contribuído por 12 meses.".
Proof.
  intros Hp. apply processar_documentos_Ok in Hp. destruct Hp as (d0 & docs & Hl & Hc & ->).
  destruct (laco_puro_spec form_files)
    as (d0' & docs' & Hl' & _ & _ & _ & _ & _ & _ & _ & _ & _ & Hcontr & _).
  rewrite Hl in Hl'. injection Hl' as <- <-.
  assert (Hvazio : default ∅ (d_contribuicoes d0) = ∅).
  { rewrite Hcontr. unfold contribuicoes_lidas in Hc.
    destruct (processado form_files (py "cnis")); [exact Hc | reflexivity]. }
  cbn [gerar_relatorio r_beneficio_estimado r_elegibilidade set_finais d_beneficio].
  unfold verificar_elegibilidade. cbn [d_contribuicoes set_finais].
  rewrite Hvazio, map_size_empty. repeat split; reflexivity.
Qed.

(** X9. In every report the pipeline returns the keys [rg], [certidao] and
    [cnis] are absent, because the loop never writes them, so the missing
    documents always begin with RG, CERTIDAO and CNIS, whatever was
    uploaded; PIS follows unless a social-insurance card was processed, and
    MEI follows when the occupation is MEI unless a self-employment proof
    was processed. *)
Theorem relatorio_informacoes_incompletas (form_files : gmap str file_storage)
    (form_data : gmap str str) (disk disk' : disco) (r : relatorio) :
  processar_documentos form_files form_data disk = (Ok r, disk') ->
  r_rg r = None /\ r_certidao r = None /\ r_cnis r = None
  /\ r_informacoes_incompletas r
     = faltantes_relatados form_files (form_data !! py "ocupacao").
Proof.
  intros Hp. apply processar_documentos_Ok in Hp. destruct Hp as (d0 & docs & Hl & Hc & ->).
  destruct (laco_puro_spec form_files)
    as (d0' & docs' & Hl' & Hrg & Hcert & Hcnis & _ & _ & _ & _ & Hpis & Hmei & _).
  rewrite Hl in Hl'. injection Hl' as <- <-.
  cbn [gerar_relatorio r_rg r_certidao r_cnis r_informacoes_incompletas set_finais
       d_rg d_certidao d_cnis].
  split; [exact Hrg |]. split; [exact Hcert |]. split; [exact Hcnis |].
  rewrite verificar_documentos_lista.
  cbn [set_finais d_rg d_certidao d_cnis d_pis d_mei d_ocupacao].
  rewrite Hrg, Hcert, Hcnis, Hpis, Hmei. unfold faltantes_relatados.
  destruct (processado form_files (py "pis")) as [f |]; cbn [fmap option_fmap option_map];
    [rewrite (truthy_Some _ (extrair_pis_nonempty (texto_de f))) |];
    destruct (bool_decide (form_data !! py "ocupacao" = Some (py "MEI")));
    destruct (processado form_files (py "mei")); reflexivity.
Qed.

Lemma cpf_ok_lido (form_files : gmap str file_storage) (d : dados) :
  d_cpf_valido d
  = (fun f => validar_cpf_spec (extrair_cpf (texto_de f))) <$> ultimo_com_nome form_files ->
  cpf_ok d = cpf_valido_lido form_files.
Proof.
  intros Hv. unfold cpf_ok, cpf_valido_lido. rewrite Hv.
  destruct (ultimo_com_nome form_files) as [f |]; cbn [fmap option_fmap option_map].
  - rewrite validar_cpf_is_spec. cbn [resultado default].
    destruct (validar_cpf_spec (extrair_cpf (texto_de f))); reflexivity.
  - reflexivity.
Qed.

(** X10. The approval tier of every report the pipeline returns is one of
    the two lowest: "Pouco provável" when the tax ID of the last
    name-bearing document validates and the occupation is CLT, and
    "Benefício Improvável" in every other case. The tiers "Provável" and
    "Muito provável" are never reported: the record the scorer reads has no
    eligibility entry and always has missing documents. *)
Theorem relatorio_aprovacao (form_files : gmap str file_storage)
    (form_data : gmap str str) (disk disk' : disco) (r : relatorio) :
  processar_documentos form_files form_data disk = (Ok r, disk') ->
  r_aprovacao r
  = (if cpf_valido_lido form_files
        && bool_decide (form_data !! py "ocupacao" = Some (py "CLT"))
     then py "Pouco provável" else py "Benefício Improvável")
  /\ r_aprovacao r <> py "Provável" /\ r_aprovacao r <> py "Muito provável".
Proof.
  intros Hp. apply processar_documentos_Ok in Hp. destruct Hp as (d0 & docs & Hl & Hc & ->).
  destruct (laco_puro_spec form_files)
    as (d0' & docs' & Hl' & Hrg & _ & _ & Hel & _ & _ & Hval & _).
  rewrite Hl in Hl'. injection Hl' as <- <-.
  set (o := form_data !! py "ocupacao").
  set (d := set_finais o None docs (inconsistencia_nomes docs) d0).
  assert (Hap : r_aprovacao (gerar_relatorio d)
                = if cpf_valido_lido form_files && bool_decide (o = Some (py "CLT"))
                  then py "Pouco provável" else py "Benefício Improvável").
  { change (r_aprovacao (gerar_relatorio d)) with (calcular_aprovacao d o).
    rewrite calcular_aprovacao_faixa, (faixa_spec_Qeq _ _ (score_de_pontos d o)).
    assert (Hlim : limiar_atingido d = false).
    { unfold limiar_atingido. subst d. cbn [set_finais d_elegibilidade]. rewrite Hel.
      reflexivity. }
    assert (Hfalta : nada_falta d = false).
    { unfold nada_falta. apply bool_decide_eq_false. rewrite verificar_documentos_lista.
      subst d. cbn [set_finais d_rg]. rewrite Hrg. discriminate. }
    rewrite Hlim, Hfalta, (cpf_ok_lido form_files d Hval). unfold pontos_spec.
    destruct (cpf_valido_lido form_files), (bool_decide (o = Some (py "CLT"))),
      (bool_decide (o = Some (py "MEI") \/ o = Some (py "Autônoma")
                    \/ o = Some (py "Desempregada")));
      vm_compute; reflexivity. }
  rewrite Hap. split; [reflexivity |].
  destruct (cpf_valido_lido form_files && bool_decide (o = Some (py "CLT")));
    split; discriminate.
Qed.

(** X11. The name, the tax ID and the validity flag of a report all come
    from the last name-bearing document the loop processes (the birth
    certificate when one passes the gate, else the identity document), and
    are absent when there is none. When that document yields no tax ID the
    report holds the not-found sentinel as tax ID and the flag false, also
    when an earlier document yielded a valid tax ID. *)
Theorem relatorio_nome_cpf (form_files : gmap str file_storage)
    (form_data : gmap str str) (disk disk' : disco) (r : relatorio) :
  processar_documentos form_files form_data disk = (Ok r, disk') ->
  r_nome r = (fun f => extrair_nome (texto_de f)) <$> ultimo_com_nome form_files
  /\ r_cpf r = (fun f => extrair_cpf (texto_de f)) <$> ultimo_com_nome form_files
  /\ r_cpf_valido r
     = ultimo_com_nome form_files
         ≫= (fun f => resultado (validar_cpf (extrair_cpf (texto_de f))))
  /\ (forall f, ultimo_com_nome form_files = Some f ->
        extrair_cpf (texto_de f) = nao_encontrado ->
        r_cpf r = Some nao_encontrado /\ r_cpf_valido r = Some false).
Proof.
  intros Hp. apply processar_documentos_Ok in Hp. destruct Hp as (d0 & docs & Hl & Hc & ->).
  destruct (laco_puro_spec form_files)
    as (d0' & docs' & Hl' & _ & _ & _ & _ & Hnome & Hcpf & Hval & _).
  rewrite Hl in Hl'. injection Hl' as <- <-.
  cbn [gerar_relatorio r_nome r_cpf r_cpf_valido set_finais d_nome d_cpf d_cpf_valido].
  rewrite Hnome, Hcpf, Hval.
  split; [reflexivity |]. split; [reflexivity |]. split.
  - destruct (ultimo_com_nome form_files) as [f |];
      cbn [fmap option_fmap option_map mbind option_bind]; [| reflexivity].
    rewrite validar_cpf_is_spec. reflexivity.
  - intros f -> Hs. cbn [fmap option_fmap option_map]. rewrite Hs.
    split; [reflexivity |].
    pose proof validar_cpf_sentinela as Hv. rewrite validar_cpf_is_spec in Hv.
    injection Hv as ->. reflexivity.
Qed.

(** ** The tiers of the approval score *)

Lemma calcular_aprovacao_inteiros (d : dados) (ocupacao : option str) :
  calcular_aprovacao d ocupacao
  = match pontos_inteiros d ocupacao with
    | 0 | 1 => py "Benefício Improvável"
    | 2 => py "Pouco provável"
    | 3 => py "Provável"
    | _ => py "Muito provável"
    end.
Proof.
  rewrite calcular_aprovacao_faixa, (faixa_spec_Qeq _ _ (score_de_pontos d ocupacao)).
  unfold pontos_spec, pontos_inteiros.
  destruct (limiar_atingido d), (cpf_ok d), (nada_falta d),
    (bool_decide (ocupacao = Some (py "CLT"))),
    (bool_decide (ocupacao = Some (py "MEI") \/ ocupacao = Some (py "Autônoma")
                  \/ ocupacao = Some (py "Desempregada")));
    vm_compute; reflexivity.
Qed.

(** X12. The tier depends on the whole points only: 2 for the contribution
    threshold and 1 each for a valid tax ID, for no missing document and for
    the occupation CLT; fewer than 2 points give "Benefício Improvável", 2
    give "Pouco provável", 3 give "Provável" and 4 or 5 give "Muito
    provável". The half point of MEI, Autônoma and Desempregada never
    changes the tier: every occupation other than CLT gets the tier of no
    occupation at all. Without the contribution threshold the tier is never
    "Muito provável". *)
Theorem calcular_aprovacao_tiers (d : dados) (ocupacao : option str) :
  calcular_aprovacao d ocupacao
  = match pontos_inteiros d ocupacao with
    | 0 | 1 => py "Benefício Improvável"
    | 2 => py "Pouco provável"
    | 3 => py "Provável"
    | _ => py "Muito provável"
    end
  /\ (ocupacao <> Some (py "CLT") ->
      calcular_aprovacao d ocupacao = calcular_aprovacao d None)
  /\ (limiar_atingido d = false -> calcular_aprovacao d ocupacao <> py "Muito provável").
Proof.
  split; [apply calcular_aprovacao_inteiros |]. split.
  - intros Ho. rewrite !calcular_aprovacao_inteiros. unfold pontos_inteiros.
    rewrite (bool_decide_eq_false_2 _ Ho).
    rewrite (bool_decide_eq_false_2 (None = Some (py "CLT"))) by discriminate.
    reflexivity.
  - intros Hl. rewrite calcular_aprovacao_inteiros. unfold pontos_inteiros. rewrite Hl.
    destruct (cpf_ok d), (nada_falta d), (bool_decide (ocupacao = Some (py "CLT")));
      discriminate.
Qed.

(** ** Paths and renaming *)

Lemma rsplit_None (c : N) (x : str) : ~ In c x -> rsplit c x = None.
Proof.
  induction x as [| y x IH]; intros Hn; [reflexivity |].
  cbn [rsplit]. rewrite IH by (intros Hi; apply Hn; right; exact Hi).
  destruct (N.eqb_spec y c) as [-> | Hne]; [| reflexivity].
  exfalso. apply Hn. left. reflexivity.
Qed.

Lemma rsplit_None_inv (c : N) (x : str) : rsplit c x = None -> ~ In c x.
Proof.
  induction x as [| y x IH]; [intros _ [] |].
  cbn [rsplit]. destruct (rsplit c x) as [[a b] |]; [discriminate |].
  destruct (N.eqb_spec y c) as [-> | Hne]; [discriminate |].
  intros _ [Hy | Hx]; [contradiction | exact (IH eq_refl Hx)].
Qed.

Lemma rsplit_app_sep (c : N) (a x : str) :
  ~ In c x -> rsplit c (a ++ c :: x) = Some (a, x).
Proof.
  intros Hn. induction a as [| y a IH].
  - cbn [app rsplit]. rewrite (rsplit_None c x Hn), N.eqb_refl. reflexivity.
  - cbn [app rsplit]. rewrite IH. reflexivity.
Qed.

Lemma rsplit_Some (c : N) (s a b : str) :
  rsplit c s = Some (a, b) -> s = a ++ c :: b /\ ~ In c b.
Proof.
  revert a b. induction s as [| y s IH]; intros a b; [discriminate |].
  cbn [rsplit]. destruct (rsplit c s) as [[a' b'] |] eqn:Hr.
  - intros [= <- <-]. destruct (IH a' b' eq_refl) as [-> Hn].
    split; [reflexivity | exact Hn].
  - destruct (N.eqb_spec y c) as [-> | Hne]; [| discriminate].
    intros [= <- <-]. split; [reflexivity | apply rsplit_None_inv; exact Hr].
Qed.

Lemma ultimo_componente_sem_sep (p : str) : ~ In 47%N (ultimo_componente p).
Proof.
  unfold ultimo_componente. destruct (rsplit 47 p) as [[a b] |] eqn:Hr.
  - apply rsplit_Some in Hr. apply Hr.
  - apply rsplit_None_inv. exact Hr.
Qed.

Lemma extensao_de_sem_sep (p : str) : ~ In 47%N (extensao_de p).
Proof.
  unfold extensao_de. pose proof (ultimo_componente_sem_sep p) as Hu.
  destruct (rsplit 46 (ultimo_componente p)) as [[a b] |] eqn:Hr; [| intros []].
  destruct (existsb _ a); [| intros []].
  apply rsplit_Some in Hr. destruct Hr as [Hr _]. rewrite Hr in Hu.
  intros [Hd | Hb]; [discriminate Hd |].
  apply Hu, in_or_app. right. right. exact Hb.
Qed.

Lemma ultimo_componente_join (a x : str) :
  ~ In 47%N x -> ultimo_componente (path_join a x) = x.
Proof.
  intros Hn. unfold path_join, ultimo_componente.
  assert (Hh : head x <> Some 47%N).
  { destruct x as [| y x]; [discriminate |]. intros [= ->]. apply Hn. left. reflexivity. }
  rewrite (bool_decide_eq_false_2 _ Hh).
  destruct (bool_decide (a = []) || bool_decide (last a = Some 47%N)) eqn:Ha.
  - apply orb_true_iff in Ha. destruct Ha as [Ha | Ha]; apply bool_decide_eq_true in Ha.
    + subst a. cbn [app]. rewrite (rsplit_None 47 x Hn). reflexivity.
    + apply last_Some in Ha. destruct Ha as [a' ->]. rewrite <- app_assoc. cbn [app].
      rewrite (rsplit_app_sep 47 a' x Hn). reflexivity.
  - change (py "/" ++ x) with (47%N :: x).
    rewrite (rsplit_app_sep 47 a x Hn). reflexivity.
Qed.

Lemma lstrip_sep_head (s : str) : head (lstrip_sep s) <> Some 47%N.
Proof.
  induction s as [| c s IH]; [discriminate |].
  cbn [lstrip_sep]. destruct (N.eqb_spec c 47) as [-> | Hne]; [exact IH |].
  cbn. congruence.
Qed.

Lemma last_rev (s : str) : last (rev s) = head s.
Proof. destruct s as [| c s]; [reflexivity |]. cbn [rev head]. apply last_snoc. Qed.

(** A directory as [os.path.dirname] returns it: slashes only, or with no
    slash at its end. *)
Lemma dirname_normal (p : str) :
  forallb (N.eqb 47) (dirname p) = true \/ last (dirname p) <> Some 47%N.
Proof.
  unfold dirname. destruct (rsplit 47 p) as [[a b] |]; [| right; discriminate].
  cbv zeta. destruct (forallb (N.eqb 47) (a ++ py "/")) eqn:Hf; [left; exact Hf |].
  right. unfold rstrip_sep. rewrite last_rev. apply lstrip_sep_head.
Qed.

Lemma dirname_join (diretorio x : str) :
  forallb (N.eqb 47) diretorio = true \/ last diretorio <> Some 47%N ->
  ~ In 47%N x ->
  dirname (path_join diretorio x) = diretorio.
Proof.
  intros Hd Hn. unfold path_join.
  assert (Hh : head x <> Some 47%N).
  { destruct x as [| y x]; [discriminate |]. intros [= ->]. apply Hn. left. reflexivity. }
  rewrite (bool_decide_eq_false_2 _ Hh).
  destruct (decide (diretorio = [])) as [-> | Hne].
  { cbn [app bool_decide orb]. rewrite bool_decide_eq_true_2 by reflexivity. cbn [orb app].
    unfold dirname. rewrite (rsplit_None 47 x Hn). reflexivity. }
  rewrite (bool_decide_eq_false_2 _ Hne). cbn [orb].
  destruct (last diretorio) as [l |] eqn:Hl.
  2:{ apply last_None in Hl. contradiction. }
  apply last_Some in Hl. destruct Hl as [d' ->].
  destruct (decide (l = 47%N)) as [-> | Hl].
  - rewrite bool_decide_eq_true_2 by reflexivity.
    rewrite <- app_assoc. cbn [app]. unfold dirname.
    rewrite (rsplit_app_sep 47 d' x Hn). cbv zeta.
    destruct Hd as [Hd | Hd]; [| congruence].
    change (d' ++ py "/") with (d' ++ [47%N]). rewrite Hd. reflexivity.
  - rewrite bool_decide_eq_false_2 by congruence.
    change (py "/" ++ x) with (47%N :: x). unfold dirname.
    rewrite (rsplit_app_sep 47 (d' ++ [l]) x Hn). cbv zeta.
    change (py "/") with [47%N].
    assert (Hf : forallb (N.eqb 47) ((d' ++ [l]) ++ [47%N]) = false).
    { rewrite !forallb_app. cbn [forallb].
      destruct (N.eqb_spec 47 l) as [He | _]; [congruence |].
      rewrite !andb_false_r. reflexivity. }
    rewrite Hf. unfold rstrip_sep. rewrite !rev_unit. cbn [lstrip_sep]. rewrite N.eqb_refl.
    destruct (N.eqb_spec l 47) as [He | _]; [contradiction |].
    cbn [rev]. rewrite rev_involutive. reflexivity.
Qed.

Lemma In_take (n : nat) (s : str) (c : N) : In c (take n s) -> In c s.
Proof. intros Hc. rewrite <- (firstn_skipn n s). apply in_or_app. left. exact Hc. Qed.

Lemma novo_nome_sem_separador (caminho_arquivo cpf nome tipo_doc : str) :
  ~ In 47%N (lower tipo_doc) ->
  ~ In 47%N (so_digitos cpf ++ py "_" ++ take 20 (so_alfanumericos (lower nome)) ++ py "_"
             ++ lower tipo_doc ++ extensao_de caminho_arquivo).
Proof.
  intros Ht. rewrite !in_app_iff. intros [Hc | [Hc | [Hc | [Hc | [Hc | Hc]]]]].
  - unfold so_digitos in Hc. apply filter_In in Hc. destruct Hc as [_ Hc]. discriminate Hc.
  - destruct Hc as [Hc | []]. discriminate Hc.
  - apply In_take in Hc. unfold so_alfanumericos in Hc. apply filter_In in Hc.
    destruct Hc as [_ Hc]. discriminate Hc.
  - destruct Hc as [Hc | []]. discriminate Hc.
  - exact (Ht Hc).
  - exact (extensao_de_sem_sep caminho_arquivo Hc).
Qed.

Lemma novo_caminho_de_componente (caminho_arquivo cpf nome tipo_doc : str) :
  ~ In 47%N (lower tipo_doc) ->
  ultimo_componente (novo_caminho_de caminho_arquivo cpf nome tipo_doc)
  = so_digitos cpf ++ py "_" ++ take 20 (so_alfanumericos (lower nome)) ++ py "_"
    ++ lower tipo_doc ++ extensao_de caminho_arquivo.
Proof.
  intros Ht. unfold novo_caminho_de. apply ultimo_componente_join.
  apply novo_nome_sem_separador. exact Ht.
Qed.

Lemma dirname_novo_caminho (caminho_arquivo cpf nome tipo_doc : str) :
  ~ In 47%N (lower tipo_doc) ->
  dirname (novo_caminho_de caminho_arquivo cpf nome tipo_doc) = dirname caminho_arquivo.
Proof.
  intros Ht. unfold novo_caminho_de. apply dirname_join; [apply dirname_normal |].
  apply novo_nome_sem_separador. exact Ht.
Qed.

(** X13. The path [renomear_arquivo] renames to lies in the directory of
    the original file, and its last component, which the pipeline stores as
    [arquivo_renomeado], is the digits of the tax ID, an underscore, at most
    20 ASCII letters and digits of the lowered name, an underscore, the
    lowered document type and the extension of the original file, provided
    the lowered type holds no path separator (the pipeline passes RG,
    CERTIDAO, CNIS, PIS or MEI). *)
Theorem novo_caminho_de_nome (caminho_arquivo cpf nome tipo_doc : str) :
  ~ In 47%N (lower tipo_doc) ->
  ultimo_componente (novo_caminho_de caminho_arquivo cpf nome tipo_doc)
  = so_digitos cpf ++ py "_" ++ take 20 (so_alfanumericos (lower nome)) ++ py "_"
    ++ lower tipo_doc ++ extensao_de caminho_arquivo
  /\ dirname (novo_caminho_de caminho_arquivo cpf nome tipo_doc) = dirname caminho_arquivo
  /\ (length (take 20 (so_alfanumericos (lower nome))) <= 20)%nat
  /\ Forall (fun c => ascii_isalpha c || ascii_isdigit c = true)
       (take 20 (so_alfanumericos (lower nome))).
Proof.
  intros Ht. split; [apply novo_caminho_de_componente; exact Ht |].
  split; [apply dirname_novo_caminho; exact Ht |].
  split; [rewrite length_take; lia |].
  apply List.Forall_forall. intros c Hc. apply In_take in Hc.
  unfold so_alfanumericos in Hc. apply filter_In in Hc. apply Hc.
Qed.

(** X14. [renomear_arquivo] never raises and always returns the new path,
    whatever [os.rename] does. When [os.rename] succeeds, what was at the
    original path is found at the new path. When it fails (no file at the
    original path, a new path in a directory that does not exist) the
    failure is swallowed: nothing on the disk has changed, what was at the
    original path is still there, and the caller is handed the new path all
    the same. *)
Theorem renomear_arquivo_disk (caminho_arquivo cpf nome tipo_doc : str)
    (disk : disco) :
  fst (renomear_arquivo caminho_arquivo cpf nome tipo_doc disk)
  = Ok (novo_caminho_de caminho_arquivo cpf nome tipo_doc)
  /\ (forall disk',
        os_rename caminho_arquivo (novo_caminho_de caminho_arquivo cpf nome tipo_doc) disk
        = (Ok tt, disk') ->
        renomear_arquivo caminho_arquivo cpf nome tipo_doc disk
        = (Ok (novo_caminho_de caminho_arquivo cpf nome tipo_doc), disk')
        /\ disk' !! novo_caminho_de caminho_arquivo cpf nome tipo_doc
           = disk !! caminho_arquivo)
  /\ (forall e disk',
        os_rename caminho_arquivo (novo_caminho_de caminho_arquivo cpf nome tipo_doc) disk
        = (Raise e, disk') ->
        renomear_arquivo caminho_arquivo cpf nome tipo_doc disk
        = (Ok (novo_caminho_de caminho_arquivo cpf nome tipo_doc), disk)).
Proof.
  split; [| split].
  - destruct (renomear_arquivo_run caminho_arquivo cpf nome tipo_doc disk) as [disk' ->].
    reflexivity.
  - intros disk' Hr. unfold renomear_arquivo. rewrite Hr. split; [reflexivity |].
    exact (fs_rename_lookup _ _ _ _ Hr).
  - intros e disk' Hr. unfold renomear_arquivo. rewrite Hr.
    rewrite (fs_rename_raise _ _ _ _ _ Hr). reflexivity.
Qed.

(** ** The name-consistency verdict of a run *)

Lemma nomes_de_map (docs : list info_doc) :
  nomes_de docs
  = map (fun o => lower (default [] o))
      (List.filter (fun o => truthy o && negb (bool_decide (o = Some nao_encontrado)))
         (map i_nome docs)).
Proof.
  unfold nomes_de. induction docs as [| doc docs IH]; [reflexivity |].
  cbn [map List.filter].
  destruct (truthy (i_nome doc) && negb (bool_decide (i_nome doc = Some nao_encontrado)));
    cbn [map]; rewrite IH; reflexivity.
Qed.

Lemma nome_conta_Some (n : str) :
  truthy (Some n) && negb (bool_decide (Some n = Some nao_encontrado)) = nome_conta n.
Proof.
  unfold nome_conta. f_equal.
  - destruct n; reflexivity.
  - f_equal. apply bool_decide_ext. split; congruence.
Qed.

Lemma inconsistencia_nomes_poucos (docs : list info_doc) :
  (nomes_de docs = [] -> inconsistencia_nomes docs = py "OK")
  /\ (forall a, nomes_de docs = [a] -> inconsistencia_nomes docs = py "OK")
  /\ (forall a b, nomes_de docs = [a; b] ->
        inconsistencia_nomes docs
        = if bool_decide (a = b) then py "OK"
          else py "Inconsistência nos nomes extraídos. Verifique manualmente.").
Proof.
  rewrite inconsistencia_nomes_cases. split; [| split].
  - intros ->. rewrite bool_decide_eq_false_2; [reflexivity |].
    rewrite size_list_to_set_gt1. intros (a & b & Ha & _). apply elem_of_nil in Ha. exact Ha.
  - intros a ->. rewrite bool_decide_eq_false_2; [reflexivity |].
    rewrite size_list_to_set_gt1. intros (x & y & Hx & Hy & Hne).
    apply list_elem_of_singleton in Hx, Hy. congruence.
  - intros a b ->. destruct (bool_decide (a = b)) eqn:Hab.
    + apply bool_decide_eq_true in Hab. subst b. rewrite bool_decide_eq_false_2; [reflexivity |].
      rewrite size_list_to_set_gt1. intros (x & y & Hx & Hy & Hne).
      rewrite !elem_of_cons, elem_of_nil in Hx, Hy. intuition congruence.
    + apply bool_decide_eq_false in Hab. rewrite bool_decide_eq_true_2; [reflexivity |].
      rewrite size_list_to_set_gt1. exists a, b.
      split; [apply list_elem_of_here |].
      split; [apply list_elem_of_further, list_elem_of_here | exact Hab].
Qed.

Lemma inconsistencia_nomes_laco (form_files : gmap str file_storage) (docs : list info_doc) :
  map i_nome docs = nomes_nos_documentos form_files ->
  inconsistencia_nomes docs = inconsistencia_esperada form_files.
Proof.
  intros Hn. pose proof (nomes_de_map docs) as Hd. rewrite Hn in Hd.
  destruct (inconsistencia_nomes_poucos docs) as (H0 & H1 & H2).
  unfold nomes_nos_documentos, nome_no_documento, campos in Hd.
  unfold inconsistencia_esperada.
  cbn [map concat] in Hd.
  rewrite (bool_decide_eq_true_2 (py "rg" = py "rg" \/ py "rg" = py "certidao")) in Hd
    by (left; reflexivity).
  rewrite (bool_decide_eq_true_2 (py "certidao" = py "rg" \/ py "certidao" = py "certidao"))
    in Hd by (right; reflexivity).
  rewrite (bool_decide_eq_false_2 (py "cnis" = py "rg" \/ py "cnis" = py "certidao")) in Hd
    by (intros [Hx | Hx]; discriminate Hx).
  rewrite (bool_decide_eq_false_2 (py "pis" = py "rg" \/ py "pis" = py "certidao")) in Hd
    by (intros [Hx | Hx]; discriminate Hx).
  rewrite (bool_decide_eq_false_2 (py "mei" = py "rg" \/ py "mei" = py "certidao")) in Hd
    by (intros [Hx | Hx]; discriminate Hx).
  destruct (processado form_files (py "cnis")) as [f3 |],
    (processado form_files (py "pis")) as [f4 |],
    (processado form_files (py "mei")) as [f5 |];
    (destruct (processado form_files (py "rg")) as [f1 |];
     destruct (processado form_files (py "certidao")) as [f2 |];
     cbn [app List.filter] in Hd;
     rewrite ?nome_conta_Some in Hd;
     cbn [truthy andb] in Hd;
     try destruct (nome_conta (extrair_nome (texto_de f1)));
     try destruct (nome_conta (extrair_nome (texto_de f2)));
     cbn [map andb default from_option id] in Hd |- *;
     lazymatch type of Hd with
     | _ = [] => exact (H0 Hd)
     | _ = [?a] => exact (H1 a Hd)
     | _ = [?a; ?b] =>
       rewrite (H2 a b Hd);
       lazymatch goal with
       | |- context [@bool_decide ?P ?dec] =>
         destruct (@bool_decide P dec); cbn [negb]; reflexivity
       end
     end).
Qed.

(** X15. The name-consistency verdict of a run is the inconsistency
    message only when an identity document and a birth certificate both
    pass the gate, both yield a name that is neither empty nor the not-found
    sentinel, and the two names differ once lowered; in every other case,
    a single name-bearing document included, it is "OK". This is the
    verdict on the documents of every loop that completes, and the one the
    record of every run that returns holds; the report does not depend on
    it: [gerar_relatorio] copies no such key. *)
Theorem inconsistencia_nomes_run (form_files : gmap str file_storage)
    (form_data : gmap str str) (disk : disco) :
  (forall st disk',
     laco_campos form_files disk = (Ok st, disk') ->
     inconsistencia_nomes st.2 = inconsistencia_esperada form_files)
  /\ (forall d disk',
        dados_aggregados form_files form_data disk = (Ok d, disk') ->
        d_inconsistencia_nomes d = Some (inconsistencia_esperada form_files))
  /\ (forall ocupacao beneficio documentos v1 v2 d,
        gerar_relatorio (set_finais ocupacao beneficio documentos v1 d)
        = gerar_relatorio (set_finais ocupacao beneficio documentos v2 d)).
Proof.
  destruct (laco_puro_spec form_files)
    as (d0 & docs & Hl & _ & _ & _ & _ & _ & _ & _ & _ & _ & _ & Hn).
  pose proof (inconsistencia_nomes_laco form_files docs Hn) as Hi.
  split; [| split].
  - intros st disk' Hrun. apply laco_campos_Ok in Hrun.
    rewrite Hl in Hrun. injection Hrun as <-. exact Hi.
  - intros d disk' Hd. apply dados_aggregados_Ok in Hd.
    destruct Hd as (d0' & docs' & b & Hl' & ->). rewrite Hl in Hl'. injection Hl' as <- <-.
    cbn [set_finais d_inconsistencia_nomes]. rewrite Hi. reflexivity.
  - intros ocupacao beneficio documentos v1 v2 d. reflexivity.
Qed.

(** ** The matcher finds a match whenever there is one *)

Lemma greedy_complete {R} (p : N -> bool) (lo : nat) (hi : option nat) (m r : str)
    (k : str -> str -> option R) :
  (lo <= length m)%nat -> (forall n, hi = Some n -> (length m <= n)%nat) ->
  forallb p m = true -> is_Some (k m r) ->
  is_Some (greedy p lo hi (m ++ r) k).
Proof.
  revert lo hi k. induction m as [| c m IH]; intros lo hi k Hlo Hhi Hall Hk.
  - cbn in Hlo. assert (lo = 0%nat) as -> by lia. cbn [app].
    destruct r as [| c t]; [exact Hk |]. cbn [greedy].
    destruct (p c && negb (bool_decide (hi = Some 0%nat))); [| exact Hk].
    destruct (greedy p _ _ t _); [eexists; reflexivity | exact Hk].
  - cbn [app greedy]. cbn [forallb] in Hall. apply andb_true_iff in Hall.
    destruct Hall as [Hc Hall]. rewrite Hc.
    rewrite bool_decide_eq_false_2.
    2:{ intros ->. specialize (Hhi 0%nat eq_refl). cbn in Hhi. lia. }
    cbn [negb andb].
    assert (Hin : is_Some (greedy p (Nat.pred lo) (Nat.pred <$> hi) (m ++ r)
                             (fun m0 r0 => k (c :: m0) r0))).
    { apply IH; [cbn in Hlo; lia | | exact Hall | exact Hk].
      intros n Hn. destruct hi as [n' |]; [| discriminate]. cbn in Hn. injection Hn as <-.
      specialize (Hhi n' eq_refl). cbn in Hhi. lia. }
    destruct Hin as [x ->]. eexists. reflexivity.
Qed.

Lemma match_seq_complete (pat : list atom) (ms : list str) (r : str) :
  Forall2 atom_ok pat ms -> is_Some (match_seq pat (concat ms ++ r)).
Proof.
  induction 1 as [| a m pat ms (Hlo & Hhi & Hall) _ IH].
  - eexists. reflexivity.
  - rewrite concat_cons_app. cbn [match_seq].
    apply greedy_complete; try assumption.
    destruct IH as [[ms' r'] ->]. eexists. reflexivity.
Qed.

Lemma re_search_complete (pat : list atom) (pre : str) (ms : list str) (r : str) :
  Forall2 atom_ok pat ms -> is_Some (re_search pat (pre ++ concat ms ++ r)).
Proof.
  intros Hok. destruct (re_search pat (pre ++ concat ms ++ r)) as [x |] eqn:Hs;
    [eexists; reflexivity |].
  rewrite re_search_None in Hs. specialize (Hs pre (concat ms ++ r) eq_refl).
  destruct (match_seq_complete pat ms r Hok) as [x Hx]. congruence.
Qed.

(** ** Social-insurance number *)

Lemma atom_ok_pis (ms : list str) :
  Forall2 atom_ok padrao_pis ms <-> exists sep a b c d,
    ms = [[80%N]; [73%N]; [83%N]; [47%N]; [80%N]; [65%N]; [83%N]; [69%N]; [80%N];
          sep; a; [46%N]; b; [46%N]; c; [45%N]; d]
    /\ Forall (fun ch => ch = 58%N \/ isspace ch = true) sep
    /\ length a = 3%nat /\ length b = 5%nat /\ length c = 2%nat /\ length d = 1%nat
    /\ so_de_digitos a /\ so_de_digitos b /\ so_de_digitos c /\ so_de_digitos d.
Proof.
  unfold padrao_pis.
  change (lits (py "PIS/PASEP"))
    with [lit 80; lit 73; lit 83; lit 47; lit 80; lit 65; lit 83; lit 69; lit 80].
  cbn [app]. split.
  - intros Hok.
    repeat match goal with
           | Hf : Forall2 _ (_ :: _) _ |- _ =>
             let m := fresh "m" in let Ha := fresh "Ha" in
             apply Forall2_cons_inv_l in Hf; destruct Hf as (m & ? & Ha & Hf & ->)
           | Hf : Forall2 _ [] _ |- _ => apply Forall2_nil_inv_l in Hf; subst
           end.
    repeat match goal with
           | Ha : atom_ok (lit _) _ |- _ => apply atom_ok_lit in Ha; subst
           | Ha : atom_ok (exactly _ _) _ |- _ =>
             let Hl := fresh "Hl" in let Hd := fresh "Hd" in
             apply atom_ok_exactly in Ha; destruct Ha as [Hl Hd];
             apply forallb_isdigit in Hd
           | Ha : atom_ok (star _) _ |- _ => destruct Ha as (_ & _ & Ha)
           end.
    eexists _, _, _, _, _. split; [reflexivity |].
    repeat split; try assumption.
    apply List.Forall_forall. intros ch Hch. cbn [a_class star] in *.
    match goal with
    | Hs : forallb _ _ = true |- _ => rewrite forallb_forall in Hs; specialize (Hs ch Hch);
                                      apply orb_true_iff in Hs; rewrite N.eqb_eq in Hs
    end.
    tauto.
  - intros (sep & a & b & c & d & -> & Hsep & La & Lb & Lc & Ld & Da & Db & Dc & Dd).
    rewrite <- forallb_isdigit in Da, Db, Dc, Dd.
    assert (Hlit : forall ch, atom_ok (lit ch) [ch]).
    { intros ch. split; [cbn; lia |]. split; [intros n [= <-]; cbn; lia |].
      cbn. rewrite N.eqb_refl. reflexivity. }
    assert (Hex : forall n w, length w = n -> forallb isdigit w = true ->
                              atom_ok (exactly n isdigit) w).
    { intros n w Hl Hw. split; [cbn; lia |]. split; [intros n' [= <-]; lia | exact Hw]. }
    do 9 (constructor; [apply Hlit |]).
    constructor.
    { split; [cbn; lia |]. split; [intros n Hn; discriminate Hn |]. cbn [a_class star].
      apply forallb_forall. intros ch Hch. rewrite List.Forall_forall in Hsep.
      specialize (Hsep ch Hch). apply orb_true_iff. rewrite N.eqb_eq. exact Hsep. }
    do 7 (constructor; [first [apply Hlit | apply Hex; assumption] |]).
    constructor.
Qed.

Lemma casa_pis_formatado (ms : list str) :
  Forall2 atom_ok padrao_pis ms -> pis_formatado (concat ms).
Proof.
  intros Hok. apply atom_ok_pis in Hok.
  destruct Hok as (sep & a & b & c & d & -> & Hrest).
  exists sep, a, b, c, d. split; [| exact Hrest].
  cbn [concat]. rewrite app_nil_r. reflexivity.
Qed.

Lemma pis_formatado_casa (w : str) :
  pis_formatado w -> exists ms, Forall2 atom_ok padrao_pis ms /\ concat ms = w.
Proof.
  intros (sep & a & b & c & d & -> & Hrest).
  eexists. split.
  - apply atom_ok_pis. exists sep, a, b, c, d. split; [reflexivity | exact Hrest].
  - cbn [concat]. rewrite app_nil_r. reflexivity.
Qed.

Lemma pis_formatado_sentinela (w : str) : pis_formatado w -> w <> nao_encontrado.
Proof. intros (sep & a & b & c & d & -> & _). discriminate. Qed.

(** X16. Whatever the text, the social-insurance extractor returns the
    not-found sentinel or a labelled number: the label PIS/PASEP, any run of
    colons and whitespace, then 3 digits, dot, 5 digits, dot, 2 digits,
    dash, 1 digit. It returns the sentinel exactly when the text holds no
    such labelled number, and otherwise a labelled number that starts at the
    least position where one starts. *)
Theorem extrair_pis_shape (texto : str) :
  (extrair_pis texto = nao_encontrado \/ pis_formatado (extrair_pis texto))
  /\ ((forall i w, ~ ocorre pis_formatado texto i w) <-> extrair_pis texto = nao_encontrado)
  /\ (forall i w, ocorre pis_formatado texto i w ->
        exists j, primeira pis_formatado texto j (extrair_pis texto)).
Proof.
  unfold extrair_pis.
  destruct (re_search padrao_pis texto) as [ms |] eqn:Hs.
  - apply re_search_Some in Hs. destruct Hs as (pre & suf & r & Ht & Hm & Hleast).
    pose proof Hm as Hm0. apply match_seq_sound in Hm. destruct Hm as [Hsuf Hok].
    pose proof (casa_pis_formatado ms Hok) as Hp.
    assert (Hoc : ocorre pis_formatado texto (length pre) (concat ms)).
    { split; [exact Hp |]. exists pre, r. split; [congruence | reflexivity]. }
    split; [right; exact Hp |]. split.
    + split.
      * intros Hno. exfalso. exact (Hno _ _ Hoc).
      * intros Hsent. exfalso. exact (pis_formatado_sentinela _ Hp Hsent).
    + intros _ _ _. exists (length pre). split; [exact Hoc |].
      intros j w' (Hw' & pre' & post' & Ht' & Hj).
      destruct (Nat.le_gt_cases (length pre) j) as [Hle | Hgt]; [exact Hle |].
      exfalso. rewrite <- Hj in Hgt.
      destruct (pis_formatado_casa w' Hw') as (ms' & Hok' & <-).
      destruct (match_seq_complete padrao_pis ms' post' Hok') as [x Hx].
      rewrite (Hleast pre' (concat ms' ++ post') Ht' Hgt) in Hx. discriminate.
  - split; [left; reflexivity |].
    assert (Hno : forall i w, ~ ocorre pis_formatado texto i w).
    { intros i w (Hw & pre & post & Ht & _).
      destruct (pis_formatado_casa w Hw) as (ms & Hok & <-).
      destruct (re_search_complete padrao_pis pre ms post Hok) as [x Hx].
      rewrite <- Ht in Hx. congruence. }
    split.
    + split; [reflexivity | intros _; exact Hno].
    + intros i w Hoc. exfalso. exact (Hno i w Hoc).
Qed.

(** ** Name extraction *)

Lemma greedy_stop {R} (p : N -> bool) (lo : nat) (r : str) (k : str -> str -> option R) :
  (forall c, head r = Some c -> p c = false) ->
  greedy p lo None r k = match lo with O => k [] r | S _ => None end.
Proof.
  intros Hr. destruct r as [| c t]; [reflexivity |].
  cbn [greedy]. rewrite (Hr c eq_refl). reflexivity.
Qed.

(** A class without upper bound takes the whole run of its characters when
    the rest of the pattern matches after it. *)
Lemma greedy_max {R} (p : N -> bool) (lo : nat) (m r : str) (k : str -> str -> option R)
    (x : R) :
  forallb p m = true -> (forall c, head r = Some c -> p c = false) ->
  (lo <= length m)%nat -> k m r = Some x ->
  greedy p lo None (m ++ r) k = Some x.
Proof.
  revert lo k. induction m as [| c m IH]; intros lo k Hall Hr Hlo Hk.
  - cbn in Hlo. assert (lo = 0%nat) as -> by lia. cbn [app].
    rewrite greedy_stop by exact Hr. exact Hk.
  - cbn [forallb] in Hall. apply andb_true_iff in Hall. destruct Hall as [Hc Hall].
    cbn [app greedy]. rewrite Hc. rewrite bool_decide_eq_false_2 by discriminate.
    cbn [negb andb]. change (Nat.pred <$> None) with (@None nat).
    rewrite (IH (Nat.pred lo) (fun m0 r0 => k (c :: m0) r0) Hall Hr
               ltac:(cbn in Hlo; lia) Hk).
    reflexivity.
Qed.

(** When the rest of the pattern does not match after the whole run, the
    class gives back its last character. *)
Lemma greedy_back {R} (p : N -> bool) (lo : nat) (m : str) (c : N) (r : str)
    (k : str -> str -> option R) (x : R) :
  forallb p (m ++ [c]) = true -> (forall c', head r = Some c' -> p c' = false) ->
  (lo <= length m)%nat -> k (m ++ [c]) r = None -> k m (c :: r) = Some x ->
  greedy p lo None ((m ++ [c]) ++ r) k = Some x.
Proof.
  revert lo k. induction m as [| d m IH]; intros lo k Hall Hr Hlo Hnone Hk.
  - cbn in Hlo. assert (lo = 0%nat) as -> by lia. cbn [app greedy].
    cbn in Hall. rewrite andb_true_r in Hall. rewrite Hall.
    rewrite bool_decide_eq_false_2 by discriminate. cbn [negb andb].
    change (Nat.pred <$> None) with (@None nat).
    rewrite greedy_stop by exact Hr. cbn [Nat.pred]. cbn [app] in Hnone.
    rewrite Hnone. exact Hk.
  - cbn [app forallb] in Hall. apply andb_true_iff in Hall. destruct Hall as [Hd Hall].
    cbn [app greedy]. rewrite Hd. rewrite bool_decide_eq_false_2 by discriminate.
    cbn [negb andb]. change (Nat.pred <$> None) with (@None nat).
    rewrite (IH (Nat.pred lo) (fun m0 r0 => k (d :: m0) r0) Hall Hr
               ltac:(cbn in Hlo; lia) Hnone Hk).
    reflexivity.
Qed.

Lemma lstrip_split (s : str) :
  exists w, s = w ++ lstrip s /\ forallb isspace w = true.
Proof.
  induction s as [| c s (w & Hs & Hw)]; [exists []; split; reflexivity |].
  cbn [lstrip]. destruct (isspace c) eqn:Hc.
  - exists (c :: w). split; [cbn; congruence | cbn; rewrite Hc; exact Hw].
  - exists []. split; reflexivity.
Qed.

Lemma lstrip_head (s : str) (c : N) : head (lstrip s) = Some c -> isspace c = false.
Proof.
  induction s as [| d s IH]; [discriminate |].
  cbn [lstrip]. destruct (isspace d) eqn:Hd; [exact IH |].
  cbn. intros [= <-]. exact Hd.
Qed.

Lemma lstrip_lstrip (s : str) : lstrip (lstrip s) = lstrip s.
Proof.
  destruct (lstrip s) as [| c t] eqn:Hs; [reflexivity |].
  cbn [lstrip]. rewrite (lstrip_head s c); [reflexivity |]. rewrite Hs. reflexivity.
Qed.

Lemma match_seq_cons_exactly (p : N -> bool) (c : N) (s : str) (pat : list atom) :
  p c = true ->
  match_seq (exactly 1 p :: pat) (c :: s)
  = match match_seq pat s with
    | Some (ms, r) => Some ([c] :: ms, r)
    | None => None
    end.
Proof.
  intros Hp. cbn [match_seq a_class a_min a_max exactly]. rewrite greedy_exactly.
  cbn [length Nat.leb take drop forallb andb]. rewrite Hp. reflexivity.
Qed.

(** After the label: the group is the run of class characters after the
    leading white space, or one white-space character when the run is white
    space only; stripped, it is the stripped run. *)
Lemma match_seq_corpo (corpo resto : str) :
  corpo <> [] -> forallb classe_nome corpo = true ->
  (forall c, head resto = Some c -> classe_nome c = false /\ isspace c = false) ->
  exists w g,
    match_seq [star isspace; plus classe_nome] (corpo ++ resto) = Some ([w; g], resto)
    /\ strip g = strip corpo.
Proof.
  intros Hne Hcl Hresto.
  cbn [match_seq a_class a_min a_max star plus].
  destruct (lstrip_split corpo) as (w & Hcorpo & Hw).
  pose proof (lstrip_head corpo) as Hm2.
  assert (Hcl2 : forallb classe_nome w = true /\ forallb classe_nome (lstrip corpo) = true).
  { rewrite Hcorpo, forallb_app in Hcl. apply andb_true_iff in Hcl. exact Hcl. }
  destruct Hcl2 as [Hclw Hclm].
  assert (Hr1 : forall c, head resto = Some c -> classe_nome c = false)
    by (intros c Hc; apply (Hresto c Hc)).
  assert (Hr2 : forall c, head resto = Some c -> isspace c = false)
    by (intros c Hc; apply (Hresto c Hc)).
  destruct (lstrip corpo) as [| c2 m2] eqn:Hl.
  - rewrite app_nil_r in Hcorpo. subst w.
    destruct (last corpo) as [u |] eqn:Hlast; [| apply last_None in Hlast; contradiction].
    apply last_Some in Hlast. destruct Hlast as [w' Hw'].
    assert (Hu : classe_nome u = true /\ isspace u = true).
    { rewrite Hw', !forallb_app in Hcl, Hw. cbn in Hcl, Hw.
      rewrite !andb_true_r in Hcl, Hw. apply andb_true_iff in Hcl, Hw. tauto. }
    exists w', [u]. split.
    + rewrite Hw'. apply greedy_back.
      * rewrite <- Hw'. exact Hw.
      * exact Hr2.
      * lia.
      * rewrite greedy_stop by exact Hr1. reflexivity.
      * change (u :: resto) with ([u] ++ resto).
        rewrite (greedy_max classe_nome 1 [u] resto _ ([[u]], resto)); [reflexivity | | | |].
        -- cbn. rewrite (proj1 Hu). reflexivity.
        -- exact Hr1.
        -- cbn. lia.
        -- reflexivity.
    + unfold strip. rewrite Hl. cbn [lstrip]. rewrite (proj2 Hu). reflexivity.
  - exists w, (c2 :: m2). split.
    + rewrite Hcorpo, <- app_assoc. apply greedy_max.
      * exact Hw.
      * intros c Hc. apply Hm2. exact Hc.
      * lia.
      * rewrite (greedy_max classe_nome 1 (c2 :: m2) resto _ ([c2 :: m2], resto));
          [reflexivity | exact Hclm | exact Hr1 | cbn; lia | reflexivity].
    + unfold strip. rewrite Hl. rewrite <- Hl, lstrip_lstrip. reflexivity.
Qed.

Lemma match_seq_padrao_nome (nm corpo resto : str) :
  map tolower nm = map tolower (py "Nome") ->
  corpo <> [] -> forallb classe_nome corpo = true ->
  (forall c, head resto = Some c -> classe_nome c = false /\ isspace c = false) ->
  exists ms r,
    match_seq padrao_nome (nm ++ py ":" ++ corpo ++ resto) = Some (ms, r)
    /\ strip (group 6 1 ms) = strip corpo.
Proof.
  intros Hnm Hne Hcl Hresto.
  change (map tolower (py "Nome"))
    with [tolower 78; tolower 111; tolower 109; tolower 101] in Hnm.
  do 5 (destruct nm as [| ? nm]; try discriminate Hnm).
  injection Hnm as H1 H2 H3 H4.
  destruct (match_seq_corpo corpo resto Hne Hcl Hresto) as (w & g & Hm & Hg).
  exists [[n]; [n0]; [n1]; [n2]; [58%N]; w; g], resto.
  split; [| unfold group; cbn [drop take concat]; rewrite app_nil_r; exact Hg].
  unfold padrao_nome, lit_ic, lit.
  change ([n; n0; n1; n2] ++ py ":" ++ corpo ++ resto)
    with (n :: n0 :: n1 :: n2 :: 58%N :: corpo ++ resto).
  rewrite (match_seq_cons_exactly _ n) by (apply N.eqb_eq; exact H1).
  rewrite (match_seq_cons_exactly _ n0) by (apply N.eqb_eq; exact H2).
  rewrite (match_seq_cons_exactly _ n1) by (apply N.eqb_eq; exact H3).
  rewrite (match_seq_cons_exactly _ n2) by (apply N.eqb_eq; exact H4).
  rewrite (match_seq_cons_exactly _ 58%N) by reflexivity.
  rewrite Hm. reflexivity.
Qed.

Lemma tolower_dois_pontos (c : N) :
  In c (py "Nome") -> tolower 58 <> tolower c.
Proof. intros [<- | [<- | [<- | [<- | []]]]]; discriminate. Qed.

Lemma match_seq_padrao_nome_inv (s : str) (ms : list str) (r : str) :
  match_seq padrao_nome s = Some (ms, r) ->
  exists c1 c2 c3 c4 t, s = c1 :: c2 :: c3 :: c4 :: 58%N :: t.
Proof.
  intros Hm. apply match_seq_sound in Hm. destruct Hm as [-> Hok].
  unfold padrao_nome, lit_ic in Hok.
  repeat match goal with
         | Hf : Forall2 _ (_ :: _) _ |- _ =>
           let m := fresh "m" in let Ha := fresh "Ha" in
           apply Forall2_cons_inv_l in Hf; destruct Hf as (m & ? & Ha & Hf & ->)
         | Hf : Forall2 _ [] _ |- _ => apply Forall2_nil_inv_l in Hf; subst
         end.
  repeat match goal with
         | Ha : atom_ok (lit _) _ |- _ => apply atom_ok_lit in Ha; subst
         | Ha : atom_ok (exactly _ _) _ |- _ =>
           let Hl := fresh "Hl" in apply atom_ok_exactly in Ha; destruct Ha as [Hl _]
         end.
  repeat match goal with
         | Hl : length ?m = 1%nat |- _ =>
           destruct m as [| ? [| ? ?]]; try discriminate Hl; clear Hl
         end.
  cbn [concat app]. eexists _, _, _, _, _. reflexivity.
Qed.

Lemma lstrip_espacos (s : str) : forallb isspace s = true -> lstrip s = [].
Proof.
  induction s as [| c s IH]; [reflexivity |].
  cbn [forallb lstrip]. intros Hs. apply andb_true_iff in Hs. destruct Hs as [-> Hs].
  exact (IH Hs).
Qed.

(** X17. In a text that has no colon before a label [Nome:] (in any letter
    case), when the label is followed by a non-empty run of letters and
    white space that ends at the end of the text or at a character that is
    neither, the name extractor returns that whole run, line breaks
    included, stripped and title-cased; when the run is white space only,
    the extracted name is the empty string, not the not-found sentinel. *)
Theorem extrair_nome_run (pre nm corpo resto : str) :
  ~ In 58%N pre ->
  map tolower nm = map tolower (py "Nome") ->
  corpo <> [] -> forallb classe_nome corpo = true ->
  (forall c, head resto = Some c -> classe_nome c = false /\ isspace c = false) ->
  extrair_nome (pre ++ nm ++ py ":" ++ corpo ++ resto) = title (strip corpo)
  /\ (forallb isspace corpo = true ->
      extrair_nome (pre ++ nm ++ py ":" ++ corpo ++ resto) = []).
Proof.
  intros Hpre Hnm Hne Hcl Hresto.
  destruct (match_seq_padrao_nome nm corpo resto Hnm Hne Hcl Hresto) as (ms & r & Hm & Hg).
  assert (Hs : re_search padrao_nome (pre ++ nm ++ py ":" ++ corpo ++ resto) = Some ms).
  { apply re_search_Some. exists pre, (nm ++ py ":" ++ corpo ++ resto), r.
    split; [reflexivity |]. split; [exact Hm |].
    intros pre' suf' Ht Hlt.
    destruct (match_seq padrao_nome suf') as [[ms' r'] |] eqn:Hm'; [| reflexivity].
    exfalso. apply match_seq_padrao_nome_inv in Hm'.
    destruct Hm' as (c1 & c2 & c3 & c4 & t & ->).
    assert (Hlen : length nm = 4%nat).
    { apply (f_equal length) in Hnm. rewrite !length_map in Hnm. exact Hnm. }
    assert (Hk : (pre ++ nm) !! (length pre' + 4)%nat = Some 58%N).
    { assert (Hk0 : (pre ++ nm ++ py ":" ++ corpo ++ resto) !! (length pre' + 4)%nat
                    = Some 58%N).
      { rewrite Ht. rewrite lookup_app_r by lia.
        replace (length pre' + 4 - length pre')%nat with 4%nat by lia. reflexivity. }
      rewrite app_assoc in Hk0. rewrite lookup_app_l in Hk0; [exact Hk0 |].
      rewrite length_app. lia. }
    apply list_elem_of_lookup_2, list_elem_of_In, in_app_or in Hk.
    destruct Hk as [Hk | Hk]; [exact (Hpre Hk) |].
    apply (in_map tolower) in Hk. rewrite Hnm in Hk. apply in_map_iff in Hk.
    destruct Hk as (c & Hc & Hin). exact (tolower_dois_pontos c Hin (eq_sym Hc)). }
  assert (He : extrair_nome (pre ++ nm ++ py ":" ++ corpo ++ resto) = title (strip corpo)).
  { unfold extrair_nome. rewrite Hs, Hg. reflexivity. }
  split; [exact He |].
  intros Hws. rewrite He. unfold strip. rewrite (lstrip_espacos corpo Hws). reflexivity.
Qed.

(** ** The renamed documents of a run *)

Lemma extrair_campos_nome_cpf (campo texto : str) (info : info_doc) (d : dados) :
  exists r,
    extrair_campos campo texto info d = Ok r
    /\ i_arquivo_renomeado r.1 = i_arquivo_renomeado info
    /\ d_nome r.2
       = (if bool_decide (campo ∈ [py "rg"; py "certidao"])
          then Some (extrair_nome texto) else d_nome d)
    /\ d_cpf r.2
       = (if bool_decide (campo ∈ [py "rg"; py "certidao"])
          then Some (extrair_cpf texto) else d_cpf d).
Proof.
  unfold extrair_campos.
  destruct (bool_decide (campo ∈ [py "rg"; py "certidao"])).
  { rewrite (bool_decide_eq_false_2 _ (extrair_cpf_nonempty texto)). cbn [negb].
    rewrite validar_cpf_is_spec. cbn [res_bind]. eexists. repeat split; reflexivity. }
  destruct (bool_decide (campo = py "cnis")); [eexists; repeat split; reflexivity |].
  destruct (bool_decide (campo = py "pis")); [eexists; repeat split; reflexivity |].
  destruct (bool_decide (campo = py "mei")); eexists; repeat split; reflexivity.
Qed.

Lemma passo_renomeado (form_files : gmap str file_storage) (campo : str)
    (st : dados * list info_doc) (file : file_storage) :
  processado form_files campo = Some file ->
  exists d' info,
    passo form_files campo st = Ok (d', st.2 ++ [info])
    /\ d_nome d'
       = (if bool_decide (campo ∈ [py "rg"; py "certidao"])
          then Some (extrair_nome (texto_de file)) else d_nome st.1)
    /\ d_cpf d'
       = (if bool_decide (campo ∈ [py "rg"; py "certidao"])
          then Some (extrair_cpf (texto_de file)) else d_cpf st.1)
    /\ i_arquivo_renomeado info
       = if truthy (d_cpf d') && truthy (d_nome d')
         then Some (ultimo_componente
                      (novo_caminho_de (caminho_temp_de file) (default [] (d_cpf d'))
                         (default [] (d_nome d')) (upper campo)))
         else None.
Proof.
  intros Hp. unfold passo. rewrite Hp.
  destruct (extrair_campos_nome_cpf campo (texto_de file)
              (info_nova (upper campo) (filename file)
                 (verificar_qualidade_texto (texto_de file) 50)) st.1)
    as (r & -> & Hr & Hn & Hc).
  cbn [res_bind]. eexists _, _. split; [reflexivity |].
  split; [exact Hn |]. split; [exact Hc |].
  destruct (truthy (d_cpf r.2) && truthy (d_nome r.2)); [reflexivity | exact Hr].
Qed.

Lemma res_foldM_renomeados (form_files : gmap str file_storage) (l : list str)
    (fonte : option file_storage) (st : dados * list info_doc) :
  Forall (fun campo => ~ In 47%N (lower (upper campo))) l ->
  d_nome st.1 = (fun g => extrair_nome (texto_de g)) <$> fonte ->
  d_cpf st.1 = (fun g => extrair_cpf (texto_de g)) <$> fonte ->
  exists st',
    res_foldM (passo form_files) l st = Ok st'
    /\ map i_arquivo_renomeado st'.2
       = map i_arquivo_renomeado st.2 ++ renomeados_de form_files l fonte.
Proof.
  intros Hl. revert fonte st. induction Hl as [| campo l Hcampo _ IH]; intros fonte st Hn Hc.
  - exists st. split; [reflexivity |]. cbn. rewrite app_nil_r. reflexivity.
  - cbn [res_foldM renomeados_de].
    destruct (processado form_files campo) as [file |] eqn:Hp.
    + destruct (passo_renomeado form_files campo st file Hp)
        as (d' & info & -> & Hn' & Hc' & Hi).
      cbn [res_bind].
      set (fonte' := if bool_decide (campo ∈ [py "rg"; py "certidao"])
                     then Some file else fonte).
      assert (Hn2 : d_nome d' = (fun g => extrair_nome (texto_de g)) <$> fonte').
      { rewrite Hn'. subst fonte'. destruct (bool_decide _); [reflexivity | exact Hn]. }
      assert (Hc2 : d_cpf d' = (fun g => extrair_cpf (texto_de g)) <$> fonte').
      { rewrite Hc'. subst fonte'. destruct (bool_decide _); [reflexivity | exact Hc]. }
      destruct (IH fonte' (d', st.2 ++ [info]) Hn2 Hc2) as (st' & Hf & Hr).
      exists st'. split; [exact Hf |]. rewrite Hr. cbn [snd]. rewrite map_app.
      cbn [map]. rewrite <- app_assoc. cbn [app]. do 2 f_equal.
      rewrite Hi, Hn2, Hc2. destruct fonte' as [g |];
        cbn [fmap option_fmap option_map mbind option_bind default from_option id];
        [| reflexivity].
      rewrite (truthy_Some _ (extrair_cpf_nonempty (texto_de g))). cbn [andb].
      unfold nome_de_arquivo_esperado.
      destruct (extrair_nome (texto_de g)) as [| c n] eqn:Hnome; [reflexivity |].
      rewrite (bool_decide_eq_false_2 (c :: n = [])) by discriminate. cbn [truthy].
      f_equal. apply novo_caminho_de_componente. exact Hcampo.
    + rewrite (passo_None form_files campo st Hp). cbn [res_bind]. apply IH; assumption.
Qed.

Lemma campos_sem_separador : Forall (fun campo => ~ In 47%N (lower (upper campo))) campos.
Proof.
  unfold campos. repeat constructor; vm_compute;
    intros Hin; repeat (destruct Hin as [Hin | Hin]; [discriminate Hin |]); exact Hin.
Qed.

(** X18. In a loop that completes, [renomear_arquivo] is called for a
    processed document, and [arquivo_renomeado] recorded for it, exactly
    when a name-bearing document has been processed so far (the document
    itself included) and the name read from the latest of them is not
    empty; the not-found sentinel counts as a name and as a tax ID. The name
    recorded is then the digits of that tax ID, an underscore, at most 20
    ASCII letters and digits of the lowered name, an underscore, the field
    and the extension of the upload; it is recorded whether or not
    [os.rename] succeeded. With no name-bearing document processed,
    [arquivo_renomeado] is recorded for no document. *)
Theorem documentos_renomeados (form_files : gmap str file_storage)
    (form_data : gmap str str) (disk : disco) :
  (forall st disk',
     laco_campos form_files disk = (Ok st, disk') ->
     map i_arquivo_renomeado st.2 = renomeados_de form_files campos None)
  /\ (forall r disk',
        processar_documentos form_files form_data disk = (Ok r, disk') ->
        map i_arquivo_renomeado (r_documentos_processados r)
        = renomeados_de form_files campos None)
  /\ (ultimo_com_nome form_files = None ->
      Forall (fun o => o = None) (renomeados_de form_files campos None)).
Proof.
  destruct (res_foldM_renomeados form_files campos None (dados_vazio, [])
              campos_sem_separador eq_refl eq_refl) as (st & Hl & Hr).
  cbn [snd map app] in Hr. fold (laco_puro form_files) in Hl.
  split; [| split].
  - intros st' disk' Hrun. apply laco_campos_Ok in Hrun.
    rewrite Hl in Hrun. injection Hrun as <-. exact Hr.
  - intros r disk' Hp. apply processar_documentos_Ok in Hp.
    destruct Hp as (d0 & docs & Hl' & _ & ->). rewrite Hl in Hl'. injection Hl' as ->.
    exact Hr.
  - unfold ultimo_com_nome, campos. cbn [renomeados_de].
    destruct (processado form_files (py "certidao")); [discriminate |].
    intros ->.
    rewrite (bool_decide_eq_false_2 (py "cnis" ∈ [py "rg"; py "certidao"]))
      by (rewrite !elem_of_cons, elem_of_nil; intros [Hx | [Hx | []]]; discriminate Hx).
    rewrite (bool_decide_eq_false_2 (py "pis" ∈ [py "rg"; py "certidao"]))
      by (rewrite !elem_of_cons, elem_of_nil; intros [Hx | [Hx | []]]; discriminate Hx).
    rewrite (bool_decide_eq_false_2 (py "mei" ∈ [py "rg"; py "certidao"]))
      by (rewrite !elem_of_cons, elem_of_nil; intros [Hx | [Hx | []]]; discriminate Hx).
    destruct (processado form_files (py "cnis")), (processado form_files (py "pis")),
      (processado form_files (py "mei")); repeat constructor.
Qed.

(** ** The form route *)

Lemma verificar_documentos_relatorio (d : dados) :
  verificar_documentos_obrigatorios (relatorio_como_dados (gerar_relatorio d))
  = verificar_documentos_obrigatorios d.
Proof. rewrite !verificar_documentos_lista. reflexivity. Qed.

Lemma pontos_inteiros_relatorio (d : dados) (ocupacao : option str) :
  pontos_inteiros (relatorio_como_dados (gerar_relatorio d)) ocupacao
  = ((if (12 <=? size (default ∅ (d_contribuicoes d)))%nat then 2 else 0)
     + (if cpf_ok d then 1 else 0)
     + (if nada_falta d then 1 else 0)
     + (if bool_decide (ocupacao = Some (py "CLT")) then 1 else 0))%nat.
Proof.
  unfold pontos_inteiros, nada_falta. rewrite verificar_documentos_relatorio. reflexivity.
Qed.

(** X19. Scored again from the report, as the form route does, a record
    gets 2 points when it holds at least twelve contributions, whether or
    not it has an eligibility entry, and the other points as before. On a
    run of the pipeline the second scoring changes nothing: the form route
    renders the very report the pipeline returns, and raises when the
    pipeline raises. *)
Theorem upload_form_post_aprovacao :
  (forall d ocupacao,
     calcular_aprovacao (relatorio_como_dados (gerar_relatorio d)) ocupacao
     = match ((if (12 <=? size (default ∅ (d_contribuicoes d)))%nat then 2 else 0)
              + (if cpf_ok d then 1 else 0)
              + (if nada_falta d then 1 else 0)
              + (if bool_decide (ocupacao = Some (py "CLT")) then 1 else 0))%nat with
       | 0 | 1 => py "Benefício Improvável"
       | 2 => py "Pouco provável"
       | 3 => py "Provável"
       | _ => py "Muito provável"
       end)
  /\ (forall form_files form_data disk,
        upload_form_post_relatorio form_files form_data disk
        = processar_documentos form_files form_data disk).
Proof.
  split.
  - intros d ocupacao. rewrite calcular_aprovacao_inteiros, pontos_inteiros_relatorio.
    reflexivity.
  - intros form_files form_data disk. unfold upload_form_post_relatorio, io_bind at 1.
    destruct (processar_documentos form_files form_data disk) as [[r | e] disk'] eqn:Hp;
      [| reflexivity].
    unfold io_ret. f_equal. f_equal.
    apply processar_documentos_Ok in Hp. destruct Hp as (d0 & docs & Hl & Hc & ->).
    destruct (laco_puro_spec form_files)
      as (d0' & docs' & Hl' & _ & _ & _ & Hel & _ & _ & _ & _ & _ & Hcontr & _).
    rewrite Hl in Hl'. injection Hl' as <- <-.
    set (o := form_data !! py "ocupacao").
    set (d := set_finais o None docs (inconsistencia_nomes docs) d0).
    assert (Ha : calcular_aprovacao (relatorio_como_dados (gerar_relatorio d)) o
                 = calcular_aprovacao d o).
    { rewrite !calcular_aprovacao_inteiros, pontos_inteiros_relatorio.
      unfold pontos_inteiros at 1.
      assert (Hlim : limiar_atingido d = false).
      { unfold limiar_atingido. subst d. cbn [set_finais d_elegibilidade]. rewrite Hel.
        reflexivity. }
      assert (Hvazio : default ∅ (d_contribuicoes d) = ∅).
      { subst d. cbn [set_finais d_contribuicoes]. rewrite Hcontr.
        unfold contribuicoes_lidas in Hc.
        destruct (processado form_files (py "cnis")); [exact Hc | reflexivity]. }
      rewrite Hlim, Hvazio, map_size_empty. reflexivity. }
    rewrite Ha. reflexivity.
Qed.

(** ** Numerals of contributions *)

Lemma normalizar_valor_app (a b : str) :
  normalizar_valor (a ++ b) = normalizar_valor a ++ normalizar_valor b.
Proof. unfold normalizar_valor. rewrite List.filter_app, map_app. reflexivity. Qed.

Lemma isdigit_nao_ponto (c : N) : isdigit c = true -> (c =? 46)%N = false /\ (c =? 44)%N = false.
Proof.
  intros Hc. split.
  - destruct (N.eqb_spec c 46) as [-> | _]; [discriminate Hc | reflexivity].
  - destruct (N.eqb_spec c 44) as [-> | _]; [discriminate Hc | reflexivity].
Qed.

Lemma normalizar_valor_digitos (a : str) :
  digitos_e_pontos a -> normalizar_valor a = so_digitos a.
Proof.
  unfold digitos_e_pontos, normalizar_valor, so_digitos.
  induction 1 as [| c a [Hc | ->] _ IH]; [reflexivity | |].
  - destruct (isdigit_nao_ponto c Hc) as [H46 H44].
    cbn [List.filter]. rewrite H46, Hc. cbn [negb map]. rewrite H44, IH. reflexivity.
  - cbn [List.filter]. change (isdigit 46) with false. exact IH.
Qed.

Lemma split_point_digitos (ds rest : str) :
  so_de_digitos ds -> split_point (ds ++ 46%N :: rest) = (ds, Some rest).
Proof.
  unfold so_de_digitos. induction 1 as [| c ds Hc _ IH]; [reflexivity |].
  cbn [app split_point]. rewrite (proj1 (isdigit_nao_ponto c Hc)), IH. reflexivity.
Qed.

Lemma split_point_sem_ponto (ds : str) : so_de_digitos ds -> split_point ds = (ds, None).
Proof.
  unfold so_de_digitos. induction 1 as [| c ds Hc _ IH]; [reflexivity |].
  cbn [split_point]. rewrite (proj1 (isdigit_nao_ponto c Hc)), IH. reflexivity.
Qed.

Lemma digits_value_digitos (ds : str) (acc : N) :
  so_de_digitos ds -> is_Some (digits_value acc ds).
Proof.
  unfold so_de_digitos. intros Hd. revert acc.
  induction Hd as [| c ds Hc _ IH]; intros acc; [eexists; reflexivity |].
  cbn [digits_value]. destruct (isdigit_decimal c Hc) as [d ->]. apply IH.
Qed.

Lemma digits_value_nao_digito (l1 : str) (c : N) (l2 : str) (acc : N) :
  decimal c = None -> digits_value acc (l1 ++ c :: l2) = None.
Proof.
  intros Hc. revert acc. induction l1 as [| x l1 IH]; intros acc.
  - cbn [app digits_value]. rewrite Hc. reflexivity.
  - cbn [app digits_value]. destruct (decimal x); [apply IH | reflexivity].
Qed.

Lemma py_float_decimal (int_part : str) (frac : option str) :
  so_de_digitos int_part -> so_de_digitos (default [] frac) ->
  split_point (int_part ++ match frac with Some f => 46%N :: f | None => [] end)
  = (int_part, frac) ->
  py_float (int_part ++ match frac with Some f => 46%N :: f | None => [] end)
  = if bool_decide (int_part ++ default [] frac = []) then Raise ValueError
    else Ok (float_de_decimal (int_part ++ default [] frac) (length (default [] frac))).
Proof.
  intros Hi Hf Hs. unfold py_float. rewrite Hs.
  destruct (bool_decide (int_part ++ default [] frac = [])); [reflexivity |].
  unfold float_de_decimal.
  destruct (digits_value_digitos (int_part ++ default [] frac) 0) as [n ->].
  { unfold so_de_digitos in *. apply Forall_app. split; assumption. }
  cbn [default from_option id]. destruct n; reflexivity.
Qed.

(** X20. How [extrair_contribuicoes] reads an amount: the dots are dropped
    wherever they stand and a comma is the decimal point. A numeral of
    digits and dots with at least one digit is the whole number of its
    digits; with one comma it is the number of all its digits, those after
    the comma being decimals; the result is rounded to 2 places. A numeral
    with no digit, or with two commas, raises [ValueError], which the
    extractor catches: the occurrence gives no entry. *)
Theorem converter_valor_numeral :
  (forall a, digitos_e_pontos a ->
     converter_valor a
     = if bool_decide (so_digitos a = []) then Raise ValueError
       else Ok (py_round2 (float_de_decimal (so_digitos a) 0)))
  /\ (forall a b, digitos_e_pontos a -> digitos_e_pontos b ->
        converter_valor (a ++ py "," ++ b)
        = if bool_decide (so_digitos a ++ so_digitos b = []) then Raise ValueError
          else Ok (py_round2 (float_de_decimal (so_digitos a ++ so_digitos b)
                                (length (so_digitos b)))))
  /\ (forall a b c, digitos_e_pontos a ->
        converter_valor (a ++ py "," ++ b ++ py "," ++ c) = Raise ValueError).
Proof.
  split; [| split].
  - intros a Ha. unfold converter_valor. rewrite (normalizar_valor_digitos a Ha).
    pose proof (so_digitos_Forall a) as Hd.
    pose proof (py_float_decimal (so_digitos a) None Hd ltac:(constructor)) as Hp.
    cbn [default from_option id length] in Hp. rewrite !app_nil_r in Hp.
    rewrite (Hp (split_point_sem_ponto _ Hd)).
    destruct (bool_decide (so_digitos a = [])); reflexivity.
  - intros a b Ha Hb. unfold converter_valor.
    rewrite !normalizar_valor_app, (normalizar_valor_digitos a Ha),
      (normalizar_valor_digitos b Hb).
    change (normalizar_valor (py ",")) with [46%N]. cbn [app].
    pose proof (so_digitos_Forall a) as Hda. pose proof (so_digitos_Forall b) as Hdb.
    pose proof (py_float_decimal (so_digitos a) (Some (so_digitos b)) Hda Hdb
                  (split_point_digitos _ _ Hda)) as Hp.
    cbn [default from_option id] in Hp. rewrite Hp.
    destruct (bool_decide (so_digitos a ++ so_digitos b = [])); reflexivity.
  - intros a b c Ha. unfold converter_valor.
    rewrite !normalizar_valor_app, (normalizar_valor_digitos a Ha).
    change (normalizar_valor (py ",")) with [46%N]. cbn [app].
    pose proof (so_digitos_Forall a) as Hda.
    unfold py_float. rewrite (split_point_digitos _ _ Hda).
    cbn [default from_option id].
    destruct (bool_decide _); [reflexivity |].
    rewrite app_assoc.
    rewrite (digits_value_nao_digito _ 46%N _ 0%N eq_refl). reflexivity.
Qed.

(** ** One turn of the loop and the disk *)

Lemma processar_campo_rejeitado (form_files : gmap str file_storage) (campo : str)
    (st : dados * list info_doc) (disk disk1 : disco) (file : file_storage) :
  enviado form_files campo = Some file ->
  save file (caminho_temp_de file) disk = (Ok tt, disk1) ->
  aceito file = false ->
  processar_campo form_files campo st disk = (Ok st, disk1).
Proof.
  intros He Hs Ha. pose proof (fs_save_lookup _ _ _ _ Hs) as Hl.
  unfold enviado in He. unfold processar_campo.
  destruct (form_files !! campo) as [f |]; [| discriminate].
  destruct (bool_decide (filename f = [])); [discriminate |]. injection He as ->.
  fold (caminho_temp_de file).
  unfold io_bind at 1. rewrite Hs. unfold io_bind at 1. unfold io_read at 1.
  rewrite (validar_arquivo_lookup disk1 _ _ Hl).
  unfold aceito, disco_de in Ha.
  destruct (validar_arquivo_singleton (caminho_temp_de file) (stream file))
    as (b & msg & Hv).
  rewrite Hv in Ha |- *. destruct b; [discriminate Ha |]. reflexivity.
Qed.

Lemma processar_campo_aceito (form_files : gmap str file_storage) (campo : str)
    (st : dados * list info_doc) (disk disk1 : disco) (file : file_storage) :
  processado form_files campo = Some file ->
  save file (caminho_temp_de file) disk = (Ok tt, disk1) ->
  exists d' info,
    passo form_files campo st = Ok (d', st.2 ++ [info])
    /\ processar_campo form_files campo st disk
       = (Ok (d', st.2 ++ [info]),
          if truthy (d_cpf d') && truthy (d_nome d')
          then snd (os_rename (caminho_temp_de file)
                      (novo_caminho_de (caminho_temp_de file) (default [] (d_cpf d'))
                         (default [] (d_nome d')) (upper campo))
                      disk1)
          else disk1).
Proof.
  intros Hp Hs. pose proof (fs_save_lookup _ _ _ _ Hs) as Hl.
  destruct (passo_renomeado form_files campo st file Hp) as (d' & info & Hpasso & _).
  exists d', info. split; [exact Hpasso |].
  unfold passo in Hpasso. rewrite Hp in Hpasso.
  apply processado_aceito in Hp. destruct Hp as (Hf & Hn & Ha).
  unfold processar_campo. rewrite Hf, (bool_decide_eq_false_2 _ Hn).
  fold (caminho_temp_de file).
  unfold io_bind at 1. rewrite Hs. unfold io_bind at 1. unfold io_read at 1.
  rewrite (validar_arquivo_lookup disk1 _ _ Hl).
  unfold aceito, disco_de in Ha.
  destruct (validar_arquivo_singleton (caminho_temp_de file) (stream file))
    as (b & msg & Hv).
  rewrite Hv in Ha |- *. destruct b; [| discriminate Ha]. cbn [fst negb].
  unfold io_bind at 1. unfold io_read at 1.
  rewrite (extrair_texto_lookup disk1 _ _ Hl).
  fold (disco_de file). fold (texto_de file).
  unfold io_bind at 1. unfold io_lift at 1.
  destruct (extrair_campos campo (texto_de file) _ st.1) as [r | e]; [| discriminate].
  cbn [res_bind] in Hpasso. injection Hpasso as Hd' Hinfo. subst d'.
  apply app_inv_head in Hinfo. injection Hinfo as Hinfo.
  destruct (truthy (d_cpf r.2) && truthy (d_nome r.2)).
  - unfold io_bind at 1. unfold io_bind at 1. unfold renomear_arquivo.
    destruct (os_rename _ _ disk1) as [[[] | e] disk2]; cbn [snd]; unfold io_ret;
      rewrite Hinfo; reflexivity.
  - unfold io_bind at 1. unfold io_ret. rewrite Hinfo. reflexivity.
Qed.

(** X21. What one turn of the loop of [processar_documentos] does to the
    disk. With no upload for the field nothing changes. An upload is first
    written to the path joined from [temp] and its file name; when that
    fails, the exception of [file.save] leaves the loop and nothing more is
    done. When the gate rejects the upload, it stays at that path and the
    record and the list of documents are unchanged. When the gate accepts
    it, the document is appended to the list, and the disk is left as the
    write left it unless a tax ID and a name are then known, in which case
    [os.rename] to the path [renomear_arquivo] builds from them is
    attempted once; the turn returns the same whether the rename succeeds
    or fails. *)
Theorem processar_campo_disk (form_files : gmap str file_storage) (campo : str)
    (st : dados * list info_doc) (disk : disco) :
  (enviado form_files campo = None ->
   processar_campo form_files campo st disk = (Ok st, disk))
  /\ (forall file e disk1,
        enviado form_files campo = Some file ->
        save file (caminho_temp_de file) disk = (Raise e, disk1) ->
        processar_campo form_files campo st disk = (Raise e, disk1))
  /\ (forall file disk1,
        enviado form_files campo = Some file ->
        save file (caminho_temp_de file) disk = (Ok tt, disk1) ->
        aceito file = false ->
        processar_campo form_files campo st disk = (Ok st, disk1)
        /\ disk1 !! caminho_temp_de file = Some (stream file))
  /\ (forall file disk1,
        processado form_files campo = Some file ->
        save file (caminho_temp_de file) disk = (Ok tt, disk1) ->
        exists d' info,
          passo form_files campo st = Ok (d', st.2 ++ [info])
          /\ processar_campo form_files campo st disk
             = (Ok (d', st.2 ++ [info]),
                if truthy (d_cpf d') && truthy (d_nome d')
                then snd (os_rename (caminho_temp_de file)
                            (novo_caminho_de (caminho_temp_de file) (default [] (d_cpf d'))
                               (default [] (d_nome d')) (upper campo))
                            disk1)
                else disk1)).
Proof.
  split; [| split; [| split]].
  - intros He. exact (proj1 (processar_campo_sem_envio form_files campo st disk He)).
  - intros file e disk1. apply processar_campo_save_raise.
  - intros file disk1 He Hs Ha. split.
    + exact (processar_campo_rejeitado form_files campo st disk disk1 file He Hs Ha).
    + exact (fs_save_lookup _ _ _ _ Hs).
  - intros file disk1. apply processar_campo_aceito.
Qed.


(** ** Runs that return *)

Lemma laco_campos_retorna (form_files : gmap str file_storage) (disk : disco) :
  retornou (fst (laco_campos form_files disk)) = true ->
  exists st disk', laco_campos form_files disk = (Ok st, disk').
Proof.
  destruct (laco_campos form_files disk) as [[st | e] disk']; [| discriminate].
  intros _. exists st, disk'. reflexivity.
Qed.

Lemma dados_aggregados_retorna (form_files : gmap str file_storage)
    (form_data : gmap str str) (disk : disco) :
  retornou (fst (laco_campos form_files disk)) = true ->
  contribuicoes_lidas form_files = ∅ ->
  exists d disk', dados_aggregados form_files form_data disk = (Ok d, disk').
Proof.
  intros Hl Hc. apply laco_campos_retorna in Hl. destruct Hl as (st & disk1 & Hl).
  destruct (dados_aggregados_run form_files form_data disk)
    as [[disk' Hrun] | (e & disk' & Hl' & _)]; [| rewrite Hl' in Hl; discriminate].
  destruct (dados_puros_cases form_files form_data) as (d0 & docs & _ & Hd).
  rewrite bool_decide_eq_true_2 in Hd by exact Hc. rewrite Hd in Hrun.
  eexists _, disk'. exact Hrun.
Qed.

Lemma processar_documentos_returns (form_files : gmap str file_storage)
    (form_data : gmap str str) (disk : disco) :
  retornou (fst (laco_campos form_files disk)) = true ->
  contribuicoes_lidas form_files = ∅ ->
  exists r disk', processar_documentos form_files form_data disk = (Ok r, disk').
Proof.
  intros Hl Hc.
  destruct (dados_aggregados_retorna form_files form_data disk Hl Hc) as (d & disk' & Hd).
  exists (gerar_relatorio d), disk'. unfold processar_documentos, io_bind. rewrite Hd.
  reflexivity.
Qed.

End Properties.

(** * Runs on concrete inputs *)

#[local] Existing Instance ascii_db.
#[local] Existing Instance posix.

(** C3, as stated, fails: twelve digits that are not all identical and
    whose last two digits are the check digits of the first nine are valid
    by the stated rule, and the code rejects them. *)
Lemma validar_cpf_enunciado_counterexample :
  validar_cpf (py "111444777035") = Ok false
  /\ validar_cpf_enunciado (py "111444777035") = true.
Proof. split; vm_compute; reflexivity. Qed.

Lemma validar_cpf_checksum_witness :
  validar_cpf (py "111.444.777-35") = Ok true
  /\ validar_cpf (py "111.444.777-36") = Ok false
  /\ validar_cpf (py "111.444.777-25") = Ok false.
Proof.
  split; [vm_compute; reflexivity |]. split.
  - apply (proj2 (proj2 validar_cpf_checksum) (py "111.444.777-35") _ 10%nat 54%N).
    + vm_compute; reflexivity.
    + right; reflexivity.
    + vm_compute. discriminate.
    + vm_compute; reflexivity.
  - apply (proj2 (proj2 validar_cpf_checksum) (py "111.444.777-35") _ 9%nat 50%N).
    + vm_compute; reflexivity.
    + left; reflexivity.
    + vm_compute. discriminate.
    + vm_compute; reflexivity.
Defined.

Lemma validar_cpf_length_guard_witness :
  validar_cpf (py "111444777035") = Ok false
  /\ validar_cpf (py "111.444.777-3") = Ok false.
Proof.
  split; apply validar_cpf_length_guard; vm_compute; lia.
Defined.


Lemma extrair_cpf_priority_witness :
  extrair_cpf (py "12345678901 111.444.777-35") = py "111.444.777-35"
  /\ extrair_cpf (py "x 12345678901234") = py "123.456.789-01"
  /\ extrair_cpf (py "111.444.777-3 1234567890") = nao_encontrado.
Proof.
  split; [| split].
  - destruct (re_search_Some_primeira padrao_cpf cpf_pontuado padrao_cpf_exato
                casa_padrao_cpf cpf_pontuado_casa (py "12345678901 111.444.777-35")
                [py "111"; py "."; py "444"; py "."; py "777"; py "-"; py "35"])
      as [i Hp]; [vm_compute; reflexivity |].
    exact (proj1 (extrair_cpf_priority _) i _ Hp).
  - destruct (re_search_Some_primeira padrao2_cpf onze_digitos padrao2_cpf_exato
                casa_padrao2_cpf onze_digitos_casa (py "x 12345678901234")
                [py "12345678901"])
      as [i Hp]; [vm_compute; reflexivity |].
    refine (proj1 (proj2 (extrair_cpf_priority _)) _ i _ Hp).
    apply (re_search_None_nenhuma padrao_cpf cpf_pontuado padrao_cpf_exato cpf_pontuado_casa).
    vm_compute; reflexivity.
  - apply (proj2 (proj2 (extrair_cpf_priority _))).
    + apply (re_search_None_nenhuma padrao_cpf cpf_pontuado padrao_cpf_exato cpf_pontuado_casa).
      vm_compute; reflexivity.
    + apply (re_search_None_nenhuma padrao2_cpf onze_digitos padrao2_cpf_exato
               onze_digitos_casa).
      vm_compute; reflexivity.
Defined.


(** C4, as stated, fails: with two name-bearing documents that each yield a
    tax ID the record holds the one of the later document, not of the first;
    and a later document that yields none overwrites the tax ID of the
    earlier one with the not-found sentinel. *)
Lemma dados_aggregados_cpf_counterexample :
  ((fun f => extrair_cpf (texto_de f)) <$> primeiro_com_cpf envio_dois_cpfs
   = Some (py "111.444.777-35")
   /\ d_cpf <$> resultado (fst (dados_aggregados envio_dois_cpfs (form_ocupacao "CLT")
                                  disco_inicial))
      = Some (Some (py "529.982.247-25")))
  /\ ((fun f => extrair_cpf (texto_de f)) <$> primeiro_com_cpf envio_certidao_sem_cpf
      = Some (py "111.444.777-35")
      /\ d_cpf <$> resultado (fst (dados_aggregados envio_certidao_sem_cpf
                                     (form_ocupacao "CLT") disco_inicial))
         = Some (Some nao_encontrado)).
Proof. repeat split; vm_compute; reflexivity. Qed.

Lemma dados_aggregados_cpf_witness :
  validar_cpf (py "529.982.247-25") = Ok true
  /\ exists st disk',
       laco_campos envio_dois_cpfs disco_inicial = (Ok st, disk')
       /\ d_cpf st.1 = Some (py "529.982.247-25")
       /\ d_cpf_valido st.1 = Some true.
Proof.
  assert (Hu : ultimo_com_nome envio_dois_cpfs
               = Some (upload "certidao.pdf"
                         (py "Nome: Maria Silva. CPF: 529.982.247-25." ++ enchimento)))
    by (vm_compute; reflexivity).
  destruct (laco_campos_retorna envio_dois_cpfs disco_inicial) as (st & disk' & Hrun);
    [vm_compute; reflexivity |].
  destruct (dados_aggregados_cpf envio_dois_cpfs (form_ocupacao "CLT") disco_inicial _ Hu)
    as (Hv & Hl & _); [vm_compute; discriminate |].
  split; [exact Hv |]. exists st, disk'. split; [exact Hrun | exact (Hl st disk' Hrun)].
Defined.

(** C5, as stated, fails: a social-insurance card that was supplied and
    that the quality gate rejects is reported missing; and the identity
    document, the birth certificate and the contribution statement are
    reported missing also when they were supplied and accepted. *)
Lemma faltantes_enunciado_counterexample :
  (r_informacoes_incompletas
     <$> resultado (fst (processar_documentos envio_pis_ilegivel (form_ocupacao "CLT")
                           disco_inicial))
   = Some [py "RG"; py "CERTIDAO"; py "CNIS"; py "PIS"]
   /\ faltantes_enunciado envio_pis_ilegivel (Some (py "CLT"))
      = [py "RG"; py "CERTIDAO"; py "CNIS"])
  /\ (r_informacoes_incompletas
        <$> resultado (fst (processar_documentos envio_completo (form_ocupacao "CLT")
                              disco_inicial))
      = Some [py "RG"; py "CERTIDAO"; py "CNIS"]
      /\ faltantes_enunciado envio_completo (Some (py "CLT")) = []).
Proof. repeat split; vm_compute; reflexivity. Qed.

Lemma verificar_documentos_pipeline_witness :
  exists d disk',
    dados_aggregados envio_pis_ilegivel (form_ocupacao "MEI") disco_inicial = (Ok d, disk')
    /\ py "PIS" ∈ verificar_documentos_obrigatorios d
    /\ py "MEI" ∈ verificar_documentos_obrigatorios d.
Proof.
  assert (Hrun : exists d disk',
             dados_aggregados envio_pis_ilegivel (form_ocupacao "MEI") disco_inicial
             = (Ok d, disk'))
    by (apply dados_aggregados_retorna; vm_compute; reflexivity).
  destruct Hrun as (d & disk' & Hrun). exists d, disk'. split; [exact Hrun |].
  destruct (proj2 verificar_documentos_pipeline envio_pis_ilegivel (form_ocupacao "MEI")
              disco_inicial d disk' Hrun) as (_ & Hpis & Hmei).
  split.
  - apply Hpis. vm_compute; reflexivity.
  - apply Hmei. split; vm_compute; reflexivity.
Defined.

Lemma extrair_contribuicoes_entries_witness :
  extrair_contribuicoes (py "2023-05: 1,00 2023-05: 2,50 2023-05: ,") !! py "2023-05"
  = Some (py_round2 (float_of_ratio false 250 100)).
Proof.
  apply (proj1 (proj2 (proj2 (extrair_contribuicoes_entries _)))
           [(py "2023-05", py "1,00")] [(py "2023-05", py ",")] (py "2023-05") (py "2,50")).
  - vm_compute; reflexivity.
  - vm_compute; reflexivity.
  - intros valor_str' x' Hin. apply list_elem_of_singleton in Hin.
    injection Hin as ->. vm_compute. discriminate.
Defined.

Lemma inconsistencia_nomes_distinct_witness :
  lower (py "Maria Silva") = lower (py "maria silva").
Proof.
  apply (proj1 (proj1 (proj1 inconsistencia_nomes_distinct
                         [documento_com_nome "RG" "Maria Silva";
                          documento_com_nome "CERTIDAO" "maria silva"]))).
  - vm_compute; reflexivity.
  - exists (documento_com_nome "RG" "Maria Silva").
    split; [apply list_elem_of_here |]. split; [reflexivity |].
    split; vm_compute; discriminate.
  - exists (documento_com_nome "CERTIDAO" "maria silva").
    split; [apply list_elem_of_further, list_elem_of_here |]. split; [reflexivity |].
    split; vm_compute; discriminate.
Defined.

(** ** Further runs *)

Lemma envio_completo_run :
  exists r disk',
    processar_documentos envio_completo (form_ocupacao "CLT") disco_inicial = (Ok r, disk').
Proof. apply processar_documentos_returns; vm_compute; reflexivity. Qed.

Lemma envio_certidao_sem_cpf_run :
  exists r disk',
    processar_documentos envio_certidao_sem_cpf (form_ocupacao "CLT") disco_inicial
    = (Ok r, disk').
Proof. apply processar_documentos_returns; vm_compute; reflexivity. Qed.

Lemma envio_nomes_diferentes_run :
  exists d disk',
    dados_aggregados envio_nomes_diferentes (form_ocupacao "CLT") disco_inicial
    = (Ok d, disk').
Proof. apply dados_aggregados_retorna; vm_compute; reflexivity. Qed.

Lemma formatar_cpf_round_trip_witness :
  so_digitos (formatar_cpf (py "11144477735")) = py "11144477735"
  /\ validar_cpf (formatar_cpf (py "11144477735")) = validar_cpf (py "11144477735")
  /\ formatar_cpf (so_digitos (py "111.444.777-35")) = py "111.444.777-35".
Proof.
  assert (Hg : onze_digitos (py "11144477735")).
  { split; [reflexivity |]. apply forallb_isdigit. vm_compute. reflexivity. }
  assert (Hw : cpf_pontuado (py "111.444.777-35")).
  { exists (py "111"), (py "444"), (py "777"), (py "35").
    repeat split; try (apply forallb_isdigit; vm_compute; reflexivity). }
  destruct (proj1 formatar_cpf_round_trip _ Hg) as (_ & H1 & H2).
  destruct (proj1 (proj2 formatar_cpf_round_trip) _ Hw) as (_ & H3).
  split; [exact H1 |]. split; [exact H2 | exact H3].
Defined.

Lemma extrair_cpf_shape_witness :
  validar_cpf (extrair_cpf (py "sem numero")) = Ok false
  /\ length (so_digitos (extrair_cpf (py "CPF 11144477735"))) = 11%nat.
Proof.
  split.
  - apply (proj1 (proj2 (proj2 (extrair_cpf_shape (py "sem numero"))))).
    vm_compute. reflexivity.
  - apply (proj2 (proj2 (proj2 (extrair_cpf_shape (py "CPF 11144477735"))))).
    vm_compute. discriminate.
Defined.

Lemma validar_cpf_check_digits_witness :
  validar_cpf (py "111444777" ++ py "35") = Ok true
  /\ validar_cpf (replicate 11 (char_de_digito 7)) = Ok false.
Proof.
  split.
  - apply (proj1 validar_cpf_check_digits (py "111444777") 51%N 53%N).
    + reflexivity.
    + apply forallb_isdigit. vm_compute. reflexivity.
    + split; vm_compute; reflexivity.
  - apply (proj2 validar_cpf_check_digits 7%Z). lia.
Defined.

Lemma extrair_texto_pdf_pages_witness :
  extrair_texto_pdf ({[ py "temp/a.pdf" := pdf_tres_paginas ]} : gmap str arquivo)
    (py "temp/a.pdf") 5
  = py "Um" ++ [10%N] ++ py "Dois" ++ [10%N] ++ py "Tres" ++ [10%N]
  /\ extrair_texto_pdf ({[ py "temp/a.pdf" := pdf_tres_paginas ]} : gmap str arquivo)
       (py "temp/a.pdf") 2
     = py "Um" ++ [10%N] ++ py "Dois" ++ [10%N]
  /\ extrair_texto_pdf
       ({[ py "temp/a.pdf" := {| tamanho := 2048; paginas := Some pdf_pagina_ilegivel |} ]}
        : gmap str arquivo) (py "temp/a.pdf") 5
     = py "Um" ++ [10%N]
  /\ extrair_texto_pdf (∅ : gmap str arquivo) (py "temp/a.pdf") 5 = [].
Proof.
  split; [| split; [| split]].
  - apply (proj1 (extrair_texto_pdf_pages _ _ 5%nat) pdf_tres_paginas
             [Some (py "Um"); Some (py "Dois"); Some (py "Tres")]
             [py "Um"; py "Dois"; py "Tres"]).
    + vm_compute. reflexivity.
    + reflexivity.
    + reflexivity.
  - apply (proj1 (proj2 (extrair_texto_pdf_pages _ _ 2%nat)) pdf_tres_paginas
             [py "Um"; py "Dois"] [Some (py "Tres")]).
    + vm_compute. reflexivity.
    + reflexivity.
    + reflexivity.
  - apply (proj1 (proj2 (proj2 (extrair_texto_pdf_pages _ _ 5%nat)))
             {| tamanho := 2048; paginas := Some pdf_pagina_ilegivel |}
             [py "Um"] [Some (py "Tres")]).
    + vm_compute. reflexivity.
    + reflexivity.
    + cbn. lia.
  - apply (proj2 (proj2 (proj2 (extrair_texto_pdf_pages _ _ 5%nat)))). left. reflexivity.
Defined.

Lemma validar_arquivo_gate_witness :
  verificar_qualidade_texto
    (extrair_texto (disco_de (upload "rg.pdf" enchimento))
       (caminho_temp_de (upload "rg.pdf" enchimento))) 50
  = py "OK".
Proof.
  apply (validar_arquivo_gate (disco_de (upload "rg.pdf" enchimento))
           (caminho_temp_de (upload "rg.pdf" enchimento)) (py "Arquivo válido.")).
  vm_compute. reflexivity.
Defined.

Lemma documentos_processados_resumo_witness :
  exists r disk',
    processar_documentos envio_completo (form_ocupacao "CLT") disco_inicial = (Ok r, disk')
    /\ map resumo (r_documentos_processados r)
       = [(py "RG", py "rg.pdf", py "OK"); (py "CERTIDAO", py "certidao.pdf", py "OK");
          (py "CNIS", py "cnis.pdf", py "OK"); (py "PIS", py "pis.pdf", py "OK")].
Proof.
  destruct envio_completo_run as (r & disk' & Hrun). exists r, disk'.
  split; [exact Hrun |].
  rewrite (proj1 (proj2 (documentos_processados_resumo envio_completo (form_ocupacao "CLT")
                           disco_inicial)) r disk' Hrun).
  vm_compute. reflexivity.
Defined.

Lemma processar_documentos_outcome_witness :
  fst (processar_documentos envio_subpasta (form_ocupacao "CLT") disco_inicial)
  = Raise (FileNotFoundError (py "temp/sub/rg.pdf"))
  /\ fst (processar_documentos envio_com_contribuicao (form_ocupacao "CLT") disco_inicial)
     = Raise (NameError (py "contribs"))
  /\ exists r,
       fst (processar_documentos envio_completo (form_ocupacao "CLT") disco_inicial) = Ok r.
Proof.
  split; [| split].
  - assert (Hl : laco_campos envio_subpasta disco_inicial
                 = (Raise (FileNotFoundError (py "temp/sub/rg.pdf")), disco_inicial))
      by (vm_compute; reflexivity).
    rewrite (proj2 (proj1 (processar_documentos_outcome envio_subpasta (form_ocupacao "CLT")
                             disco_inicial) _ _ Hl)).
    reflexivity.
  - destruct (laco_campos_retorna envio_com_contribuicao disco_inicial)
      as (st & disk1 & Hl); [vm_compute; reflexivity |].
    rewrite (proj1 (proj2 (processar_documentos_outcome envio_com_contribuicao
                             (form_ocupacao "CLT") disco_inicial) st disk1 Hl)).
    + reflexivity.
    + vm_compute. discriminate.
  - destruct (laco_campos_retorna envio_completo disco_inicial)
      as (st & disk1 & Hl); [vm_compute; reflexivity |].
    destruct (proj2 (proj2 (processar_documentos_outcome envio_completo
                              (form_ocupacao "CLT") disco_inicial) st disk1 Hl))
      as [r Hr]; [vm_compute; reflexivity |].
    exists r. rewrite Hr. reflexivity.
Defined.

Lemma relatorio_sem_contribuicoes_witness :
  exists r disk',
    processar_documentos envio_completo (form_ocupacao "CLT") disco_inicial = (Ok r, disk')
    /\ r_beneficio_estimado r = None
    /\ pagou_12_meses (r_elegibilidade r) = false.
Proof.
  destruct envio_completo_run as (r & disk' & Hrun). exists r, disk'.
  split; [exact Hrun |].
  destruct (relatorio_sem_contribuicoes envio_completo (form_ocupacao "CLT") disco_inicial
              disk' r Hrun)
    as (Hb & Hp & _).
  split; [exact Hb | exact Hp].
Defined.

Lemma relatorio_informacoes_incompletas_witness :
  exists r disk',
    processar_documentos envio_completo (form_ocupacao "CLT") disco_inicial = (Ok r, disk')
    /\ r_informacoes_incompletas r = [py "RG"; py "CERTIDAO"; py "CNIS"].
Proof.
  destruct envio_completo_run as (r & disk' & Hrun). exists r, disk'.
  split; [exact Hrun |].
  destruct (relatorio_informacoes_incompletas envio_completo (form_ocupacao "CLT")
              disco_inicial disk' r Hrun) as (_ & _ & _ & Hi).
  rewrite Hi. vm_compute. reflexivity.
Defined.

Lemma relatorio_aprovacao_witness :
  exists r disk',
    processar_documentos envio_completo (form_ocupacao "CLT") disco_inicial = (Ok r, disk')
    /\ r_aprovacao r = py "Benefício Improvável".
Proof.
  destruct envio_completo_run as (r & disk' & Hrun). exists r, disk'.
  split; [exact Hrun |].
  destruct (relatorio_aprovacao envio_completo (form_ocupacao "CLT") disco_inicial disk' r
              Hrun)
    as (Ha & _).
  rewrite Ha. vm_compute. reflexivity.
Defined.

Lemma relatorio_nome_cpf_witness :
  exists r disk',
    processar_documentos envio_certidao_sem_cpf (form_ocupacao "CLT") disco_inicial
    = (Ok r, disk')
    /\ r_cpf r = Some nao_encontrado /\ r_cpf_valido r = Some false.
Proof.
  destruct envio_certidao_sem_cpf_run as (r & disk' & Hrun). exists r, disk'.
  split; [exact Hrun |].
  destruct (relatorio_nome_cpf envio_certidao_sem_cpf (form_ocupacao "CLT") disco_inicial
              disk' r Hrun)
    as (_ & _ & _ & Hs).
  apply (Hs (upload "certidao.pdf" (py "Nome: Maria Silva. Registro civil." ++ enchimento))).
  - vm_compute. reflexivity.
  - vm_compute. reflexivity.
Defined.

Lemma calcular_aprovacao_tiers_witness :
  calcular_aprovacao (dados_exemplo true true false) (Some (py "MEI"))
  = calcular_aprovacao (dados_exemplo true true false) None
  /\ calcular_aprovacao (dados_exemplo false true true) (Some (py "CLT"))
     <> py "Muito provável".
Proof.
  split.
  - apply (proj1 (proj2 (calcular_aprovacao_tiers _ _))). discriminate.
  - apply (proj2 (proj2 (calcular_aprovacao_tiers _ _))). reflexivity.
Defined.

Lemma novo_caminho_de_nome_witness :
  ultimo_componente
    (novo_caminho_de (py "temp/rg.pdf") (py "111.444.777-35") (py "Maria Silva") (py "RG"))
  = py "11144477735_mariasilva_rg.pdf"
  /\ dirname (novo_caminho_de (py "temp/rg.pdf") (py "111.444.777-35") (py "Maria Silva")
                (py "RG"))
     = py "temp".
Proof.
  destruct (novo_caminho_de_nome (py "temp/rg.pdf") (py "111.444.777-35") (py "Maria Silva")
              (py "RG")) as (Hu & Hd & _).
  { vm_compute. intros [Hx | [Hx | []]]; discriminate Hx. }
  rewrite Hu, Hd. split; vm_compute; reflexivity.
Defined.

Lemma renomear_arquivo_disk_witness :
  (exists disk' : @disco posix,
     renomear_arquivo (py "temp/rg.pdf") (py "111.444.777-35") (py "Maria Silva") (py "RG")
       disco_com_rg
     = (Ok (py "temp/11144477735_mariasilva_rg.pdf"), disk')
     /\ disk' !! py "temp/11144477735_mariasilva_rg.pdf" = Some (pdf_com_texto enchimento))
  /\ renomear_arquivo (py "temp/rg.pdf") (py "111.444.777-35") (py "Maria Silva") (py "R/G")
       disco_com_rg
     = (Ok (py "temp/11144477735_mariasilva_r/g.pdf"), disco_com_rg).
Proof.
  split.
  - destruct (os_rename (py "temp/rg.pdf")
                (novo_caminho_de (py "temp/rg.pdf") (py "111.444.777-35") (py "Maria Silva")
                   (py "RG")) disco_com_rg) as [[[] | e] disk'] eqn:Hr;
      [| vm_compute in Hr; discriminate Hr].
    destruct (proj1 (proj2 (renomear_arquivo_disk (py "temp/rg.pdf") (py "111.444.777-35")
                              (py "Maria Silva") (py "RG") disco_com_rg)) disk' Hr)
      as [Hrun Hl].
    exists disk'. split; [exact Hrun |].
    change (disk' !! novo_caminho_de (py "temp/rg.pdf") (py "111.444.777-35")
                       (py "Maria Silva") (py "RG")
            = Some (pdf_com_texto enchimento)).
    rewrite Hl. vm_compute. reflexivity.
  - apply (proj2 (proj2 (renomear_arquivo_disk (py "temp/rg.pdf") (py "111.444.777-35")
                           (py "Maria Silva") (py "R/G") disco_com_rg))
             (FileNotFoundError (py "temp/11144477735_mariasilva_r/g.pdf")) disco_com_rg).
    vm_compute. reflexivity.
Defined.

Lemma inconsistencia_nomes_run_witness :
  exists d disk',
    dados_aggregados envio_nomes_diferentes (form_ocupacao "CLT") disco_inicial
    = (Ok d, disk')
    /\ d_inconsistencia_nomes d
       = Some (py "Inconsistência nos nomes extraídos. Verifique manualmente.").
Proof.
  destruct envio_nomes_diferentes_run as (d & disk' & Hrun). exists d, disk'.
  split; [exact Hrun |].
  rewrite (proj1 (proj2 (inconsistencia_nomes_run envio_nomes_diferentes
                           (form_ocupacao "CLT") disco_inicial)) d disk' Hrun).
  vm_compute. reflexivity.
Defined.

Lemma extrair_pis_shape_witness :
  ~ ocorre pis_formatado (py "PIS/PASEP 123.456") 0 (py "PIS/PASEP 123.456").
Proof.
  apply (proj2 (proj1 (proj2 (extrair_pis_shape (py "PIS/PASEP 123.456"))))).
  vm_compute. reflexivity.
Defined.

Lemma extrair_nome_run_witness :
  extrair_nome (py "Documento " ++ py "NOME" ++ py ":"
                ++ (py " maria silva" ++ [10%N] ++ py "cpf") ++ py ": 1")
  = py "Maria Silva" ++ [10%N] ++ py "Cpf"
  /\ extrair_nome (py "Documento " ++ py "nome" ++ py ":" ++ py "   " ++ py "123") = [].
Proof.
  assert (Hpre : ~ In 58%N (py "Documento ")).
  { vm_compute. intros Hin.
    repeat (destruct Hin as [Hin | Hin]; [discriminate Hin |]). exact Hin. }
  split.
  - destruct (extrair_nome_run (py "Documento ") (py "NOME")
                (py " maria silva" ++ [10%N] ++ py "cpf") (py ": 1")) as [Hr _].
    + exact Hpre.
    + vm_compute. reflexivity.
    + discriminate.
    + vm_compute. reflexivity.
    + intros c Hc. vm_compute in Hc. injection Hc as <-. split; vm_compute; reflexivity.
    + rewrite Hr. vm_compute. reflexivity.
  - apply (extrair_nome_run (py "Documento ") (py "nome") (py "   ") (py "123")).
    + exact Hpre.
    + vm_compute. reflexivity.
    + discriminate.
    + vm_compute. reflexivity.
    + intros c Hc. vm_compute in Hc. injection Hc as <-. split; vm_compute; reflexivity.
    + vm_compute. reflexivity.
Defined.

Lemma documentos_renomeados_witness :
  exists r disk',
    processar_documentos envio_completo (form_ocupacao "CLT") disco_inicial = (Ok r, disk')
    /\ map i_arquivo_renomeado (r_documentos_processados r)
       = [Some (py "11144477735_mariasilva_rg.pdf"); Some (py "_mariasilva_certidao.pdf");
          Some (py "_mariasilva_cnis.pdf"); Some (py "_mariasilva_pis.pdf")].
Proof.
  destruct envio_completo_run as (r & disk' & Hrun). exists r, disk'.
  split; [exact Hrun |].
  rewrite (proj1 (proj2 (documentos_renomeados envio_completo (form_ocupacao "CLT")
                           disco_inicial)) r disk' Hrun).
  vm_compute. reflexivity.
Defined.

Lemma converter_valor_numeral_witness :
  converter_valor (py "1.234" ++ py "," ++ py "56")
  = Ok (py_round2 (float_of_ratio false 123456 100))
  /\ converter_valor (py "1" ++ py "," ++ py "2" ++ py "," ++ py "3") = Raise ValueError.
Proof.
  assert (Hd : forall s, forallb (fun c => isdigit c || (c =? 46)%N) s = true ->
                         digitos_e_pontos s).
  { intros s Hs. apply List.Forall_forall. intros c Hc.
    rewrite forallb_forall in Hs. specialize (Hs c Hc).
    apply orb_true_iff in Hs. rewrite N.eqb_eq in Hs. exact Hs. }
  split.
  - rewrite (proj1 (proj2 converter_valor_numeral) (py "1.234") (py "56")).
    + vm_compute. reflexivity.
    + apply Hd. vm_compute. reflexivity.
    + apply Hd. vm_compute. reflexivity.
  - apply (proj2 (proj2 converter_valor_numeral) (py "1") (py "2") (py "3")).
    apply Hd. vm_compute. reflexivity.
Defined.

Lemma processar_campo_disk_witness :
  processar_campo envio_subpasta (py "rg") (dados_vazio, []) disco_inicial
  = (Raise (FileNotFoundError (py "temp/sub/rg.pdf")), disco_inicial)
  /\ (exists disk1 : @disco posix,
        processar_campo envio_pis_ilegivel (py "pis") (dados_vazio, []) disco_inicial
        = (Ok (dados_vazio, []), disk1)
        /\ disk1 !! py "temp/pis.pdf" = Some (pdf_com_texto (py "PIS/PASEP: 123.45678.90-1")))
  /\ (exists d' info,
        processar_campo envio_subpasta (py "rg") (dados_vazio, []) disco_com_sub
        = (Ok (d', [info]),
           snd (os_rename (py "temp/sub/rg.pdf")
                  (py "temp/sub/11144477735_mariasilva_rg.pdf")
                  (snd (save (upload "sub/rg.pdf"
                                (py "Nome: Maria Silva. CPF: 111.444.777-35." ++ enchimento))
                          (py "temp/sub/rg.pdf") disco_com_sub))))).
Proof.
  split; [| split].
  - apply (proj1 (proj2 (processar_campo_disk envio_subpasta (py "rg") (dados_vazio, [])
                           disco_inicial))
             (upload "sub/rg.pdf" (py "Nome: Maria Silva. CPF: 111.444.777-35." ++ enchimento))).
    + vm_compute. reflexivity.
    + vm_compute. reflexivity.
  - destruct (save (upload "pis.pdf" (py "PIS/PASEP: 123.45678.90-1"))
                (caminho_temp_de (upload "pis.pdf" (py "PIS/PASEP: 123.45678.90-1")))
                disco_inicial) as [[[] | e] disk1] eqn:Hs;
      [| vm_compute in Hs; discriminate Hs].
    exists disk1.
    apply (proj1 (proj2 (proj2 (processar_campo_disk envio_pis_ilegivel (py "pis")
                                  (dados_vazio, []) disco_inicial)))
             (upload "pis.pdf" (py "PIS/PASEP: 123.45678.90-1")) disk1).
    + vm_compute. reflexivity.
    + exact Hs.
    + vm_compute. reflexivity.
  - destruct (save (upload "sub/rg.pdf"
                      (py "Nome: Maria Silva. CPF: 111.444.777-35." ++ enchimento))
                (py "temp/sub/rg.pdf") disco_com_sub) as [[[] | e] disk1] eqn:Hs;
      [| vm_compute in Hs; discriminate Hs].
    destruct (proj2 (proj2 (proj2 (processar_campo_disk envio_subpasta (py "rg")
                                     (dados_vazio, []) disco_com_sub)))
                (upload "sub/rg.pdf"
                   (py "Nome: Maria Silva. CPF: 111.444.777-35." ++ enchimento)) disk1)
      as (d' & info & Hpasso & Hrun).
    + vm_compute. reflexivity.
    + exact Hs.
    + exists d', info. rewrite Hrun. cbn [snd].
      assert (Hd : passo envio_subpasta (py "rg") (dados_vazio, [])
                   = Ok (d', [info])) by exact Hpasso.
      vm_compute in Hd. injection Hd as <- _. reflexivity.
Defined.



